(** * Lucille Protocol MCP server (src/src/index.ts)

    A shallow embedding of the gateway: the JavaScript values, strings and
    built-ins the handlers use, the HTTP helpers [apiGet] and [apiPost], the
    error classifier [errorContent] and the eleven tool handlers, followed by
    the properties of the specification that are about them and by further
    properties of the code: how each failure is worded, where the requests
    go and what they carry, and the edges of the formatters.

    Strings are sequences of UTF-16 code units, as in the language: [slice],
    [includes], [trim] and the regular expression all count code units.
    An integer of at most fifteen digits is a number exactly; every other
    number is left to the engine (class [Engine]), of which the handlers only
    observe truthiness, the printed form and the comparison with zero.  The
    wording of the errors the engine throws is part of that interface too,
    and so is the depth to which its stack lets [JSON.stringify] and [join]
    follow a nested value.  [Node] is an executable instance, used to run
    the model on concrete inputs. *)

From Stdlib Require Import String Ascii.
From Stdlib Require Import List NArith ZArith Bool Lia Permutation.
From Stdlib Require Decimal DecimalFacts DecimalN.
Import ListNotations.

Set Implicit Arguments.
Set Warnings "-register-all".

(** ** Strings as UTF-16 code units *)

Definition char16 := N.
Definition jsstring := list char16.

(** Source literals are written as Rocq strings (UTF-8 bytes) and decoded to
    code units; a code point above U+FFFF becomes a surrogate pair. *)
Definition utf16_of_codepoint (cp : N) : jsstring :=
  if (cp <? 65536)%N then [cp]
  else [(55296 + (cp - 65536) / 1024)%N; (56320 + (cp - 65536) mod 1024)%N].

Fixpoint utf16_of_utf8 (bs : list N) : jsstring :=
  match bs with
  | [] => []
  | b0 :: r0 =>
    if (b0 <? 128)%N then b0 :: utf16_of_utf8 r0
    else if (b0 <? 224)%N then
      match r0 with
      | b1 :: r1 => utf16_of_codepoint ((b0 mod 32) * 64 + b1 mod 64) ++ utf16_of_utf8 r1
      | [] => []
      end
    else if (b0 <? 240)%N then
      match r0 with
      | b1 :: b2 :: r2 =>
        utf16_of_codepoint ((b0 mod 16) * 4096 + (b1 mod 64) * 64 + b2 mod 64)
          ++ utf16_of_utf8 r2
      | _ => []
      end
    else
      match r0 with
      | b1 :: b2 :: b3 :: r3 =>
        utf16_of_codepoint
          ((b0 mod 8) * 262144 + (b1 mod 64) * 4096 + (b2 mod 64) * 64 + b3 mod 64)
          ++ utf16_of_utf8 r3
      | _ => []
      end
  end.

Definition lit (s : string) : jsstring :=
  utf16_of_utf8 (map Byte.to_N (list_byte_of_string s)).
Arguments lit : simpl never.

(** The characters a Rocq literal cannot hold conveniently. *)
Definition dquote : jsstring := [34%N].
Definition nl : jsstring := [10%N].

Fixpoint str_eqb (a b : jsstring) : bool :=
  match a, b with
  | [], [] => true
  | x :: a', y :: b' => N.eqb x y && str_eqb a' b'
  | _, _ => false
  end.

Fixpoint starts_with (p s : jsstring) : bool :=
  match p, s with
  | [], _ => true
  | x :: p', y :: s' => N.eqb x y && starts_with p' s'
  | _ :: _, [] => false
  end.

(** [String.prototype.includes(sub)]: [sub] occurs at some position. *)
Fixpoint includes (s sub : jsstring) : bool :=
  starts_with sub s ||
  match s with
  | [] => false
  | _ :: s' => includes s' sub
  end.

(** [String.prototype.slice(start, end)] and [Array.prototype.slice]: a
    negative index counts from the end, both are clamped to the length. *)
Definition relative_index (len i : Z) : Z :=
  if (i <? 0)%Z then Z.max (len + i) 0 else Z.min i len.

Definition slice {A : Type} (s : list A) (start : Z) (end_ : option Z) : list A :=
  let len := Z.of_nat (length s) in
  let from := relative_index len start in
  let to := match end_ with Some e => relative_index len e | None => len end in
  if (to <=? from)%Z then []
  else firstn (Z.to_nat (to - from)) (skipn (Z.to_nat from) s).

(** White space and line terminators, as [trim] strips them. *)
Definition is_js_whitespace (c : char16) : bool :=
  existsb (N.eqb c)
    [9; 10; 11; 12; 13; 32; 160; 5760; 8232; 8233; 8239; 8287; 12288; 65279]%N
  || ((8192 <=? c) && (c <=? 8202))%N.

Fixpoint trim_start (s : jsstring) : jsstring :=
  match s with
  | c :: s' => if is_js_whitespace c then trim_start s' else s
  | [] => []
  end.

Definition trim (s : jsstring) : jsstring :=
  rev (trim_start (rev (trim_start s))).

(** Decimal digits of a natural number, most significant first. *)
Fixpoint chars_of_uint (u : Decimal.uint) : jsstring :=
  match u with
  | Decimal.Nil => []
  | Decimal.D0 u => 48%N :: chars_of_uint u
  | Decimal.D1 u => 49%N :: chars_of_uint u
  | Decimal.D2 u => 50%N :: chars_of_uint u
  | Decimal.D3 u => 51%N :: chars_of_uint u
  | Decimal.D4 u => 52%N :: chars_of_uint u
  | Decimal.D5 u => 53%N :: chars_of_uint u
  | Decimal.D6 u => 54%N :: chars_of_uint u
  | Decimal.D7 u => 55%N :: chars_of_uint u
  | Decimal.D8 u => 56%N :: chars_of_uint u
  | Decimal.D9 u => 57%N :: chars_of_uint u
  end.

Definition decimal_of_N (n : N) : jsstring := chars_of_uint (N.to_uint n).
Definition decimal_of_nat (n : nat) : jsstring := decimal_of_N (N.of_nat n).
Definition decimal_of_Z (z : Z) : jsstring :=
  if (z <? 0)%Z then 45%N :: decimal_of_N (Z.to_N (- z)) else decimal_of_N (Z.to_N z).

Example lit_plain : lit "0x1f" = [48; 120; 49; 102]%N.
Proof. reflexivity. Qed.

Example lit_bmp_and_astral :
  lit "⏳🔧" = [9203; 55357; 56615]%N.
Proof. reflexivity. Qed.

Example slice_negative : slice (lit "0x123456789") (-4) None = lit "6789".
Proof. reflexivity. Qed.

Example decimal_of_nat_42 : decimal_of_nat 42 = lit "42".
Proof. reflexivity. Qed.

(** ** Regular expressions

    The fragment the source uses: single characters, character classes and a
    counted repetition, between the anchors [^] and [$].  Without the [m] flag
    [$] matches at the end of the input only. *)

Inductive regex :=
| RChar (c : char16)
| RClass (ranges : list (char16 * char16))
| RSeq (r1 r2 : regex)
| RRepeat (n : nat) (r : regex).

Definition in_ranges (ranges : list (char16 * char16)) (c : char16) : bool :=
  existsb (fun lh => (fst lh <=? c) && (c <=? snd lh))%N ranges.

(** [re_match r s]: the rest of [s] after the prefix matched by [r].  Every
    expression of the fragment matches at most one prefix, so there is no
    backtracking. *)
Fixpoint re_match (r : regex) (s : jsstring) : option jsstring :=
  match r with
  | RChar c =>
    match s with
    | x :: s' => if N.eqb x c then Some s' else None
    | [] => None
    end
  | RClass ranges =>
    match s with
    | x :: s' => if in_ranges ranges x then Some s' else None
    | [] => None
    end
  | RSeq r1 r2 =>
    match re_match r1 s with
    | Some s' => re_match r2 s'
    | None => None
    end
  | RRepeat n r1 =>
    (fix rep (k : nat) (s0 : jsstring) : option jsstring :=
       match k with
       | O => Some s0
       | S k' =>
         match re_match r1 s0 with
         | Some s' => rep k' s'
         | None => None
         end
       end) n s
  end.

(** [/^r$/.test(s)] *)
Definition regex_test_anchored (r : regex) (s : jsstring) : bool :=
  match re_match r s with
  | Some [] => true
  | _ => false
  end.

(** [/^0x[a-fA-F0-9]{40}$/] *)
Definition wallet_regex : regex :=
  RSeq (RChar 48%N)
    (RSeq (RChar 120%N)
       (RRepeat 40 (RClass [(97, 102); (65, 70); (48, 57)]%N))).

Example wallet_regex_accepts :
  regex_test_anchored wallet_regex (lit "0x1234567890abcdef1234567890ABCDEF12345678") = true.
Proof. reflexivity. Qed.

Example wallet_regex_rejects_trailing_newline :
  regex_test_anchored wallet_regex
    (lit "0x1234567890abcdef1234567890ABCDEF12345678" ++ nl) = false.
Proof. reflexivity. Qed.

(** ** Lexical helpers *)

Definition is_digit (c : char16) : bool := ((48 <=? c) && (c <=? 57))%N.

Definition hex_value (c : char16) : option N :=
  if is_digit c then Some (c - 48)%N
  else if ((97 <=? c) && (c <=? 102))%N then Some (c - 87)%N
  else if ((65 <=? c) && (c <=? 70))%N then Some (c - 55)%N
  else None.

Fixpoint take_digits (s : jsstring) : list N * jsstring :=
  match s with
  | c :: r =>
    if is_digit c then let (ds, rest) := take_digits r in ((c - 48)%N :: ds, rest)
    else ([], s)
  | [] => ([], [])
  end.

Definition digits_to_Z (ds : list N) : Z :=
  Z.of_N (fold_left (fun acc d => acc * 10 + d)%N ds 0%N).

(** ** The engine interface

    What the handlers observe of an IEEE-754 number, the wording of the
    errors the engine itself throws, and the reach of its stack. *)

(** A JSON numeric literal: sign, integer digits, fraction digits, exponent. *)
Record numeral := {
  numeral_neg : bool;
  numeral_int : list N;
  numeral_frac : list N;
  numeral_exp : Z
}.

Inductive builtin_error :=
| ReadOfNull (prop : jsstring)
| ReadOfUndefined (prop : jsstring)
| NotAFunction (callee : jsstring)
| NotPrimitive
| JSONSyntax (text : jsstring)
| StackOverflow.

Class Engine (number : Type) := {
  (** ToBoolean: false for +0, -0 and NaN only *)
  number_truthy : number -> bool;
  (** Number::toString, radix 10 *)
  number_toString : number -> jsstring;
  number_isFinite : number -> bool;
  (** [x > 0] *)
  number_positive : number -> bool;
  (** the value of a numeric literal *)
  number_of_literal : numeral -> number;
  (** StringToNumber *)
  number_of_string : jsstring -> number;
  (** [message] of a TypeError, SyntaxError or RangeError thrown by the
      engine *)
  error_message : builtin_error -> jsstring;
  (** [JSON.stringify] and [Array.prototype.join] call themselves on what a
      value holds, and the engine throws a RangeError when the stack is
      exhausted.  Every engine has room for eight levels of nesting, which
      is more than the handlers' own values need; how many more levels each
      of the two can follow is the engine's. *)
  stringify_stack : nat;
  join_stack : nat
}.

(** ** An executable engine

    Numbers as a double prints: the shortest decimal that denotes it,
    [0.d1...dk * 10^point] with [d1] and [dk] not zero ([digits] empty for
    zero).  The value of a literal is rounded to the nearest binary64, ties
    to even, and is infinite beyond the range; Number::toString prints the
    digits.  The error messages follow V8's wording. *)
Inductive node_number :=
| NodeNaN
| NodeInfinity (negative : bool)
| NodeDecimal (negative : bool) (digits : list N) (point : Z).

Fixpoint strip_leading_zeros (ds : list N) (point : Z) : list N * Z :=
  match ds with
  | d :: rest => if N.eqb d 0 then strip_leading_zeros rest (point - 1) else (ds, point)
  | [] => ([], point)
  end.

Definition strip_trailing_zeros (ds : list N) : list N :=
  rev (fst (strip_leading_zeros (rev ds) 0)).

(** The positive rational [num / den] divided by [2 ^ e], and by [10 ^ e]. *)
Definition scale2 (num den e : Z) : Z * Z :=
  if (0 <=? e)%Z then (num, den * 2 ^ e)%Z else (num * 2 ^ (- e), den)%Z.

Definition scale10 (num den e : Z) : Z * Z :=
  if (0 <=? e)%Z then (num, den * 10 ^ e)%Z else (num * 10 ^ (- e), den)%Z.

(** The greatest [e] with [2 ^ e <= num / den]. *)
Definition floor_log2 (num den : Z) : Z :=
  let e0 := (Z.log2 num - Z.log2 den)%Z in
  let (n, d) := scale2 num den e0 in
  if (n <? d)%Z then (e0 - 1)%Z else e0.

(** The greatest [e] with [10 ^ e <= num / den]: an estimate from the binary
    logarithm, which is off by one at most, put right. *)
Definition floor_log10 (num den : Z) : Z :=
  let k := ((floor_log2 num den * 30103) / 100000)%Z in
  let (n, d) := scale10 num den k in
  if (n <? d)%Z then (k - 1)%Z else if (10 * d <=? n)%Z then (k + 1)%Z else k.

Definition round_half_even (n d : Z) : Z :=
  let q := (n / d)%Z in
  let r := (n mod d)%Z in
  if (2 * r <? d)%Z then q
  else if (d <? 2 * r)%Z then (q + 1)%Z
  else if Z.even q then q else (q + 1)%Z.

(** The binary64 nearest to [num / den > 0], as [m * 2 ^ e] with
    [m <= 2 ^ 53] and [e] no less than that of the subnormals: [None] when
    the value is beyond the range, [m = 0] when it rounds to zero. *)
Definition binary64_of_ratio (num den : Z) : option (Z * Z) :=
  let e := Z.max (floor_log2 num den - 52) (-1074) in
  let (n, d) := scale2 num den e in
  let m := round_half_even n d in
  if ((971 <? e) || ((e =? 971) && (2 ^ 53 <=? m)))%Z then None else Some (m, e).

Definition same_binary64 (a b : option (Z * Z)) : bool :=
  match a, b with
  | Some (m1, e1), Some (m2, e2) =>
    let e := Z.min e1 e2 in (m1 * 2 ^ (e1 - e) =? m2 * 2 ^ (e2 - e))%Z
  | _, _ => false
  end.

Definition digits_of_Z (z : Z) : list N :=
  (fix go (fuel : nat) (z : Z) (acc : list N) : list N :=
     match fuel with
     | O => acc
     | S fuel' =>
       if (z <=? 0)%Z then acc else go fuel' (z / 10)%Z (Z.to_N (z mod 10) :: acc)
     end) 400%nat z [].

(** Number::toString chooses the digits: as few as denote the number (the
    decimal of [k] digits rounds to it), and among those the closest to it.
    [n] is the position of the point, [10 ^ (n - 1) <= m * 2 ^ e < 10 ^ n];
    seventeen digits always do. *)
Fixpoint shortest (fuel : nat) (k : Z) (m e n : Z) : list N * Z :=
  let (vn, vd) := scale2 m 1 (- e) in
  let (sn, sd) := scale10 vn vd (n - k) in
  let lo := (sn / sd)%Z in
  let hi := (lo + 1)%Z in
  let back s := let (bn, bd) := scale10 s 1 (k - n) in binary64_of_ratio bn bd in
  let ok_lo := (0 <? lo)%Z && same_binary64 (back lo) (Some (m, e)) in
  let ok_hi := same_binary64 (back hi) (Some (m, e)) in
  let r := (sn mod sd)%Z in
  let pick s :=
    let ds := digits_of_Z s in
    (strip_trailing_zeros ds, (n + (Z.of_nat (length ds) - k))%Z) in
  if ok_lo && ok_hi then
    if (2 * r <? sd)%Z then pick lo
    else if (sd <? 2 * r)%Z then pick hi
    else if Z.even lo then pick lo else pick hi
  else if ok_lo then pick lo
  else if ok_hi then pick hi
  else
    match fuel with
    | O => pick lo
    | S fuel' => shortest fuel' (k + 1) m e n
    end.

(** The number denoted by the digits [ds] with the point after the first
    [point] of them. *)
Definition node_decimal (negative : bool) (ds : list N) (point : Z) : node_number :=
  let (ds1, p1) := strip_leading_zeros ds point in
  match ds1 with
  | [] => NodeDecimal negative [] 0
  | _ :: _ =>
    if (400 <? p1)%Z then NodeInfinity negative
    else if (p1 <? -400)%Z then NodeDecimal negative [] 0
    else
      let (num, den) := scale10 (digits_to_Z ds1) 1 (Z.of_nat (length ds1) - p1) in
      match binary64_of_ratio num den with
      | None => NodeInfinity negative
      | Some (m, e) =>
        if (m =? 0)%Z then NodeDecimal negative [] 0
        else
          let (vn, vd) := scale2 m 1 (- e) in
          let (digits, p) := shortest 17 1 m e (floor_log10 vn vd + 1) in
          NodeDecimal negative digits p
      end
  end.

Definition node_of_literal (l : numeral) : node_number :=
  node_decimal (numeral_neg l) (numeral_int l ++ numeral_frac l)
    (Z.of_nat (length (numeral_int l)) + numeral_exp l).

Definition chars_of_digits (ds : list N) : jsstring := map (N.add 48) ds.
Definition zeros (n : Z) : jsstring := repeat 48%N (Z.to_nat n).

Definition node_toString (x : node_number) : jsstring :=
  match x with
  | NodeNaN => lit "NaN"
  | NodeInfinity negative => (if negative then lit "-" else []) ++ lit "Infinity"
  | NodeDecimal _ [] _ => lit "0"
  | NodeDecimal negative ((d :: more) as ds) n =>
    let k := Z.of_nat (length ds) in
    (if negative then lit "-" else []) ++
    (if (k <=? n)%Z && (n <=? 21)%Z then chars_of_digits ds ++ zeros (n - k)
     else if (0 <? n)%Z && (n <=? 21)%Z then
       chars_of_digits (firstn (Z.to_nat n) ds) ++ lit "."
       ++ chars_of_digits (skipn (Z.to_nat n) ds)
     else if (-6 <? n)%Z && (n <=? 0)%Z then
       lit "0." ++ zeros (- n) ++ chars_of_digits ds
     else
       chars_of_digits [d]
       ++ match more with [] => [] | _ :: _ => lit "." ++ chars_of_digits more end
       ++ lit "e" ++ (if (n - 1 <? 0)%Z then lit "-" else lit "+")
       ++ decimal_of_Z (Z.abs (n - 1)))
  end.

Definition node_truthy (x : node_number) : bool :=
  match x with
  | NodeNaN => false
  | NodeInfinity _ => true
  | NodeDecimal _ [] _ => false
  | NodeDecimal _ (_ :: _) _ => true
  end.

Definition node_isFinite (x : node_number) : bool :=
  match x with
  | NodeDecimal _ _ _ => true
  | _ => false
  end.

Definition node_positive (x : node_number) : bool :=
  match x with
  | NodeInfinity negative => negb negative
  | NodeDecimal false (_ :: _) _ => true
  | _ => false
  end.

(** StringToNumber: white space is trimmed; the empty string is zero; then
    an optionally signed [Infinity] or decimal literal, or an unsigned
    literal in radix 16, 8 or 2; anything else is NaN. *)
Definition split_sign (s : jsstring) : bool * jsstring :=
  match s with
  | c :: r => if N.eqb c 45 then (true, r) else if N.eqb c 43 then (false, r) else (false, s)
  | [] => (false, s)
  end.

Definition node_of_decimal_text (negative : bool) (s : jsstring) : node_number :=
  let (int, r1) := take_digits s in
  let (frac, r2) :=
    match r1 with
    | c :: r => if N.eqb c 46 then take_digits r else ([], r1)
    | [] => ([], r1)
    end in
  match int ++ frac with
  | [] => NodeNaN
  | _ :: _ =>
    match r2 with
    | [] => node_decimal negative (int ++ frac) (Z.of_nat (length int))
    | c :: r =>
      if N.eqb c 101 || N.eqb c 69 then
        let (eneg, r3) := split_sign r in
        match take_digits r3 with
        | ((_ :: _) as ed, []) =>
          node_decimal negative (int ++ frac)
            (Z.of_nat (length int) + (if eneg then - digits_to_Z ed else digits_to_Z ed))
        | _ => NodeNaN
        end
      else NodeNaN
    end
  end.

Definition radix_value (radix : N) (s : jsstring) : option N :=
  match s with
  | [] => None
  | _ :: _ =>
    fold_left
      (fun acc c =>
         match acc, hex_value c with
         | Some a, Some d => if (d <? radix)%N then Some (a * radix + d)%N else None
         | _, _ => None
         end) s (Some 0%N)
  end.

Definition node_of_N (n : N) : node_number :=
  let ds := map (fun c => c - 48)%N (decimal_of_N n) in
  node_decimal false ds (Z.of_nat (length ds)).

Definition node_of_string (s : jsstring) : node_number :=
  let t := trim s in
  match t with
  | [] => NodeDecimal false [] 0
  | c0 :: c1 :: digits =>
    let radix :=
      if N.eqb c0 48 then
        if N.eqb c1 120 || N.eqb c1 88 then Some 16%N
        else if N.eqb c1 111 || N.eqb c1 79 then Some 8%N
        else if N.eqb c1 98 || N.eqb c1 66 then Some 2%N
        else None
      else None in
    match radix with
    | Some r =>
      match radix_value r digits with
      | Some n => node_of_N n
      | None => NodeNaN
      end
    | None =>
      let (negative, body) := split_sign t in
      if str_eqb body (lit "Infinity") then NodeInfinity negative
      else node_of_decimal_text negative body
    end
  | _ =>
    let (negative, body) := split_sign t in
    node_of_decimal_text negative body
  end.

(** The message of a SyntaxError of [JSON.parse], as V8 words it for a text
    that is rejected at its first token, which is what a server sends that
    does not answer in JSON: the offending character, and the text itself
    when it is shorter than 21 characters, else ten characters of it on
    either side of the offender; four texts that are the print of a value
    are quoted whole.  A text that is rejected further on is reported in the
    same words. *)
Fixpoint json_ws_prefix (s : jsstring) : nat :=
  match s with
  | c :: r => if existsb (N.eqb c) [9; 10; 13; 32]%N then S (json_ws_prefix r) else O
  | [] => O
  end.

Definition json_context (text : jsstring) (pos : nat) : jsstring :=
  if (length text <? 21)%nat then dquote ++ text ++ dquote
  else if (pos <? 10)%nat then dquote ++ firstn (pos + 10) text ++ dquote ++ lit "..."
  else if (pos <? length text - 10)%nat then
    lit "..." ++ dquote ++ firstn 20 (skipn (pos - 10) text) ++ dquote ++ lit "..."
  else lit "..." ++ dquote ++ skipn (pos - 10) text ++ dquote.

Definition json_special_text (text : jsstring) : bool :=
  existsb (str_eqb text)
    [lit "undefined"; lit "NaN"; lit "Infinity"; lit "[object Object]"].

Definition node_error_message (b : builtin_error) : jsstring :=
  match b with
  | ReadOfNull prop =>
    lit "Cannot read properties of null (reading '" ++ prop ++ lit "')"
  | ReadOfUndefined prop =>
    lit "Cannot read properties of undefined (reading '" ++ prop ++ lit "')"
  | NotAFunction callee => callee ++ lit " is not a function"
  | NotPrimitive => lit "Cannot convert object to primitive value"
  | StackOverflow => lit "Maximum call stack size exceeded"
  | JSONSyntax text =>
    let pos := json_ws_prefix text in
    match skipn pos text with
    | [] => lit "Unexpected end of JSON input"
    | c :: _ =>
      if json_special_text text then dquote ++ text ++ dquote ++ lit " is not valid JSON"
      else
        lit "Unexpected token '" ++ [c] ++ lit "', " ++ json_context text pos
        ++ lit " is not valid JSON"
    end
  end.

(** The stack V8 starts with holds some thousands of frames of either
    recursion; the figures are of that order, not measured ones. *)
#[export] Instance Node : Engine node_number := {|
  number_truthy := node_truthy;
  number_toString := node_toString;
  number_isFinite := node_isFinite;
  number_positive := node_positive;
  number_of_literal := node_of_literal;
  number_of_string := node_of_string;
  error_message := node_error_message;
  stringify_stack := 4088;
  join_stack := 4088
|}.

Example node_prints_fraction :
  node_toString (node_of_literal
    {| numeral_neg := false; numeral_int := [1%N]; numeral_frac := [5; 0]%N; numeral_exp := 0 |})
  = lit "1.5".
Proof. vm_compute. reflexivity. Qed.

Example node_prints_exponent :
  node_toString (node_of_literal
    {| numeral_neg := true; numeral_int := [1%N]; numeral_frac := [2%N]; numeral_exp := 21 |})
  = lit "-1.2e+21".
Proof. vm_compute. reflexivity. Qed.

Example node_prints_small :
  node_toString (node_of_string (lit " 0.00000012 ")) = lit "1.2e-7".
Proof. vm_compute. reflexivity. Qed.

Example node_rounds_to_nearest :
  node_toString (node_of_string (lit "0.1234567890123456789")) = lit "0.12345678901234568"
  /\ node_toString (node_of_string (lit "9007199254740993")) = lit "9007199254740992"
  /\ node_toString (node_of_string (lit "1e400")) = lit "Infinity"
  /\ node_toString (node_of_string (lit "1e-400")) = lit "0".
Proof. split; [|split; [|split]]; vm_compute; reflexivity. Qed.

Example node_words_syntax_errors :
  node_error_message (JSONSyntax (lit "<html>"))
  = lit "Unexpected token '<', " ++ dquote ++ lit "<html>" ++ dquote
    ++ lit " is not valid JSON"
  /\ node_error_message (JSONSyntax (lit "Internal Server Error"))
     = lit "Unexpected token 'I', " ++ dquote ++ lit "Internal S" ++ dquote
       ++ lit "... is not valid JSON"
  /\ node_error_message (JSONSyntax (lit "undefined"))
     = dquote ++ lit "undefined" ++ dquote ++ lit " is not valid JSON"
  /\ node_error_message (JSONSyntax []) = lit "Unexpected end of JSON input".
Proof. split; [|split; [|split]]; vm_compute; reflexivity. Qed.

Section Gateway.
Context {number : Type} {E : Engine number}.

(** ** Values: [undefined] and what [JSON.parse] produces.

    An object keeps its own properties in creation order.  An integer of at
    most fifteen digits is a number exactly and is kept as such ([Int]): array
    lengths, indices, the integer constants of the source and the integer
    literals of a JSON text.  Any other number is the engine's ([Float]). *)
Inductive jsnumber :=
| Int (z : Z)
| Float (x : number).

Definition num_truthy (n : jsnumber) : bool :=
  match n with
  | Int z => negb (Z.eqb z 0)
  | Float x => number_truthy x
  end.

Definition num_toString (n : jsnumber) : jsstring :=
  match n with
  | Int z => decimal_of_Z z
  | Float x => number_toString x
  end.

Definition num_isFinite (n : jsnumber) : bool :=
  match n with
  | Int _ => true
  | Float x => number_isFinite x
  end.

(** [n > 0] and [n === 0] *)
Definition num_positive (n : jsnumber) : bool :=
  match n with
  | Int z => (0 <? z)%Z
  | Float x => number_positive x
  end.

Definition num_is_zero (n : jsnumber) : bool :=
  match n with
  | Int z => Z.eqb z 0
  | Float x => negb (number_truthy x) && number_isFinite x
  end.

(** The value of a JSON numeric literal. *)
Definition num_of_literal (l : numeral) : jsnumber :=
  match numeral_frac l with
  | [] =>
    if Z.eqb (numeral_exp l) 0 && (length (numeral_int l) <=? 15)%nat then
      Int (if numeral_neg l then - digits_to_Z (numeral_int l)
           else digits_to_Z (numeral_int l))
    else Float (number_of_literal l)
  | _ :: _ => Float (number_of_literal l)
  end.

Inductive value :=
| VUndefined
| VNull
| VBool (b : bool)
| VNum (n : jsnumber)
| VStr (s : jsstring)
| VArr (items : list value)
| VObj (props : list (jsstring * value)).

(** What a [throw] or a rejected promise carries. *)
Inductive thrown :=
| ThrownApiError (status : Z) (body : jsstring)
| ThrownError (message : jsstring)
| ThrownValue (v : value).

Inductive result (A : Type) :=
| Ok (a : A)
| Throw (e : thrown).
Arguments Ok {A} a.
Arguments Throw {A} e.

Definition bind {A B : Type} (r : result A) (f : A -> result B) : result B :=
  match r with
  | Ok a => f a
  | Throw e => Throw e
  end.

(** [try { body } catch (e) { handler(e) }] *)
Definition try_catch {A : Type} (body : result A) (handler : thrown -> result A) : result A :=
  match body with
  | Ok a => Ok a
  | Throw e => handler e
  end.

Definition TypeError (b : builtin_error) : thrown := ThrownError (error_message b).
Definition RangeError : thrown := ThrownError (error_message StackOverflow).

(** ToBoolean *)
Definition truthy (v : value) : bool :=
  match v with
  | VUndefined | VNull => false
  | VBool b => b
  | VNum n => num_truthy n
  | VStr s => match s with [] => false | _ => true end
  | VArr _ | VObj _ => true
  end.

(** [a || b] *)
Definition js_or (a b : value) : value := if truthy a then a else b.

Fixpoint own_property {A : Type} (props : list (jsstring * A)) (k : jsstring) : option A :=
  match props with
  | [] => None
  | (k', v) :: rest => if str_eqb k' k then Some v else own_property rest k
  end.

(** [v.k] for the field names the handlers read.  None of them is inherited
    from a prototype except [length]; an array or a string is not read by
    index here. *)
Definition get (v : value) (k : jsstring) : result value :=
  match v with
  | VUndefined => Throw (TypeError (ReadOfUndefined k))
  | VNull => Throw (TypeError (ReadOfNull k))
  | VObj props =>
    match own_property props k with
    | Some x => Ok x
    | None => Ok VUndefined
    end
  | VArr items =>
    if str_eqb k (lit "length") then Ok (VNum (Int (Z.of_nat (length items))))
    else Ok VUndefined
  | VStr s =>
    if str_eqb k (lit "length") then Ok (VNum (Int (Z.of_nat (length s))))
    else Ok VUndefined
  | VBool _ | VNum _ => Ok VUndefined
  end.

(** [v?.k] *)
Definition get_opt (v : value) (k : jsstring) : result value :=
  match v with
  | VUndefined | VNull => Ok VUndefined
  | _ => get v k
  end.

(** ToString, as a template literal and [+=] on a string apply it.  A plain
    object prints through [Object.prototype.toString] unless an own
    [toString] property hides it: that property is data, not a function, and
    [valueOf] returns the object itself, so the conversion throws.  An array
    prints through [join], which converts the elements from left to right,
    one level of the stack for each level of nesting: [print depth] has
    [depth] levels left. *)
Fixpoint print (depth : nat) (v : value) {struct v} : result jsstring :=
  match v with
  | VUndefined => Ok (lit "undefined")
  | VNull => Ok (lit "null")
  | VBool true => Ok (lit "true")
  | VBool false => Ok (lit "false")
  | VNum n => Ok (num_toString n)
  | VStr s => Ok s
  | VArr items =>
    match depth with
    | O => Throw RangeError
    | S depth' =>
      (fix join (l : list value) : result jsstring :=
         match l with
         | [] => Ok []
         | x :: rest =>
           bind (match x with
                 | VUndefined | VNull => Ok []
                 | _ => print depth' x
                 end)
             (fun sx =>
                match rest with
                | [] => Ok sx
                | _ :: _ => bind (join rest) (fun sr => Ok (sx ++ lit "," ++ sr))
                end)
         end) items
    end
  | VObj props =>
    match own_property props (lit "toString") with
    | Some _ => Throw (TypeError NotPrimitive)
    | None => Ok (lit "[object Object]")
    end
  end.

Definition join_depth : nat := 8 + join_stack.

Definition to_string (v : value) : result jsstring := print join_depth v.

(** [v > 0]: the operand is converted with ToNumber. *)
Definition greater_than_zero (v : value) : result bool :=
  match v with
  | VUndefined | VNull => Ok false
  | VBool b => Ok b
  | VNum n => Ok (num_positive n)
  | VStr s => Ok (number_positive (number_of_string s))
  | VArr _ | VObj _ =>
    bind (to_string v) (fun s => Ok (number_positive (number_of_string s)))
  end.

(** [v === 0] *)
Definition strict_equals_zero (v : value) : bool :=
  match v with
  | VNum n => num_is_zero n
  | _ => false
  end.

(** [v === "s"] *)
Definition strict_equals_string (v : value) (s : jsstring) : bool :=
  match v with
  | VStr s' => str_eqb s' s
  | _ => false
  end.

Definition isArray (v : value) : bool :=
  match v with
  | VArr _ => true
  | _ => false
  end.

(** [recv.slice(start, end)]: strings and arrays have the method; on any
    other value the property is absent or is data, and the call throws.
    [callee] is the text the engine names in the message. *)
Definition call_slice (callee : jsstring) (recv : value) (start : Z) (end_ : option Z)
  : result value :=
  match recv with
  | VStr s => Ok (VStr (slice s start end_))
  | VArr items => Ok (VArr (slice items start end_))
  | VUndefined => Throw (TypeError (ReadOfUndefined (lit "slice")))
  | VNull => Throw (TypeError (ReadOfNull (lit "slice")))
  | _ => Throw (TypeError (NotAFunction callee))
  end.

(** The receiver of [forEach] or [map]: only an array has them. *)
Definition array_items (callee member : jsstring) (recv : value) : result (list value) :=
  match recv with
  | VArr items => Ok items
  | VUndefined => Throw (TypeError (ReadOfUndefined member))
  | VNull => Throw (TypeError (ReadOfNull member))
  | _ => Throw (TypeError (NotAFunction callee))
  end.

(** ** Own property order

    Array-index keys first, in ascending order, then the other keys in
    creation order ([Object.entries], [JSON.stringify]). *)
Definition digits_value (s : jsstring) : N :=
  fold_left (fun acc c => acc * 10 + (c - 48))%N s 0%N.

Definition array_index (k : jsstring) : option N :=
  match k with
  | [] => None
  | c :: rest =>
    if forallb is_digit k
       && (negb (N.eqb c 48) || match rest with [] => true | _ => false end)
       && (length k <=? 10)%nat
       && (digits_value k <? 4294967295)%N
    then Some (digits_value k)
    else None
  end.

Fixpoint insert_by_index {A : Type} (i : N) (kv : jsstring * A)
  (l : list (N * (jsstring * A))) : list (N * (jsstring * A)) :=
  match l with
  | [] => [(i, kv)]
  | (j, kv') :: rest =>
    if (i <? j)%N then (i, kv) :: l else (j, kv') :: insert_by_index i kv rest
  end.

Fixpoint split_index_keys {A : Type} (props : list (jsstring * A))
  : list (N * (jsstring * A)) * list (jsstring * A) :=
  match props with
  | [] => ([], [])
  | (k, v) :: rest =>
    let (idx, others) := split_index_keys rest in
    match array_index k with
    | Some i => (insert_by_index i (k, v) idx, others)
    | None => (idx, (k, v) :: others)
    end
  end.

Definition entries {A : Type} (props : list (jsstring * A)) : list (jsstring * A) :=
  let (idx, others) := split_index_keys props in
  map snd idx ++ others.

(** [obj[k] = v]: an existing property keeps its place. *)
Fixpoint set_property {A : Type} (props : list (jsstring * A)) (k : jsstring) (v : A)
  : list (jsstring * A) :=
  match props with
  | [] => [(k, v)]
  | (k', v') :: rest =>
    if str_eqb k' k then (k', v) :: rest else (k', v') :: set_property rest k v
  end.

(** ** [JSON.parse] *)

Definition is_json_ws (c : char16) : bool := existsb (N.eqb c) [9; 10; 13; 32]%N.

Fixpoint skip_ws (s : jsstring) : jsstring :=
  match s with
  | c :: r => if is_json_ws c then skip_ws r else s
  | [] => []
  end.

Definition hex4 (a b c d : char16) : option char16 :=
  match hex_value a, hex_value b, hex_value c, hex_value d with
  | Some x, Some y, Some z, Some w => Some (((x * 16 + y) * 16 + z) * 16 + w)%N
  | _, _, _, _ => None
  end.

(** The character after a backslash: quote, backslash, slash, b f n r t. *)
Definition escape_char (c : char16) : option char16 :=
  if N.eqb c 34 then Some 34%N
  else if N.eqb c 92 then Some 92%N
  else if N.eqb c 47 then Some 47%N
  else if N.eqb c 98 then Some 8%N
  else if N.eqb c 102 then Some 12%N
  else if N.eqb c 110 then Some 10%N
  else if N.eqb c 114 then Some 13%N
  else if N.eqb c 116 then Some 9%N
  else None.

(** The characters of a string literal after its opening quote. *)
Fixpoint parse_string_chars (s acc : jsstring) : option (jsstring * jsstring) :=
  match s with
  | [] => None
  | c :: r =>
    if N.eqb c 34 then Some (rev acc, r)
    else if N.eqb c 92 then
      match r with
      | e :: r' =>
        if N.eqb e 117 then
          match r' with
          | h1 :: h2 :: h3 :: h4 :: r'' =>
            match hex4 h1 h2 h3 h4 with
            | Some u => parse_string_chars r'' (u :: acc)
            | None => None
            end
          | _ => None
          end
        else
          match escape_char e with
          | Some x => parse_string_chars r' (x :: acc)
          | None => None
          end
      | [] => None
      end
    else if (c <? 32)%N then None
    else parse_string_chars r (c :: acc)
  end.

(** [-? int frac? exp?], no leading zero in [int]. *)
Definition parse_number (s : jsstring) : option (numeral * jsstring) :=
  let (neg, s1) :=
    match s with
    | c :: r => if N.eqb c 45 then (true, r) else (false, s)
    | [] => (false, s)
    end in
  let (int, s2) := take_digits s1 in
  match int with
  | [] => None
  | d :: more =>
    if N.eqb d 0 && negb (match more with [] => true | _ => false end) then None
    else
      let frac :=
        match s2 with
        | c :: r =>
          if N.eqb c 46 then
            let (fd, r') := take_digits r in
            match fd with [] => None | _ => Some (fd, r') end
          else Some ([], s2)
        | [] => Some ([], s2)
        end in
      match frac with
      | None => None
      | Some (fd, s3) =>
        let expo :=
          match s3 with
          | c :: r =>
            if N.eqb c 101 || N.eqb c 69 then
              let (eneg, r1) :=
                match r with
                | sg :: r' =>
                  if N.eqb sg 45 then (true, r')
                  else if N.eqb sg 43 then (false, r')
                  else (false, r)
                | [] => (false, r)
                end in
              let (ed, r2) := take_digits r1 in
              match ed with
              | [] => None
              | _ => Some ((if eneg then - digits_to_Z ed else digits_to_Z ed)%Z, r2)
              end
            else Some (0%Z, s3)
          | [] => Some (0%Z, s3)
          end in
        match expo with
        | None => None
        | Some (ex, s4) =>
          Some ({| numeral_neg := neg; numeral_int := int;
                   numeral_frac := fd; numeral_exp := ex |}, s4)
        end
      end
  end.

Fixpoint parse_value (fuel : nat) (s : jsstring) : option (value * jsstring) :=
  match fuel with
  | O => None
  | S fuel' =>
    match skip_ws s with
    | [] => None
    | c :: r =>
      if N.eqb c 34 then
        match parse_string_chars r [] with
        | Some (str, r') => Some (VStr str, r')
        | None => None
        end
      else if N.eqb c 91 then
        match skip_ws r with
        | c' :: r' =>
          if N.eqb c' 93 then Some (VArr [], r') else parse_elements fuel' r []
        | [] => None
        end
      else if N.eqb c 123 then
        match skip_ws r with
        | c' :: r' =>
          if N.eqb c' 125 then Some (VObj [], r') else parse_members fuel' r []
        | [] => None
        end
      else if starts_with (lit "null") (c :: r) then Some (VNull, skipn 4 (c :: r))
      else if starts_with (lit "true") (c :: r) then Some (VBool true, skipn 4 (c :: r))
      else if starts_with (lit "false") (c :: r) then Some (VBool false, skipn 5 (c :: r))
      else
        match parse_number (c :: r) with
        | Some (n, r') => Some (VNum (num_of_literal n), r')
        | None => None
        end
    end
  end
with parse_elements (fuel : nat) (s : jsstring) (acc : list value)
  : option (value * jsstring) :=
  match fuel with
  | O => None
  | S fuel' =>
    match parse_value fuel' s with
    | Some (v, r) =>
      match skip_ws r with
      | c :: r' =>
        if N.eqb c 44 then parse_elements fuel' r' (v :: acc)
        else if N.eqb c 93 then Some (VArr (rev (v :: acc)), r')
        else None
      | [] => None
      end
    | None => None
    end
  end
with parse_members (fuel : nat) (s : jsstring) (acc : list (jsstring * value))
  : option (value * jsstring) :=
  match fuel with
  | O => None
  | S fuel' =>
    match skip_ws s with
    | q :: r =>
      if N.eqb q 34 then
        match parse_string_chars r [] with
        | Some (k, r1) =>
          match skip_ws r1 with
          | colon :: r2 =>
            if N.eqb colon 58 then
              match parse_value fuel' r2 with
              | Some (v, r3) =>
                match skip_ws r3 with
                | c :: r' =>
                  if N.eqb c 44 then parse_members fuel' r' (set_property acc k v)
                  else if N.eqb c 125 then Some (VObj (set_property acc k v), r')
                  else None
                | [] => None
                end
              | None => None
              end
            else None
          | [] => None
          end
        | None => None
        end
      else None
    | [] => None
    end
  end.

(** [JSON.parse(text)]: one value, then white space only; anything else is
    a [SyntaxError].  Two steps of fuel per character are enough for every
    text ([JSON_parse_fuel] below). *)
Definition JSON_parse (text : jsstring) : result value :=
  match parse_value (2 * length text + 2) text with
  | Some (v, rest) =>
    match skip_ws rest with
    | [] => Ok v
    | _ :: _ => Throw (ThrownError (error_message (JSONSyntax text)))
    end
  | None => Throw (ThrownError (error_message (JSONSyntax text)))
  end.

(** ** [JSON.stringify] *)

Definition hex_digit (n : N) : char16 := if (n <? 10)%N then (48 + n)%N else (87 + n)%N.

Definition unicode_escape (c : char16) : jsstring :=
  [92; 117]%N ++
  [hex_digit (c / 4096); hex_digit ((c / 256) mod 16);
   hex_digit ((c / 16) mod 16); hex_digit (c mod 16)].

Definition is_high_surrogate (c : char16) : bool := ((55296 <=? c) && (c <=? 56319))%N.
Definition is_low_surrogate (c : char16) : bool := ((56320 <=? c) && (c <=? 57343))%N.

(** The characters of a quoted string: short escapes, [\u00xx] for the other
    control characters and for a surrogate that has no partner. *)
Fixpoint quote_chars (s : jsstring) : jsstring :=
  match s with
  | [] => []
  | c :: r =>
    if N.eqb c 8 then lit "\b" ++ quote_chars r
    else if N.eqb c 9 then lit "\t" ++ quote_chars r
    else if N.eqb c 10 then lit "\n" ++ quote_chars r
    else if N.eqb c 12 then lit "\f" ++ quote_chars r
    else if N.eqb c 13 then lit "\r" ++ quote_chars r
    else if N.eqb c 34 then [92; 34]%N ++ quote_chars r
    else if N.eqb c 92 then [92; 92]%N ++ quote_chars r
    else if (c <? 32)%N then unicode_escape c ++ quote_chars r
    else if is_high_surrogate c then
      match r with
      | d :: r' =>
        if is_low_surrogate d then c :: d :: quote_chars r'
        else unicode_escape c ++ quote_chars r
      | [] => unicode_escape c
      end
    else if is_low_surrogate c then unicode_escape c ++ quote_chars r
    else c :: quote_chars r
  end.

Definition quote (s : jsstring) : jsstring := dquote ++ quote_chars s ++ dquote.

Fixpoint join_with (sep : jsstring) (parts : list jsstring) : jsstring :=
  match parts with
  | [] => []
  | [p] => p
  | p :: rest => p ++ sep ++ join_with sep rest
  end.

(** An array or object body between its brackets, with [gap] as the unit of
    indentation ([gap] empty: the compact form). *)
Definition bracket (open close gap indent : jsstring) (parts : list jsstring) : jsstring :=
  match parts with
  | [] => open ++ close
  | _ :: _ =>
    match gap with
    | [] => open ++ join_with (lit ",") parts ++ close
    | _ :: _ =>
      open ++ nl ++ (indent ++ gap)
        ++ join_with (lit "," ++ nl ++ indent ++ gap) parts
        ++ nl ++ indent ++ close
    end
  end.

(** The text [JSON.stringify] gives a value that is within the reach of the
    stack ([stringify] below).  [None] stands for the [undefined] that it
    gives back for [undefined]: an object member with that value is left
    out, an array element prints as [null]. *)
Fixpoint serialize (gap indent : jsstring) (v : value) : option jsstring :=
  match v with
  | VUndefined => None
  | VNull => Some (lit "null")
  | VBool true => Some (lit "true")
  | VBool false => Some (lit "false")
  | VNum n => Some (if num_isFinite n then num_toString n else lit "null")
  | VStr s => Some (quote s)
  | VArr items =>
    let parts :=
      (fix go (l : list value) : list jsstring :=
         match l with
         | [] => []
         | x :: rest =>
           match serialize gap (indent ++ gap) x with
           | Some sx => sx :: go rest
           | None => lit "null" :: go rest
           end
         end) items in
    Some (bracket (lit "[") (lit "]") gap indent parts)
  | VObj props =>
    let members :=
      (fix go (l : list (jsstring * value)) : list (jsstring * jsstring) :=
         match l with
         | [] => []
         | (k, x) :: rest =>
           match serialize gap (indent ++ gap) x with
           | Some sx => (k, sx) :: go rest
           | None => go rest
           end
         end) props in
    let colon := match gap with [] => lit ":" | _ :: _ => lit ": " end in
    Some (bracket (lit "{") (lit "}") gap indent
            (map (fun kv => quote (fst kv) ++ colon ++ snd kv) (entries members)))
  end.

(** How deep the arrays and objects of a value are nested in one another. *)
Fixpoint nesting (v : value) : nat :=
  match v with
  | VArr items =>
    S ((fix deepest (l : list value) : nat :=
          match l with
          | [] => 0
          | x :: rest => Nat.max (nesting x) (deepest rest)
          end) items)
  | VObj props =>
    S ((fix deepest (l : list (jsstring * value)) : nat :=
          match l with
          | [] => 0
          | (_, x) :: rest => Nat.max (nesting x) (deepest rest)
          end) props)
  | _ => 0
  end.

Definition stringify_depth : nat := 8 + stringify_stack.

(** [JSON.stringify] descends one level of the stack for each level of
    nesting; a value of [JSON.parse] gives it no other reason to throw. *)
Definition stringify (gap : jsstring) (v : value) : result (option jsstring) :=
  if (nesting v <=? stringify_depth)%nat then Ok (serialize gap [] v)
  else Throw RangeError.

(** [JSON.stringify(v)] and [JSON.stringify(v, null, 2)] *)
Definition JSON_stringify (v : value) : result (option jsstring) := stringify [] v.
Definition JSON_stringify_indent2 (v : value) : result (option jsstring) :=
  stringify (lit "  ") v.

(** A template literal prints the [undefined] result as such. *)
Definition string_or_undefined (o : option jsstring) : jsstring :=
  match o with
  | Some s => s
  | None => lit "undefined"
  end.

Notation "'let!' x ':=' e 'in' k" := (bind e (fun x => k))
  (at level 10, x name, e at level 200, k at level 200).

(** ** The gateway *)

(** A literal in which a backquote stands for the double quote. *)
Definition litq (s : string) : jsstring :=
  map (fun c => if N.eqb c 96 then 34%N else c) (lit s).
Arguments litq : simpl never.

Inductive http_method := GET | POST.

Record request := {
  req_url : jsstring;
  req_method : http_method;
  req_headers : list (jsstring * jsstring);
  req_body : option jsstring
}.

Record text_item := { item_type : jsstring; item_text : jsstring }.
Record tool_result := { content : list text_item }.

(** [process.env.LUCILLE_API_URL], set or not. *)
Variable LUCILLE_API_URL : option jsstring.

(** A response: its status and what reading its body gives. *)
Record response := { res_status : Z; res_body : result jsstring }.

Inductive fetch_outcome :=
| Resolved (res : response)
| Rejected (e : thrown).

(** An [async] function that awaits [fetch]: it settles with a value or a
    thrown one, or issues a request and goes on from its outcome. *)
Inductive prog (A : Type) :=
| Done (r : result A)
| Fetch (req : request) (k : fetch_outcome -> prog A).
Arguments Done {A} r.
Arguments Fetch {A} req k.

(** [const x = await p; return k(x)] *)
Fixpoint await_then {A B : Type} (p : prog A) (k : A -> result B) : prog B :=
  match p with
  | Done r => Done (bind r k)
  | Fetch req c => Fetch req (fun o => await_then (c o) k)
  end.

(** [try { return await p } catch (err) { return h(err) }] *)
Fixpoint catch_async {A : Type} (p : prog A) (h : thrown -> result A) : prog A :=
  match p with
  | Done r => Done (try_catch r h)
  | Fetch req c => Fetch req (fun o => catch_async (c o) h)
  end.

(** Running a handler against an upstream: the requests it issued, in
    order, and what it settled with. *)
Fixpoint run {A : Type} (net : request -> fetch_outcome) (p : prog A)
  : list request * result A :=
  match p with
  | Done r => ([], r)
  | Fetch req c => let (reqs, r) := run net (c (net req)) in (req :: reqs, r)
  end.

Definition API_URL : jsstring :=
  match LUCILLE_API_URL with
  | Some (c :: u) => c :: u
  | Some [] | None => lit "https://lucille.world/api/brain"
  end.

(** [res.ok] *)
Definition res_ok (res : response) : bool :=
  ((200 <=? res_status res) && (res_status res <=? 299))%Z.

(** What [apiGet] and [apiPost] do with the outcome of [fetch]. *)
Definition api_result (o : fetch_outcome) : result value :=
  match o with
  | Rejected e => Throw e
  | Resolved res =>
    if negb (res_ok res) then
      let body := match res_body res with Ok t => t | Throw _ => [] end in
      Throw (ThrownApiError (res_status res) body)
    else bind (res_body res) JSON_parse
  end.

Definition apiGet (path : jsstring) : prog value :=
  Fetch {| req_url := API_URL ++ path; req_method := GET;
           req_headers := []; req_body := None |}
    (fun o => Done (api_result o)).

(** The body is serialized before [fetch] is called: if that throws, no
    request is made. *)
Definition apiPost (path : jsstring) (body : value) : prog value :=
  match JSON_stringify body with
  | Throw e => Done (Throw e)
  | Ok text =>
    Fetch {| req_url := API_URL ++ path; req_method := POST;
             req_headers := [(lit "Content-Type", lit "application/json")];
             req_body := text |}
      (fun o => Done (api_result o))
  end.

Definition textContent (text : jsstring) : tool_result :=
  {| content := [ {| item_type := lit "text"; item_text := text |} ] |}.

(** Template literals: the parts are evaluated from left to right, the
    first one that throws ends the evaluation. *)
Definition txt (s : string) : result jsstring := Ok (lit s).
Definition txtq (s : string) : result jsstring := Ok (litq s).

Fixpoint template (parts : list (result jsstring)) : result jsstring :=
  match parts with
  | [] => Ok []
  | p :: rest => bind p (fun a => bind (template rest) (fun b => Ok (a ++ b)))
  end.

(** [${v.k}] *)
Definition field (v : value) (k : string) : result jsstring :=
  bind (get v (lit k)) to_string.

(** [${v.k?.k2}] *)
Definition field_opt (v : value) (k k2 : string) : result jsstring :=
  bind (get v (lit k)) (fun x => bind (get_opt x (lit k2)) to_string).

(** [s || fallback] on strings *)
Definition or_else (s fallback : jsstring) : jsstring :=
  match s with
  | [] => fallback
  | _ :: _ => s
  end.

Definition rate_limited_text (wait : jsstring) : jsstring :=
  lit "⏳ Rate limited — wait " ++ wait ++ lit " seconds and try again." ++ nl
  ++ lit "Limit: 3 plays/min per wallet, 60 reads/min.".

Definition errorContent (err : thrown) : result tool_result :=
  match err with
  | ThrownApiError status body =>
    if (status =? 429)%Z then
      try_catch
        (bind (JSON_parse body) (fun parsed =>
         bind (get parsed (lit "retry_after_seconds")) (fun r =>
         let wait := js_or r (VNum (Int 60)) in
         bind (template
                 [txt "⏳ Rate limited — wait "; to_string wait;
                  txt " seconds and try again."; Ok nl;
                  txt "Limit: 3 plays/min per wallet, 60 reads/min."])
           (fun t => Ok (textContent t)))))
        (fun _ =>
           Ok (textContent
                 (lit "⏳ Rate limited — wait 60 seconds and try again." ++ nl
                  ++ lit "Limit: 3 plays/min per wallet, 60 reads/min.")))
    else if (status =? 400)%Z then
      let hint := or_else body (lit "Check your parameters.") in
      Ok (textContent
            (lit "❌ Bad request: " ++ hint ++ nl
             ++ lit "Double-check wallet address format (0x... 42 chars) and message length (1-500 chars)."))
    else if (status =? 503)%Z then
      Ok (textContent (lit "🔧 Lucille is sleeping (maintenance). Try again in a few minutes."))
    else
      Ok (textContent
            (lit "❌ API error (" ++ decimal_of_Z status ++ lit "): "
             ++ or_else body (lit "Unknown error") ++ nl
             ++ lit "If this persists, the game may be temporarily unavailable."))
  | ThrownError message =>
    if includes message (lit "fetch failed") || includes message (lit "ECONNREFUSED") then
      Ok (textContent
            (lit "🔌 Cannot reach Lucille API. The server may be down or the URL may be wrong." ++ nl
             ++ lit "Default: https://lucille.world/api/brain"))
    else Ok (textContent (lit "❌ Error: " ++ message))
  | ThrownValue _ => Ok (textContent (lit "❌ An unexpected error occurred. Try again."))
  end.

(** The shape of the nine handlers that call upstream:
    [try { const data = await call; return textContent(format(data)) }
     catch (err) { return errorContent(err) }] *)
Definition gateway (call : prog value) (format : value -> result jsstring)
  : prog tool_result :=
  catch_async
    (await_then call (fun data => bind (format data) (fun t => Ok (textContent t))))
    errorContent.
Definition rules_text : jsstring :=
  join_with nl
    [lit "# Lucille Protocol — Game Rules";
     lit "";
     lit "## What is this?";
     lit "Lucille Protocol is an AI-powered game on Base (Ethereum L2). ";
     lit "You send a message trying to convince Lucille to go on a date. ";
     lit "An AI evaluates your message and gives you a score (0-100).";
     lit "If your score >= the threshold, you WIN the jackpot (ETH).";
     lit "";
     lit "## How Scoring Works";
     lit "- Your message is evaluated by an AI (Claude) based on creativity, charm, and personality match";
     lit "- The threshold starts high (~95%) and decreases over turns";
     lit "- Lucille has a personality that changes each round — read it and tailor your message!";
     lit "";
     lit "## How to Win";
     lit "1. Call lucille_personality to learn who Lucille is right now";
     lit "2. Call lucille_round_strategy to see the threshold and tips";
     lit "3. Call lucille_play with a thoughtful, creative message";
     lit "4. If score >= threshold → you WIN! ETH is sent to your wallet automatically";
     lit "";
     lit "## Cost (Sepolia Testnet)";
     lit "- Free to play! Use lucille_claim_eth to get test ETH for gas";
     lit "- Rate limit: 3 plays per minute";
     lit "";
     lit "## Important";
     lit "- Quality > quantity. One great message beats 100 generic ones";
     lit "- Read Lucille's likes, hates, and mood before playing";
     lit "- Never break her character — she's a real person, not a bot";
     lit "- On mainnet: each play costs gas. Calculate your ROI."].

(** *** Tool 1: rules *)
Definition lucille_rules : prog tool_result := Done (Ok (textContent rules_text)).

(** *** Tool 2: status *)
Definition status_format (data : value) : result jsstring :=
  let! round := get data (lit "round") in
  let! turn := get data (lit "turn") in
  let! jackpot := template [field data "jackpot"; txt " ETH"] in
  let! threshold := template [field data "threshold"; txt "%"] in
  let! phase := get data (lit "phase") in
  let! personality :=
    (let! p := get data (lit "personality") in get_opt p (lit "name")) in
  let! personality_emoji :=
    (let! p := get data (lit "personality") in get_opt p (lit "emoji")) in
  let! text :=
    JSON_stringify_indent2
      (VObj [(lit "round", round);
             (lit "turn", turn);
             (lit "jackpot", VStr jackpot);
             (lit "threshold", VStr threshold);
             (lit "phase", phase);
             (lit "personality", personality);
             (lit "personality_emoji", personality_emoji);
             (lit "network", VStr (lit "base-sepolia"))]) in
  Ok (string_or_undefined text).

Definition lucille_status : prog tool_result :=
  gateway (apiGet (lit "/api/game-state")) status_format.

(** *** Tool 3: personality *)
Definition personality_format (data : value) : result jsstring :=
  let! name := get data (lit "name") in
  let! emoji := get data (lit "emoji") in
  let! mood := get data (lit "mood") in
  let! description := get data (lit "description") in
  let! tip := get data (lit "tip") in
  let! likes := get data (lit "likes") in
  let! hates := get data (lit "hates") in
  let! visual_prompt := get data (lit "visual_prompt") in
  let! text :=
    JSON_stringify_indent2
      (VObj [(lit "name", name);
             (lit "emoji", emoji);
             (lit "mood", mood);
             (lit "description", description);
             (lit "tip", tip);
             (lit "likes", likes);
             (lit "hates", hates);
             (lit "visual_prompt", visual_prompt)]) in
  Ok (string_or_undefined text).

Definition lucille_personality : prog tool_result :=
  gateway (apiGet (lit "/api/personality")) personality_format.

(** *** Tool 4: play *)
Record play_args := {
  play_message : jsstring;
  play_player : jsstring;
  play_tx_hash : option jsstring;
  play_agent_name : option jsstring
}.

Definition optional_string (o : option jsstring) : value :=
  match o with
  | Some s => VStr s
  | None => VUndefined
  end.

(** [if (c) result += t] *)
Definition when (c : bool) (t : result jsstring) : result jsstring :=
  if c then t else Ok [].

Definition play_format (player : jsstring) (data : value) : result jsstring :=
  let! head :=
    template
      [txt "Score: "; field data "score"; txt "/"; field data "threshold";
       txt " (need "; field data "threshold"; txt "% to win)"; Ok nl;
       txt "Won: ";
       (let! won := get data (lit "won") in
        if truthy won then txt "🎉 YES!" else txt "❌ No"); Ok nl;
       txtq "Lucille says: `"; field data "response"; txtq "`"; Ok nl;
       txt "Personality: "; field data "personality"; txt " ";
       field data "personality_emoji"; Ok nl;
       txt "Round "; field data "round"; txt ", Turn "; field data "turn";
       txt " ("; field data "phase"; txt ")"; Ok nl;
       txt "Jackpot: "; field data "jackpot"; txt " ETH"; Ok nl] in
  let! won := get data (lit "won") in
  let! victory :=
    when (truthy won)
      (template
         [Ok nl; txt "🏆 VICTORY!"; Ok nl;
          txt "Prize: ";
          (let! prize := get data (lit "prize_eth") in
           let! jackpot := get data (lit "jackpot") in
           to_string (js_or prize jackpot));
          txt " ETH → sent to "; Ok player; Ok nl;
          (let! id := get data (lit "nft_token_id") in
           when (truthy id) (template [txt "NFT: Token #"; field data "nft_token_id"; Ok nl]));
          (let! url := get data (lit "nft_opensea_url") in
           when (truthy url) (template [txt "OpenSea: "; field data "nft_opensea_url"; Ok nl]));
          (let! m := get data (lit "message_to_agent") in
           to_string (js_or m (VStr [])))]) in
  Ok (head ++ victory).

Definition lucille_play (a : play_args) : prog tool_result :=
  gateway
    (apiPost (lit "/api/agent/play")
       (VObj [(lit "message", VStr (play_message a));
              (lit "player", VStr (play_player a));
              (lit "tx_hash", optional_string (play_tx_hash a));
              (lit "agent_name", optional_string (play_agent_name a))]))
    (play_format (play_player a)).

(** *** Tool 5: history *)
Record history_args := {
  history_limit : jsnumber;
  history_round : option jsnumber;
  history_player : option jsstring
}.

(** [if (round)] and [if (player)] on the optional arguments *)
Definition round_given (a : history_args) : bool :=
  match history_round a with
  | Some r => num_truthy r
  | None => false
  end.

Definition player_given (a : history_args) : bool :=
  match history_player a with
  | Some (_ :: _) => true
  | Some [] | None => false
  end.

Definition optional_number_text (o : option jsnumber) : jsstring :=
  match o with
  | Some n => num_toString n
  | None => lit "undefined"
  end.

Definition optional_string_text (o : option jsstring) : jsstring :=
  match o with
  | Some s => s
  | None => lit "undefined"
  end.

Definition history_query (a : history_args) : jsstring :=
  lit "/api/history?limit=" ++ num_toString (history_limit a)
  ++ (if round_given a then lit "&round=" ++ optional_number_text (history_round a) else [])
  ++ (if player_given a then lit "&player=" ++ optional_string_text (history_player a) else []).

(** [Array.isArray(data) ? data : data.attempts || []] *)
Definition history_attempts (data : value) : result value :=
  if isArray data then Ok data
  else let! attempts := get data (lit "attempts") in Ok (js_or attempts (VArr [])).

(** [`${a.personality || "Unknown"} (Round ${a.round || "?"})`] *)
Definition history_key (a : value) : result jsstring :=
  template
    [(let! p := get a (lit "personality") in to_string (js_or p (VStr (lit "Unknown"))));
     txt " (Round ";
     (let! r := get a (lit "round") in to_string (js_or r (VStr (lit "?"))));
     txt ")"].

(** The body of the first [forEach]: [grouped] is the object under
    construction, its own properties in creation order.  No key names an
    inherited property ([history_key_includes_round] below), so
    [grouped[key]] is a read of an own property. *)
Definition group_attempt (grouped : list (jsstring * list value)) (a : value)
  : result (list (jsstring * list value)) :=
  let! key := history_key a in
  let grouped1 :=
    match own_property grouped key with
    | Some _ => grouped
    | None => set_property grouped key []
    end in
  match own_property grouped1 key with
  | Some items => Ok (set_property grouped1 key (items ++ [a]))
  | None => Ok grouped1
  end.

Fixpoint group_attempts (attempts : list value) (grouped : list (jsstring * list value))
  : result (list (jsstring * list value)) :=
  match attempts with
  | [] => Ok grouped
  | a :: rest => let! grouped' := group_attempt grouped a in group_attempts rest grouped'
  end.

Definition history_header (a : history_args) (count : nat) : jsstring :=
  if round_given a then
    lit "=== Attempts for Round " ++ optional_number_text (history_round a)
    ++ lit " ===" ++ nl ++ nl
  else if player_given a then
    lit "=== Attempts by " ++ slice (optional_string_text (history_player a)) 0 (Some 10%Z)
    ++ lit "... ===" ++ nl ++ nl
  else
    lit "=== Recent " ++ num_toString (Int (Z.of_nat count)) ++ lit " Attempts ===" ++ nl ++ nl.

(** [a.won ? "🏆 WIN" : `Score: ${a.score}`] *)
Definition history_badge (a : value) : result jsstring :=
  let! won := get a (lit "won") in
  if truthy won then txt "🏆 WIN" else template [txt "Score: "; field a "score"].

(** [a.source === "agent" ? " 🤖" : ""] *)
Definition history_source (a : value) : result jsstring :=
  let! source := get a (lit "source") in
  if strict_equals_string source (lit "agent") then txt " 🤖" else Ok [].

(** [a.player ? `${a.player.slice(0, 6)}...${a.player.slice(-4)}` : "???"] *)
Definition history_addr (a : value) : result jsstring :=
  let! player := get a (lit "player") in
  if truthy player then
    template
      [(let! head := call_slice (lit "a.player.slice") player 0 (Some 6%Z) in to_string head);
       txt "...";
       (let! tail := call_slice (lit "a.player.slice") player (-4) None in to_string tail)]
  else txt "???".

(** [`${(a.k || "").slice(0, 200)}`] *)
Definition history_excerpt (a : value) (k : string) : result jsstring :=
  let! m := get a (lit k) in
  let! cut :=
    call_slice (lit "(a." ++ lit k ++ litq " || ``).slice") (js_or m (VStr [])) 0
      (Some 200%Z) in
  to_string cut.

(** The body of the inner [forEach], for the item at index [i] of its group. *)
Definition history_item (i : nat) (a : value) : result jsstring :=
  let! badge := history_badge a in
  let! source := history_source a in
  let! addr := history_addr a in
  template
    [Ok (num_toString (Int (Z.of_nat i + 1))); txt ". ["; Ok badge; txt "] ";
     Ok addr; Ok source; Ok nl;
     txtq "   Message: `"; history_excerpt a "message"; txtq "`"; Ok nl;
     txtq "   Lucille: `"; history_excerpt a "response"; txtq "`"; Ok nl; Ok nl].

Fixpoint history_items (i : nat) (items : list value) : result jsstring :=
  match items with
  | [] => Ok []
  | a :: rest =>
    let! t := history_item i a in
    let! ts := history_items (S i) rest in
    Ok (t ++ ts)
  end.

Fixpoint history_groups (groups : list (jsstring * list value)) : result jsstring :=
  match groups with
  | [] => Ok []
  | (group, items) :: rest =>
    let! body := history_items 0 items in
    let! more := history_groups rest in
    Ok (lit "--- " ++ group ++ lit " ---" ++ nl ++ body ++ more)
  end.

Definition history_format (a : history_args) (data : value) : result jsstring :=
  let! attempts := history_attempts data in
  let! len := get attempts (lit "length") in
  if strict_equals_zero len then txt "No attempts found for the given filters."
  else
    let! items := array_items (lit "attempts.forEach") (lit "forEach") attempts in
    let! grouped := group_attempts items [] in
    let! body := history_groups (entries grouped) in
    Ok (trim (history_header a (length items) ++ body)).

Definition lucille_history (a : history_args) : prog tool_result :=
  gateway (apiGet (history_query a)) (history_format a).

(** *** Tool 6: leaderboard *)

(** [Array.isArray(data) ? data : data.history || []] *)
Definition leaderboard_history (data : value) : result value :=
  if isArray data then Ok data
  else let! h := get data (lit "history") in Ok (js_or h (VArr [])).

(** [h.victory.winner?.slice(0, 10)], printed *)
Definition leaderboard_winner (victory : value) : result jsstring :=
  let! winner := get victory (lit "winner") in
  match winner with
  | VUndefined | VNull => txt "undefined"
  | _ =>
    let! cut := call_slice (lit "h.victory.winner?.slice") winner 0 (Some 10%Z) in
    to_string cut
  end.

Definition leaderboard_line (i : nat) (h : value) : result jsstring :=
  let! victory := get h (lit "victory") in
  let! winner :=
    if truthy victory then
      template
        [txt "🏆 Won by "; leaderboard_winner victory;
         txt " (score: "; field victory "score";
         txt ", jackpot: "; field victory "jackpot"; txt " ETH)"]
    else txt "No winner yet" in
  template
    [txt "Round ";
     (let! r := get h (lit "round") in to_string (js_or r (VNum (Int (Z.of_nat i + 1)))));
     txtq ": `"; field h "name"; txtq "` ";
     (let! e := get h (lit "emoji") in to_string (js_or e (VStr [])));
     txt " — "; Ok winner].

Fixpoint leaderboard_lines (i : nat) (rounds : list value) : result (list jsstring) :=
  match rounds with
  | [] => Ok []
  | h :: rest =>
    let! l := leaderboard_line i h in
    let! ls := leaderboard_lines (S i) rest in
    Ok (l :: ls)
  end.

Definition leaderboard_format (data : value) : result jsstring :=
  let! history := leaderboard_history data in
  let! rounds := array_items (lit "history.map") (lit "map") history in
  let! lines := leaderboard_lines 0 rounds in
  Ok (lit "Past rounds:" ++ nl ++ join_with nl lines).

Definition lucille_leaderboard : prog tool_result :=
  gateway (apiGet (lit "/api/personality-history")) leaderboard_format.

(** *** Tool 7: my stats *)
Definition stats_nft_line (nft : value) : result jsstring :=
  template
    [txt "  - Round "; field nft "round"; txt ": Score "; field nft "score";
     txt " ("; field nft "personality"; txt ")";
     (let! url := get nft (lit "opensea_url") in
      when (truthy url) (template [txt " — "; field nft "opensea_url"]));
     Ok nl].

Definition stats_attempt_line (a : value) : result jsstring :=
  template
    [txt "  - ";
     (let! won := get a (lit "won") in if truthy won then txt "🏆" else txt "❌");
     txt " Score: "; field a "score"; txtq " — `"; field a "message_preview";
     txtq "...` ("; field a "personality"; txt ")"; Ok nl].

Fixpoint each (f : value -> result jsstring) (items : list value) : result jsstring :=
  match items with
  | [] => Ok []
  | x :: rest => let! t := f x in let! ts := each f rest in Ok (t ++ ts)
  end.

(** [if (data.k?.length > 0) { result += title; data.k.forEach(line) }] *)
Definition stats_section (data : value) (k title callee : string)
  (line : value -> result jsstring) : result jsstring :=
  let! list := get data (lit k) in
  let! len := get_opt list (lit "length") in
  let! some := greater_than_zero len in
  when some
    (let! items := array_items (lit callee) (lit "forEach") list in
     let! lines := each line items in
     Ok (nl ++ lit title ++ nl ++ lines)).

Definition my_stats_format (player : jsstring) (data : value) : result jsstring :=
  template
    [txt "Player: "; Ok player; Ok nl;
     txt "Total attempts: "; field data "total_attempts"; Ok nl;
     txt "Total wins: "; field data "total_wins"; Ok nl;
     txt "Best score: "; field data "best_score"; Ok nl;
     txt "Average score: "; field data "average_score"; Ok nl;
     stats_section data "nfts" "NFTs earned:" "data.nfts.forEach" stats_nft_line;
     stats_section data "recent_attempts" "Recent attempts:"
       "data.recent_attempts.forEach" stats_attempt_line].

Definition lucille_my_stats (player : jsstring) : prog tool_result :=
  gateway (apiGet (lit "/api/agent/stats?player=" ++ player)) (my_stats_format player).

(** *** Tool 8: round strategy *)
Definition strategy_advice (data : value) : result jsstring :=
  let! advice := get data (lit "advice") in
  let! len := get_opt advice (lit "length") in
  when (truthy len)
    (let! tips := array_items (lit "data.advice.forEach") (lit "forEach") advice in
     let! lines := each (fun tip => template [txt "  💡 "; to_string tip; Ok nl]) tips in
     Ok (nl ++ lit "Advice:" ++ nl ++ lines)).

Definition round_strategy_format (data : value) : result jsstring :=
  template
    [txt "=== Strategy for Round "; field data "round"; txt " ==="; Ok nl; Ok nl;
     txt "Turn: "; field data "turn"; txt " | Phase: "; field data "phase";
     txt " | Threshold: "; field data "threshold"; txt "%"; Ok nl;
     txt "Jackpot: "; field data "jackpot"; txt " ETH"; Ok nl; Ok nl;
     txtq "Personality: `"; field_opt data "personality" "name"; txtq "` (";
     field_opt data "personality" "mood"; txt ")"; Ok nl;
     strategy_advice data;
     Ok nl; txt "Cost: "; field_opt data "cost_info" "cost_per_play"; txt " (";
     field_opt data "cost_info" "network"; txt ")"; Ok nl].

Definition lucille_round_strategy : prog tool_result :=
  gateway (apiGet (lit "/api/agent/strategy")) round_strategy_format.

(** *** Tool 9: verify wallet *)
Definition invalid_wallet_text (address : jsstring) : jsstring :=
  litq "❌ Invalid wallet address: `" ++ address ++ litq "`" ++ nl
  ++ lit "Must be a 42-character hex address starting with 0x (e.g. 0x1234...abcd)".

Definition valid_wallet_text (address : jsstring) : jsstring :=
  lit "✅ Valid Base wallet address: " ++ address ++ nl
  ++ lit "You can use this address to play. If you win, ETH and NFTs will be sent here." ++ nl
  ++ lit "Network: Base Sepolia (testnet)" ++ nl
  ++ lit "Need testnet ETH? Use lucille_claim_eth to get some.".

Definition lucille_verify_wallet (address : jsstring) : prog tool_result :=
  let isValid := regex_test_anchored wallet_regex address in
  if negb isValid then Done (Ok (textContent (invalid_wallet_text address)))
  else Done (Ok (textContent (valid_wallet_text address))).

(** *** Tool 10: claim ETH *)
Definition claim_eth_format (address : jsstring) (data : value) : result jsstring :=
  let! status := get data (lit "status") in
  if strict_equals_string status (lit "has_balance") then
    template
      [txt "✅ You already have enough ETH ("; field data "balance";
       txt " ETH). No drip needed."; Ok nl;
       txt "You're ready to play — use lucille_contract_info to get the contract details."]
  else if strict_equals_string status (lit "cooldown") then
    template
      [txt "⏳ Cooldown active. "; field data "message"; txt ". You can claim again later."]
  else if strict_equals_string status (lit "claimed") then
    template
      [txt "✅ Sent "; field data "amount"; txt " ETH to "; Ok address; Ok nl;
       txt "TX: "; field data "txHash"; Ok nl;
       txt "You're ready to play! Use lucille_contract_info to get contract details, then sign submitAttempt() on-chain."]
  else
    let! json := JSON_stringify data in
    Ok (lit "Result: " ++ string_or_undefined json).

Definition lucille_claim_eth (address : jsstring) : prog tool_result :=
  gateway (apiPost (lit "/api/drip") (VObj [(lit "address", VStr address)]))
    (claim_eth_format address).

(** *** Tool 11: contract info *)
Definition abi_param (name type : string) : value :=
  VObj [(lit "name", VStr (lit name)); (lit "type", VStr (lit type))].

Definition abi_function (name mutability : string) (inputs outputs : list value) : value :=
  VObj [(lit "name", VStr (lit name));
        (lit "type", VStr (lit "function"));
        (lit "stateMutability", VStr (lit mutability));
        (lit "inputs", VArr inputs);
        (lit "outputs", VArr outputs)].

Definition contract_abi : value :=
  VArr
    [abi_function "submitAttempt" "payable"
       [abi_param "_messageHash" "bytes32"] [abi_param "turn" "uint256"];
     abi_function "getRoundState" "view" []
       [abi_param "_roundId" "uint256"; abi_param "_currentTurn" "uint256";
        abi_param "_pendingAttempts" "uint256"; abi_param "_jackpot" "uint256";
        abi_param "_currentCost" "uint256"; abi_param "_active" "bool"];
     abi_function "getCurrentCost" "view" [] [abi_param "" "uint256"]].

Definition contractAddress : jsstring := lit "0xbBaBb6ced6A179A79D34Dbc4918028a9CaFbD8F8".
Definition chainId : value := VNum (Int 84532).
Definition rpcUrl : jsstring := lit "https://sepolia.base.org".

(** [data.baseCost || "1"] and [data.currentCost || baseCost] *)
Definition contract_baseCost (data : value) : result value :=
  let! b := get data (lit "baseCost") in Ok (js_or b (VStr (lit "1"))).

Definition contract_currentCost (data : value) : result value :=
  let! baseCost := contract_baseCost data in
  let! c := get data (lit "currentCost") in Ok (js_or c baseCost).

(** The statements of the handler up to the cost line, which interpolates
    [currentCost]; the rest of the text is constant. *)
Definition contract_info_head (currentCost : value) : result jsstring :=
  template
    [txt "=== Lucille Protocol — Contract Info ==="; Ok nl; Ok nl;
     txt "Contract: "; Ok contractAddress; Ok nl;
     txt "Chain: Base Sepolia ("; to_string chainId; txt ")"; Ok nl;
     txt "RPC: "; Ok rpcUrl; Ok nl;
     txt "Current cost per attempt: "; to_string currentCost; txt " wei"; Ok nl; Ok nl].

Definition contract_info_guide_of (abi : jsstring) : jsstring :=
  concat
    [lit "=== How to Play On-Chain ==="; nl; nl;
     litq "1. Hash your message: keccak256(toBytes(`your message`))"; nl;
     lit "2. Call submitAttempt(messageHash) with value = currentCost"; nl;
     lit "3. After tx confirms, call lucille_play with your message + tx_hash"; nl; nl;
     lit "=== ABI (only what you need) ==="; nl; nl;
     lit "submitAttempt(bytes32 _messageHash) payable → returns uint256 turn"; nl;
     lit "getRoundState() view → returns (uint256 roundId, uint256 currentTurn, uint256 pendingAttempts, uint256 jackpot, uint256 currentCost, bool active)"; nl;
     lit "getCurrentCost() view → returns uint256"; nl;
     lit "getPlayerStats(address) view → returns (uint256 attemptCount, uint256 wins)"; nl; nl;
     lit "=== ABI JSON (for ethers.js / viem) ==="; nl; nl;
     abi; nl; nl;
     lit "=== Example (ethers.js v6) ==="; nl; nl;
     litq "import { ethers } from `ethers`;"; nl;
     litq "const provider = new ethers.JsonRpcProvider(`"; rpcUrl; litq "`);"; nl;
     lit "const wallet = new ethers.Wallet(PRIVATE_KEY, provider);"; nl;
     litq "const contract = new ethers.Contract(`"; contractAddress; litq "`, ABI, wallet);"; nl;
     litq "const messageHash = ethers.keccak256(ethers.toUtf8Bytes(`your message`));"; nl;
     lit "const cost = await contract.getCurrentCost();"; nl;
     lit "const tx = await contract.submitAttempt(messageHash, { value: cost });"; nl;
     lit "await tx.wait();"; nl; nl;
     lit "=== Example (viem) ==="; nl; nl;
     litq "import { keccak256, toBytes } from `viem`;"; nl;
     litq "const messageHash = keccak256(toBytes(`your message`));"; nl;
     lit "// Use your wallet client to call submitAttempt(messageHash) with value: currentCost"; nl].

Definition contract_info_format (data : value) : result jsstring :=
  let! currentCost := contract_currentCost data in
  let! head := contract_info_head currentCost in
  let! abi := JSON_stringify contract_abi in
  Ok (head ++ contract_info_guide_of (string_or_undefined abi)).

Definition lucille_contract_info : prog tool_result :=
  gateway (apiGet (lit "/api/game-state")) contract_info_format.

(** The nine tools that call upstream, with their arguments. *)
Inductive http_tool :=
| Status
| Personality
| Play (a : play_args)
| History (a : history_args)
| Leaderboard
| MyStats (player : jsstring)
| RoundStrategy
| ClaimEth (address : jsstring)
| ContractInfo.

Definition handler (t : http_tool) : prog tool_result :=
  match t with
  | Status => lucille_status
  | Personality => lucille_personality
  | Play a => lucille_play a
  | History a => lucille_history a
  | Leaderboard => lucille_leaderboard
  | MyStats player => lucille_my_stats player
  | RoundStrategy => lucille_round_strategy
  | ClaimEth address => lucille_claim_eth address
  | ContractInfo => lucille_contract_info
  end.

(** ** The specification's own notions

    Written from the specification's words, to be compared with the code. *)

(** A hexadecimal digit, either case. *)
Definition is_hex_digit (c : char16) : bool :=
  is_digit c || ((97 <=? c) && (c <=? 102))%N || ((65 <=? c) && (c <=? 70))%N.

(** The address rule: the two characters [0x], then exactly forty
    hexadecimal digits, and nothing else. *)
Definition is_wallet_address (s : jsstring) : bool :=
  match s with
  | c0 :: c1 :: digits =>
    N.eqb c0 48 && N.eqb c1 120 && Nat.eqb (length digits) 40
    && forallb is_hex_digit digits
  | _ => false
  end.

(** The four messages of [claim_eth]. *)
Definition already_funded_text (balance : jsstring) : jsstring :=
  lit "✅ You already have enough ETH (" ++ balance ++ lit " ETH). No drip needed." ++ nl
  ++ lit "You're ready to play — use lucille_contract_info to get the contract details.".

Definition cooldown_text (message : jsstring) : jsstring :=
  lit "⏳ Cooldown active. " ++ message ++ lit ". You can claim again later.".

Definition claimed_text (amount address txHash : jsstring) : jsstring :=
  lit "✅ Sent " ++ amount ++ lit " ETH to " ++ address ++ nl
  ++ lit "TX: " ++ txHash ++ nl
  ++ lit "You're ready to play! Use lucille_contract_info to get contract details, then sign submitAttempt() on-chain.".

Definition echo_text (json : jsstring) : jsstring := lit "Result: " ++ json.

(** Grouping: the distinct keys in the order of their first occurrence,
    each with the attempts that have it, in their original order. *)
Definition seen (k : jsstring) (ks : list jsstring) : bool := existsb (str_eqb k) ks.

Definition first_seen (ks : list jsstring) : list jsstring :=
  fold_left (fun acc k => if seen k acc then acc else acc ++ [k]) ks [].

Definition members (keyed : list (jsstring * value)) (k : jsstring) : list value :=
  map snd (filter (fun ka => str_eqb (fst ka) k) keyed).

Definition grouped_by_key (keyed : list (jsstring * value))
  : list (jsstring * list value) :=
  map (fun k => (k, members keyed k)) (first_seen (map fst keyed)).

(** An entry of the feed as the specification lays it out: the numbered
    line with the badge, the address and the mark of the source, then the
    message and the response, each between quotes on a line of its own. *)
Definition entry_lines (index badge addr source message response : jsstring) : jsstring :=
  index ++ lit ". [" ++ badge ++ lit "] " ++ addr ++ source ++ nl
  ++ lit "   Message: " ++ dquote ++ message ++ dquote ++ nl
  ++ lit "   Lucille: " ++ dquote ++ response ++ dquote.

(** An attempt the feed can show: its key and its entry can be computed.
    A round the list can show: its line can be computed.  The position
    plays no part in either. *)
Definition attempt_readable (a : value) : bool :=
  match history_key a, history_item 0 a with
  | Ok _, Ok _ => true
  | _, _ => false
  end.

Definition round_readable (h : value) : bool :=
  match leaderboard_line 0 h with
  | Ok _ => true
  | Throw _ => false
  end.

(** A line of the list of rounds for a round that was won. *)
Definition won_round_line (round name emoji winner score jackpot : jsstring) : jsstring :=
  lit "Round " ++ round ++ lit ": " ++ dquote ++ name ++ dquote ++ lit " " ++ emoji
  ++ lit " — 🏆 Won by " ++ winner
  ++ lit " (score: " ++ score ++ lit ", jackpot: " ++ jackpot ++ lit " ETH)".

(** The attempts of the specification's grouping example. *)
Definition attempt_of (personality : string) (round : Z) : value :=
  VObj [(lit "personality", VStr (lit personality)); (lit "round", VNum (Int round))].

Definition example_attempts : list value :=
  [attempt_of "A" 1; attempt_of "B" 2; attempt_of "A" 1].

Definition recent_feed : history_args :=
  {| history_limit := Int 20; history_round := None; history_player := None |}.

(** An upstream that answers every request with the same response. *)
Definition upstream (status : Z) (body : jsstring) : request -> fetch_outcome :=
  fun _ => Resolved {| res_status := status; res_body := Ok body |}.

(** The text a handler returned (empty when it threw). *)
Definition result_text (r : result tool_result) : jsstring :=
  match r with
  | Ok t => concat (map item_text (content t))
  | Throw _ => []
  end.

(** ** Notions used by the further properties *)

(** The guide of [contract_info], with the ABI as it is printed. *)
Definition contract_info_guide : jsstring :=
  contract_info_guide_of (string_or_undefined (serialize [] [] contract_abi)).

(** The formatter of each handler that calls upstream. *)
Definition handler_format (t : http_tool) : value -> result jsstring :=
  match t with
  | Status => status_format
  | Personality => personality_format
  | Play a => play_format (play_player a)
  | History a => history_format a
  | Leaderboard => leaderboard_format
  | MyStats player => my_stats_format player
  | RoundStrategy => round_strategy_format
  | ClaimEth address => claim_eth_format address
  | ContractInfo => contract_info_format
  end.

(** The values [JSON.stringify] prints on one line, with the text it gives
    them: [null], the booleans, integers and strings. *)
Definition scalar (v : value) : bool :=
  match v with
  | VNull | VBool _ | VStr _ => true
  | VNum (Int z) => (length (decimal_of_N (Z.abs_N z)) <=? 15)%nat
  | _ => false
  end.

Definition scalar_text (v : value) : jsstring :=
  match v with
  | VNull => lit "null"
  | VBool true => lit "true"
  | VBool false => lit "false"
  | VNum (Int z) => decimal_of_Z z
  | VStr s => quote s
  | _ => []
  end.

(** An object of scalars as [JSON.stringify] lays it out: [ws1] before
    each member, [ws2] after the colon, [ws3] before the closing brace (all
    empty in the compact form). *)
Definition scalar_member (colon : jsstring) (kv : jsstring * value) : jsstring :=
  quote (fst kv) ++ colon ++ scalar_text (snd kv).

Definition scalar_object (ws1 ws2 ws3 : jsstring) (kvs : list (jsstring * value)) : jsstring :=
  123%N :: ws1 ++ join_with (44%N :: ws1) (map (scalar_member (58%N :: ws2)) kvs)
    ++ ws3 ++ [125%N].

(** The object that assigning the members one after the other builds. *)
Definition members_from (kvs : list (jsstring * value)) (acc : list (jsstring * value))
  : list (jsstring * value) :=
  fold_left (fun g kv => set_property g (fst kv) (snd kv)) kvs acc.

(** What may follow a numeric literal: nothing that would extend it. *)
Definition delimited (rest : jsstring) : bool :=
  match rest with
  | [] => true
  | c :: _ => negb (is_digit c || N.eqb c 46 || N.eqb c 101 || N.eqb c 69)
  end.

(** The letters [A] to [F] in lower case; any other character as it is. *)
Definition lower_hex (c : char16) : char16 :=
  if ((65 <=? c) && (c <=? 70))%N then (c + 32)%N else c.

(** Right-nested text, without empty pieces. *)
Ltac flatten_text :=
  repeat first [rewrite <- app_assoc | rewrite app_nil_r | progress cbn [app]].

(** ** Properties *)

(** *** Strings *)

Lemma str_eqb_refl (s : jsstring) : str_eqb s s = true.
Proof.
  induction s as [|c s IH]; simpl; [reflexivity|].
  now rewrite N.eqb_refl, IH.
Qed.

Lemma str_eqb_eq (a b : jsstring) : str_eqb a b = true <-> a = b.
Proof.
  split.
  - revert b; induction a as [|x a IH]; intros [|y b]; simpl; try discriminate; auto.
    intros H; apply andb_true_iff in H as [Hx Hr].
    apply N.eqb_eq in Hx; subst; f_equal; auto.
  - intros ->; apply str_eqb_refl.
Qed.

Lemma str_eqb_neq (a b : jsstring) : str_eqb a b = false <-> a <> b.
Proof.
  split.
  - intros H Heq; apply str_eqb_eq in Heq; congruence.
  - intros H; destruct (str_eqb a b) eqn:Heq; [|reflexivity].
    apply str_eqb_eq in Heq; contradiction.
Qed.

Lemma starts_with_app (p s : jsstring) : starts_with p (p ++ s) = true.
Proof.
  induction p as [|c p IH]; simpl; [reflexivity|].
  now rewrite N.eqb_refl, IH.
Qed.

Lemma includes_unfold (s sub : jsstring) :
  includes s sub
  = starts_with sub s || match s with [] => false | _ :: s' => includes s' sub end.
Proof. destruct s; reflexivity. Qed.

Lemma includes_app (pre sub post : jsstring) : includes (pre ++ sub ++ post) sub = true.
Proof.
  induction pre as [|c pre IH].
  - rewrite includes_unfold; simpl. now rewrite starts_with_app.
  - simpl. rewrite IH; apply orb_true_r.
Qed.

Lemma Ok_inj (A : Type) (x y : A) : Ok x = Ok y -> x = y.
Proof. congruence. Qed.

(** *** Fuel of the parser *)

Lemma skip_ws_length (s : jsstring) : length (skip_ws s) <= length s.
Proof.
  induction s as [|c s IH]; simpl; [lia|].
  destruct (is_json_ws c); simpl; lia.
Qed.

Lemma take_digits_length (s : jsstring) :
  length s = length (fst (take_digits s)) + length (snd (take_digits s)).
Proof.
  induction s as [|c s IH]; simpl; [reflexivity|].
  destruct (is_digit c); [|reflexivity].
  destruct (take_digits s) as [ds rest]; simpl in *. lia.
Qed.

Lemma parse_string_chars_shorter (s acc str r : jsstring) :
  parse_string_chars s acc = Some (str, r) -> length r < length s.
Proof.
  remember (length s) as n eqn:Hn. revert s acc Hn.
  induction n as [n IH] using lt_wf_ind. intros s acc Hn.
  destruct s as [|c s]; simpl; [discriminate|].
  destruct (N.eqb c 34).
  { intros H; injection H as _ <-. simpl in Hn. lia. }
  destruct (N.eqb c 92).
  { destruct s as [|e s]; [discriminate|].
    destruct (N.eqb e 117).
    - destruct s as [|h1 [|h2 [|h3 [|h4 s]]]]; try discriminate.
      destruct (hex4 h1 h2 h3 h4); [|discriminate].
      intros H. apply (IH (length s)) in H; simpl in *; lia.
    - destruct (escape_char e); [|discriminate].
      intros H. apply (IH (length s)) in H; simpl in *; lia. }
  destruct (c <? 32)%N; [discriminate|].
  intros H. apply (IH (length s)) in H; simpl in *; lia.
Qed.

Lemma parse_number_shorter (s : jsstring) (n : numeral) (r : jsstring) :
  parse_number s = Some (n, r) -> length r < length s.
Proof.
  unfold parse_number.
  set (signed := match s with
                 | c :: r0 => if N.eqb c 45 then (true, r0) else (false, s)
                 | [] => (false, s)
                 end).
  assert (Hs1 : length (snd signed) <= length s).
  { subst signed. destruct s as [|c r0]; simpl; [lia|].
    destruct (N.eqb c 45); simpl; lia. }
  destruct signed as [neg s1]; simpl in Hs1.
  pose proof (take_digits_length s1) as Hint.
  destruct (take_digits s1) as [int s2]; simpl in Hint.
  destruct int as [|d more]; [discriminate|]. simpl in Hint.
  destruct (N.eqb d 0 && negb match more with [] => true | _ :: _ => false end);
    [discriminate|].
  set (frac := match s2 with
               | c :: r0 =>
                 if N.eqb c 46 then
                   let (fd, r') := take_digits r0 in
                   match fd with [] => None | _ :: _ => Some (fd, r') end
                 else Some ([], s2)
               | [] => Some ([], s2)
               end).
  assert (Hs3 : forall fd s3, frac = Some (fd, s3) -> length s3 <= length s2).
  { subst frac. intros fd s3. destruct s2 as [|c r0]; [intros H; injection H as _ <-; lia|].
    destruct (N.eqb c 46).
    - pose proof (take_digits_length r0) as Hf.
      destruct (take_digits r0) as [fd' r']; simpl in Hf.
      destruct fd'; [discriminate|]. intros H; injection H as _ <-. simpl in *. lia.
    - intros H; injection H as _ <-. lia. }
  destruct frac as [[fd s3]|]; [|discriminate].
  specialize (Hs3 fd s3 eq_refl).
  set (expo := match s3 with
               | c :: r0 => _
               | [] => Some (0%Z, s3)
               end).
  assert (Hs4 : forall ex s4, expo = Some (ex, s4) -> length s4 <= length s3).
  { subst expo. intros ex s4. destruct s3 as [|c r0]; [intros H; injection H as _ <-; lia|].
    destruct (N.eqb c 101 || N.eqb c 69).
    - set (esign := match r0 with
                    | sg :: r' => _
                    | [] => (false, r0)
                    end).
      assert (Hr1 : length (snd esign) <= length r0).
      { subst esign. destruct r0 as [|sg r']; simpl; [lia|].
        destruct (N.eqb sg 45); simpl; [lia|]. destruct (N.eqb sg 43); simpl; lia. }
      destruct esign as [eneg r1]; simpl in Hr1.
      pose proof (take_digits_length r1) as He.
      destruct (take_digits r1) as [ed r2]; simpl in He.
      destruct ed; [discriminate|]. intros H; injection H as _ <-. simpl in *. lia.
    - intros H; injection H as _ <-. lia. }
  destruct expo as [[ex s4]|]; [|discriminate].
  specialize (Hs4 ex s4 eq_refl).
  intros H; injection H as _ <-. lia.
Qed.


Lemma skipn_shorter (A : Type) (k : nat) (l : list A) :
  0 < k -> l <> [] -> length (skipn k l) < length l.
Proof.
  intros Hk Hl. rewrite length_skipn. destruct l; [contradiction|]. cbn [length]. lia.
Qed.

(** Whatever the fuel, a parse consumes at least one character. *)
Lemma parse_shorter (f : nat) :
  (forall s v r, parse_value f s = Some (v, r) -> length r < length s)
  /\ (forall s acc v r, parse_elements f s acc = Some (v, r) -> length r < length s)
  /\ (forall s acc v r, parse_members f s acc = Some (v, r) -> length r < length s).
Proof.
  induction f as [|f (IHv & IHe & IHm)]; [repeat split; intros; discriminate|].
  split; [|split].
  - intros s v r. cbn [parse_value parse_elements parse_members].
    pose proof (skip_ws_length s) as Hws.
    destruct (skip_ws s) as [|c r0]; [discriminate|]. simpl in Hws.
    destruct (N.eqb c 34).
    { destruct (parse_string_chars r0 []) as [[str r']|] eqn:Hstr; [|discriminate].
      intros H; injection H as _ <-. apply parse_string_chars_shorter in Hstr. lia. }
    destruct (N.eqb c 91).
    { pose proof (skip_ws_length r0) as Hws0.
      destruct (skip_ws r0) as [|c' r']; [discriminate|]. simpl in Hws0.
      destruct (N.eqb c' 93).
      - intros H; injection H as _ <-. lia.
      - intros H. apply IHe in H. lia. }
    destruct (N.eqb c 123).
    { pose proof (skip_ws_length r0) as Hws0.
      destruct (skip_ws r0) as [|c' r']; [discriminate|]. simpl in Hws0.
      destruct (N.eqb c' 125).
      - intros H; injection H as _ <-. lia.
      - intros H. apply IHm in H. lia. }
    assert (Hskip : forall k, 0 < k -> length (skipn k (c :: r0)) < length s).
    { intros k Hk. pose proof (@skipn_shorter _ k (c :: r0) Hk) as H.
      specialize (H ltac:(discriminate)). cbn [length] in *. lia. }
    destruct (starts_with (lit "null") (c :: r0)).
    { intros H; injection H as _ <-. exact (Hskip 4 ltac:(lia)). }
    destruct (starts_with (lit "true") (c :: r0)).
    { intros H; injection H as _ <-. exact (Hskip 4 ltac:(lia)). }
    destruct (starts_with (lit "false") (c :: r0)).
    { intros H; injection H as _ <-. exact (Hskip 5 ltac:(lia)). }
    destruct (parse_number (c :: r0)) as [[n r']|] eqn:Hn; [|discriminate].
    intros H; injection H as _ <-. apply parse_number_shorter in Hn. cbn [length] in *. lia.
  - intros s acc v r. cbn [parse_value parse_elements parse_members].
    destruct (parse_value f s) as [[v0 r0]|] eqn:Hv; [|discriminate].
    apply IHv in Hv. pose proof (skip_ws_length r0) as Hws.
    destruct (skip_ws r0) as [|c r']; [discriminate|]. simpl in Hws.
    destruct (N.eqb c 44); [intros H; apply IHe in H; lia|].
    destruct (N.eqb c 93); [|discriminate].
    intros H; injection H as _ <-. lia.
  - intros s acc v r. cbn [parse_value parse_elements parse_members].
    pose proof (skip_ws_length s) as Hws.
    destruct (skip_ws s) as [|q r0]; [discriminate|]. simpl in Hws.
    destruct (N.eqb q 34); [|discriminate].
    destruct (parse_string_chars r0 []) as [[k r1]|] eqn:Hk; [|discriminate].
    apply parse_string_chars_shorter in Hk.
    pose proof (skip_ws_length r1) as Hws1.
    destruct (skip_ws r1) as [|colon r2]; [discriminate|]. simpl in Hws1.
    destruct (N.eqb colon 58); [|discriminate].
    destruct (parse_value f r2) as [[v0 r3]|] eqn:Hv; [|discriminate].
    apply IHv in Hv. pose proof (skip_ws_length r3) as Hws3.
    destruct (skip_ws r3) as [|c r']; [discriminate|]. simpl in Hws3.
    destruct (N.eqb c 44); [intros H; apply IHm in H; lia|].
    destruct (N.eqb c 125); [|discriminate].
    intros H; injection H as _ <-. lia.
Qed.

(** With two steps of fuel per character and two more, more fuel changes
    nothing. *)
Lemma parse_stable (n : nat) :
  (forall s f f', length s = n ->
     2 * n + 2 <= f -> 2 * n + 2 <= f' -> parse_value f s = parse_value f' s)
  /\ (forall s acc f f', length s = n ->
        2 * n + 3 <= f -> 2 * n + 3 <= f' ->
        parse_elements f s acc = parse_elements f' s acc)
  /\ (forall s acc f f', length s = n ->
        2 * n + 3 <= f -> 2 * n + 3 <= f' ->
        parse_members f s acc = parse_members f' s acc).
Proof.
  induction n as [n IH] using lt_wf_ind.
  assert (IHv : forall s f f', length s < n ->
            2 * length s + 2 <= f -> 2 * length s + 2 <= f' ->
            parse_value f s = parse_value f' s).
  { intros s f f' Hlt. now apply (IH (length s) Hlt). }
  assert (IHe : forall s acc f f', length s < n ->
            2 * length s + 3 <= f -> 2 * length s + 3 <= f' ->
            parse_elements f s acc = parse_elements f' s acc).
  { intros s acc f f' Hlt. now apply (IH (length s) Hlt). }
  assert (IHm : forall s acc f f', length s < n ->
            2 * length s + 3 <= f -> 2 * length s + 3 <= f' ->
            parse_members f s acc = parse_members f' s acc).
  { intros s acc f f' Hlt. now apply (IH (length s) Hlt). }
  clear IH.
  assert (Hv : forall s f f', length s = n ->
            2 * n + 2 <= f -> 2 * n + 2 <= f' -> parse_value f s = parse_value f' s).
  { intros s f f' Hn Hf Hf'.
    destruct f as [|f]; [lia|]. destruct f' as [|f']; [lia|]. cbn [parse_value parse_elements parse_members].
    pose proof (skip_ws_length s) as Hws.
    destruct (skip_ws s) as [|c r0]; [reflexivity|]. simpl in Hws.
    destruct (N.eqb c 34); [reflexivity|].
    destruct (N.eqb c 91).
    { pose proof (skip_ws_length r0) as Hws0.
      destruct (skip_ws r0) as [|c' r']; [reflexivity|].
      destruct (N.eqb c' 93); [reflexivity|]. apply IHe; lia. }
    destruct (N.eqb c 123); [|reflexivity].
    pose proof (skip_ws_length r0) as Hws0.
    destruct (skip_ws r0) as [|c' r']; [reflexivity|].
    destruct (N.eqb c' 125); [reflexivity|]. apply IHm; lia. }
  split; [exact Hv|]. split.
  - intros s acc f f' Hn Hf Hf'.
    destruct f as [|f]; [lia|]. destruct f' as [|f']; [lia|]. cbn [parse_value parse_elements parse_members].
    rewrite (Hv s f f') by lia.
    destruct (parse_value f' s) as [[v r]|] eqn:Hpv; [|reflexivity].
    apply parse_shorter in Hpv. pose proof (skip_ws_length r) as Hws.
    destruct (skip_ws r) as [|c r']; [reflexivity|]. simpl in Hws.
    destruct (N.eqb c 44); [|reflexivity]. apply IHe; lia.
  - intros s acc f f' Hn Hf Hf'.
    destruct f as [|f]; [lia|]. destruct f' as [|f']; [lia|]. cbn [parse_value parse_elements parse_members].
    pose proof (skip_ws_length s) as Hws.
    destruct (skip_ws s) as [|q r0]; [reflexivity|]. simpl in Hws.
    destruct (N.eqb q 34); [|reflexivity].
    destruct (parse_string_chars r0 []) as [[k r1]|] eqn:Hk; [|reflexivity].
    apply parse_string_chars_shorter in Hk.
    pose proof (skip_ws_length r1) as Hws1.
    destruct (skip_ws r1) as [|colon r2]; [reflexivity|]. simpl in Hws1.
    destruct (N.eqb colon 58); [|reflexivity].
    rewrite (IHv r2 f f') by lia.
    destruct (parse_value f' r2) as [[v r3]|] eqn:Hpv; [|reflexivity].
    apply parse_shorter in Hpv. pose proof (skip_ws_length r3) as Hws3.
    destruct (skip_ws r3) as [|c r']; [reflexivity|]. simpl in Hws3.
    destruct (N.eqb c 44); [|reflexivity]. apply IHm; lia.
Qed.

(** The fuel [JSON_parse] gives is enough: with more, the parse is the
    same. *)
Lemma JSON_parse_fuel (text : jsstring) (f : nat) :
  2 * length text + 2 <= f ->
  parse_value f text = parse_value (2 * length text + 2) text.
Proof.
  intros Hf. now apply (parse_stable (length text)).
Qed.

(** *** The shape of a handler *)

Lemma run_gateway_get (path : jsstring) (format : value -> result jsstring)
  (net : request -> fetch_outcome) :
  let req := {| req_url := API_URL ++ path; req_method := GET;
                req_headers := []; req_body := None |} in
  run net (gateway (apiGet path) format)
  = ([req],
     try_catch
       (let! data := api_result (net req) in
        let! t := format data in Ok (textContent t))
       errorContent).
Proof. reflexivity. Qed.

(** A value nested no deeper than eight levels is within the reach of
    [JSON.stringify] on every engine. *)
Lemma stringify_shallow (gap : jsstring) (v : value) :
  (nesting v <=? 8)%nat = true -> stringify gap v = Ok (serialize gap [] v).
Proof.
  unfold stringify, stringify_depth. intros H. apply Nat.leb_le in H.
  destruct (Nat.leb_spec (nesting v) (8 + stringify_stack)); [reflexivity|lia].
Qed.

Lemma run_gateway_post (path : jsstring) (body : value) (text : option jsstring)
  (format : value -> result jsstring) (net : request -> fetch_outcome) :
  JSON_stringify body = Ok text ->
  let req := {| req_url := API_URL ++ path; req_method := POST;
                req_headers := [(lit "Content-Type", lit "application/json")];
                req_body := text |} in
  run net (gateway (apiPost path body) format)
  = ([req],
     try_catch
       (let! data := api_result (net req) in
        let! t := format data in Ok (textContent t))
       errorContent).
Proof. intros H. unfold apiPost. rewrite H. reflexivity. Qed.

(** The bodies of the two tools that post are flat objects. *)
Lemma play_body_stringify (a : play_args) :
  JSON_stringify
    (VObj [(lit "message", VStr (play_message a));
           (lit "player", VStr (play_player a));
           (lit "tx_hash", optional_string (play_tx_hash a));
           (lit "agent_name", optional_string (play_agent_name a))])
  = Ok (serialize [] []
          (VObj [(lit "message", VStr (play_message a));
                 (lit "player", VStr (play_player a));
                 (lit "tx_hash", optional_string (play_tx_hash a));
                 (lit "agent_name", optional_string (play_agent_name a))])).
Proof.
  apply stringify_shallow.
  destruct (play_tx_hash a), (play_agent_name a); reflexivity.
Qed.

Lemma claim_eth_body_stringify (address : jsstring) :
  JSON_stringify (VObj [(lit "address", VStr address)])
  = Ok (serialize [] [] (VObj [(lit "address", VStr address)])).
Proof. now apply stringify_shallow. Qed.

(** So is the ABI that [contract_info] prints: an array of flat entries. *)
Lemma contract_abi_stringify :
  JSON_stringify contract_abi = Ok (serialize [] [] contract_abi).
Proof. apply stringify_shallow. vm_compute. reflexivity. Qed.

Lemma contract_info_format_guide (data : value) :
  contract_info_format data
  = let! currentCost := contract_currentCost data in
    let! head := contract_info_head currentCost in
    Ok (head ++ contract_info_guide).
Proof.
  unfold contract_info_format, contract_info_guide.
  rewrite contract_abi_stringify.
  destruct (contract_currentCost data) as [c|e]; cbn [bind]; [|reflexivity].
  destruct (contract_info_head c); cbn [bind]; reflexivity.
Qed.

Lemma errorContent_total (err : thrown) :
  exists text, errorContent err = Ok (textContent text).
Proof.
  destruct err as [status body|message|v]; unfold errorContent.
  - destruct (status =? 429)%Z.
    + destruct (JSON_parse body) as [parsed|e]; cbn [bind try_catch]; [|eauto].
      destruct (get parsed _) as [r|e]; cbn [bind try_catch]; [|eauto].
      destruct (template _) as [t|e]; cbn [bind try_catch]; eauto.
    + destruct (status =? 400)%Z; [eauto|].
      destruct (status =? 503)%Z; eauto.
  - destruct (includes message (lit "fetch failed") || includes message (lit "ECONNREFUSED"));
      eauto.
  - eauto.
Qed.

Lemma try_catch_total (body : result jsstring) :
  exists text,
    try_catch (let! t := body in Ok (textContent t)) errorContent = Ok (textContent text).
Proof.
  destruct body as [t|e]; simpl; [eauto|apply errorContent_total].
Qed.

(** What every handler that calls upstream does: one request, whose outcome
    is formatted or classified. *)
Lemma run_handler (t : http_tool) (net : request -> fetch_outcome) :
  exists req format,
    run net (handler t)
    = ([req],
       try_catch
         (let! data := api_result (net req) in
          let! text := format data in Ok (textContent text))
         errorContent).
Proof.
  destruct t; cbn [handler];
    first [ eexists; eexists; apply run_gateway_get
          | eexists; eexists; apply run_gateway_post; apply play_body_stringify
          | eexists; eexists; apply run_gateway_post; apply claim_eth_body_stringify ].
Qed.

(** C1. Every branch of the error classifier ends in a text result; every
    handler that calls upstream issues one request and returns a text
    result whatever the outcome of the request is; and when the call fails
    (a response that is not 2xx, a rejected [fetch], be it with an Error or
    with any other value) the result is the classifier's text for that
    failure: nothing is thrown past the handler. *)
Theorem gateway_never_throws :
  (forall err, exists text, errorContent err = Ok (textContent text))
  /\ (forall t net, exists req text,
        run net (handler t) = ([req], Ok (textContent text)))
  /\ (forall t net req e,
        fst (run net (handler t)) = [req] ->
        api_result (net req) = Throw e ->
        snd (run net (handler t)) = errorContent e)
  /\ (forall res, res_ok res = false ->
        exists body, api_result (Resolved res) = Throw (ThrownApiError (res_status res) body))
  /\ (forall e, api_result (Rejected e) = Throw e).
Proof.
  split; [exact errorContent_total|].
  split.
  { intros t net. destruct (run_handler t net) as (req & format & Hrun).
    rewrite Hrun. exists req.
    destruct (api_result (net req)) as [data|e]; simpl.
    - destruct (format data) as [text|e]; simpl; [eauto|].
      destruct (errorContent_total e) as [text ->]; eauto.
    - destruct (errorContent_total e) as [text ->]; eauto. }
  split.
  { intros t net req e Hreq Hfail.
    destruct (run_handler t net) as (req' & format & Hrun).
    rewrite Hrun in *; simpl in *.
    injection Hreq as ->. now rewrite Hfail. }
  split.
  { intros res Hok. unfold api_result. rewrite Hok; simpl. eauto. }
  reflexivity.
Qed.

(** C9. [rules] and [verify_wallet] settle at once: they issue no request
    and their result is the same whatever the upstream would have
    answered. *)
Theorem rules_and_verify_wallet_pure :
  forall (address : jsstring) (net1 net2 : request -> fetch_outcome),
    run net1 lucille_rules = ([], Ok (textContent rules_text))
    /\ run net1 lucille_rules = run net2 lucille_rules
    /\ fst (run net1 (lucille_verify_wallet address)) = []
    /\ run net1 (lucille_verify_wallet address) = run net2 (lucille_verify_wallet address)
    /\ exists text, lucille_verify_wallet address = Done (Ok (textContent text)).
Proof.
  intros address net1 net2. unfold lucille_verify_wallet.
  destruct (regex_test_anchored wallet_regex address); simpl; repeat split; eauto.
Qed.

(** *** The address rule *)

Lemma in_ranges_hex (c : char16) :
  in_ranges [(97, 102); (65, 70); (48, 57)]%N c = is_hex_digit c.
Proof.
  unfold in_ranges, is_hex_digit, is_digit; simpl.
  destruct (97 <=? c)%N, (c <=? 102)%N, (65 <=? c)%N, (c <=? 70)%N,
    (48 <=? c)%N, (c <=? 57)%N; reflexivity.
Qed.

Lemma forallb_hex (l : jsstring) :
  forallb (in_ranges [(97, 102); (65, 70); (48, 57)]%N) l = forallb is_hex_digit l.
Proof.
  induction l as [|c l IH]; cbn [forallb]; [reflexivity|].
  now rewrite in_ranges_hex, IH.
Qed.

Lemma re_match_repeat_class (ranges : list (char16 * char16)) (n : nat) (s : jsstring) :
  re_match (RRepeat n (RClass ranges)) s
  = if (n <=? length s)%nat && forallb (in_ranges ranges) (firstn n s)
    then Some (skipn n s) else None.
Proof.
  revert s; induction n as [|n IH]; intros s.
  - reflexivity.
  - destruct s as [|c s]; [reflexivity|].
    specialize (IH s). simpl in *.
    destruct (in_ranges ranges c); simpl; [exact IH|].
    now rewrite andb_false_r.
Qed.

Lemma re_match_seq (r1 r2 : regex) (s : jsstring) :
  re_match (RSeq r1 r2) s
  = match re_match r1 s with Some s' => re_match r2 s' | None => None end.
Proof. reflexivity. Qed.

Lemma re_match_char (c x : char16) (s : jsstring) :
  re_match (RChar c) (x :: s) = if N.eqb x c then Some s else None.
Proof. reflexivity. Qed.

Lemma wallet_regex_is_address_rule (s : jsstring) :
  regex_test_anchored wallet_regex s = is_wallet_address s.
Proof.
  unfold regex_test_anchored, wallet_regex, is_wallet_address.
  destruct s as [|c0 [|c1 digits]].
  - reflexivity.
  - simpl. destruct (N.eqb c0 48); reflexivity.
  - rewrite re_match_seq, re_match_char. destruct (N.eqb c0 48); [|reflexivity].
    rewrite re_match_seq, re_match_char. destruct (N.eqb c1 120); [|reflexivity].
    rewrite re_match_repeat_class. cbn [andb].
    destruct (Nat.eqb (length digits) 40) eqn:Hlen.
    + apply Nat.eqb_eq in Hlen.
      replace (40 <=? length digits)%nat with true
        by (symmetry; apply Nat.leb_le; lia).
      rewrite <- Hlen, firstn_all, skipn_all. cbn [andb].
      rewrite forallb_hex.
      destruct (forallb is_hex_digit digits); reflexivity.
    + apply Nat.eqb_neq in Hlen. cbn [andb].
      destruct (40 <=? length digits)%nat eqn:Hle; cbn [andb]; [|reflexivity].
      apply Nat.leb_le in Hle.
      destruct (forallb _ (firstn 40 digits)); [|reflexivity].
      destruct (skipn 40 digits) eqn:Hskip; [|reflexivity].
      apply (f_equal (@length _)) in Hskip. rewrite length_skipn in Hskip.
      simpl in Hskip. lia.
Qed.

(** C3. [verify_wallet] reports a valid address exactly when the input
    obeys the address rule, and an invalid one, with the input quoted as it
    was given, exactly when it does not; no request is issued either way. *)
Theorem verify_wallet_follows_address_rule :
  forall (address : jsstring) (net : request -> fetch_outcome),
    run net (lucille_verify_wallet address)
    = ([], Ok (textContent
                 (if is_wallet_address address then
                    lit "✅ Valid Base wallet address: " ++ address ++ nl
                    ++ lit "You can use this address to play. If you win, ETH and NFTs will be sent here." ++ nl
                    ++ lit "Network: Base Sepolia (testnet)" ++ nl
                    ++ lit "Need testnet ETH? Use lucille_claim_eth to get some."
                  else
                    lit "❌ Invalid wallet address: " ++ dquote ++ address ++ dquote ++ nl
                    ++ lit "Must be a 42-character hex address starting with 0x (e.g. 0x1234...abcd)")))
    /\ (is_wallet_address address = true <->
        snd (run net (lucille_verify_wallet address))
        = Ok (textContent (valid_wallet_text address)))
    /\ (is_wallet_address address = false <->
        snd (run net (lucille_verify_wallet address))
        = Ok (textContent (invalid_wallet_text address))).
Proof.
  intros address net. unfold lucille_verify_wallet.
  rewrite wallet_regex_is_address_rule.
  destruct (is_wallet_address address); simpl; (split; [reflexivity|]); split; split;
    intros H; try reflexivity; discriminate H.
Qed.

(** *** Rate limiting *)

Lemma template_cons (p : result jsstring) (rest : list (result jsstring)) :
  template (p :: rest) = let! a := p in let! b := template rest in Ok (a ++ b).
Proof. reflexivity. Qed.

Lemma rate_limited_default :
  lit "⏳ Rate limited — wait 60 seconds and try again." ++ nl
  ++ lit "Limit: 3 plays/min per wallet, 60 reads/min."
  = rate_limited_text (lit "60").
Proof. vm_compute. reflexivity. Qed.

(** The 429 branch of the classifier, by what the body holds. *)
Lemma errorContent_429 (body : jsstring) :
  errorContent (ThrownApiError 429 body)
  = Ok (textContent
          (rate_limited_text
             (match JSON_parse body with
              | Ok parsed =>
                match get parsed (lit "retry_after_seconds") with
                | Ok r =>
                  match to_string (js_or r (VNum (Int 60))) with
                  | Ok s => s
                  | Throw _ => lit "60"
                  end
                | Throw _ => lit "60"
                end
              | Throw _ => lit "60"
              end))).
Proof.
  unfold errorContent. change (429 =? 429)%Z with true. cbv iota.
  rewrite rate_limited_default.
  destruct (JSON_parse body) as [parsed|e]; cbn [bind try_catch]; [|reflexivity].
  destruct (get parsed _) as [r|e]; cbn [bind try_catch]; [|reflexivity].
  cbv zeta.
  destruct (to_string (js_or r (VNum (Int 60)))) as [s|e];
    unfold txt, rate_limited_text; cbn [template bind try_catch];
    rewrite ?app_nil_r; reflexivity.
Qed.

(** C2, as the code has it.  A 429 always yields the rate-limit text with
    some wait value and the two fixed limits.  The wait value is the body's
    [retry_after_seconds] when the body parses, the field can be read, is
    truthy and converts to a string (for a number other than zero: the
    number as printed).  In every other case it is 60: when the body does
    not parse (an absent body is read as the empty text, which does not
    parse); when it parses to [null], of which no field can be read; when
    the field is missing, which reads as [undefined]; when the field is
    present but falsy, such as 0; and when the field is truthy but cannot
    be converted to a string. *)
Theorem rate_limit_guidance :
  forall body : jsstring,
    (exists wait,
        errorContent (ThrownApiError 429 body)
        = Ok (textContent
                (lit "⏳ Rate limited — wait " ++ wait ++ lit " seconds and try again." ++ nl
                 ++ lit "Limit: 3 plays/min per wallet, 60 reads/min.")))
    /\ (forall parsed N s,
          JSON_parse body = Ok parsed ->
          get parsed (lit "retry_after_seconds") = Ok N ->
          truthy N = true ->
          to_string N = Ok s ->
          errorContent (ThrownApiError 429 body) = Ok (textContent (rate_limited_text s)))
    /\ (forall parsed n,
          JSON_parse body = Ok parsed ->
          get parsed (lit "retry_after_seconds") = Ok (VNum n) ->
          num_truthy n = true ->
          errorContent (ThrownApiError 429 body)
          = Ok (textContent (rate_limited_text (num_toString n))))
    /\ (forall parsed N e,
          JSON_parse body = Ok parsed ->
          get parsed (lit "retry_after_seconds") = Ok N ->
          truthy N = true ->
          to_string N = Throw e ->
          errorContent (ThrownApiError 429 body)
          = Ok (textContent (rate_limited_text (lit "60"))))
    /\ (forall parsed N,
          JSON_parse body = Ok parsed ->
          get parsed (lit "retry_after_seconds") = Ok N ->
          truthy N = false ->
          errorContent (ThrownApiError 429 body)
          = Ok (textContent (rate_limited_text (lit "60"))))
    /\ (forall props,
          JSON_parse body = Ok (VObj props) ->
          own_property props (lit "retry_after_seconds") = None ->
          errorContent (ThrownApiError 429 body)
          = Ok (textContent (rate_limited_text (lit "60"))))
    /\ (forall parsed e,
          JSON_parse body = Ok parsed ->
          get parsed (lit "retry_after_seconds") = Throw e ->
          errorContent (ThrownApiError 429 body)
          = Ok (textContent (rate_limited_text (lit "60"))))
    /\ (JSON_parse body = Ok VNull ->
          errorContent (ThrownApiError 429 body)
          = Ok (textContent (rate_limited_text (lit "60"))))
    /\ (forall e,
          JSON_parse body = Throw e ->
          errorContent (ThrownApiError 429 body)
          = Ok (textContent (rate_limited_text (lit "60"))))
    /\ errorContent (ThrownApiError 429 [])
       = Ok (textContent (rate_limited_text (lit "60")))
    /\ (forall e,
          api_result (Resolved {| res_status := 429; res_body := Throw e |})
          = Throw (ThrownApiError 429 [])).
Proof.
  intros body. rewrite !errorContent_429.
  split; [eexists; reflexivity|].
  split.
  { intros parsed N s -> -> HN Hs. unfold js_or. now rewrite HN, Hs. }
  split.
  { intros parsed n -> -> Hn. unfold js_or. cbn [truthy]. now rewrite Hn. }
  split.
  { intros parsed N e -> -> HN Hs. unfold js_or. now rewrite HN, Hs. }
  split.
  { intros parsed N -> -> HN. unfold js_or. now rewrite HN. }
  split.
  { intros props -> Hown. cbn [get]. now rewrite Hown. }
  split.
  { now intros parsed e -> ->. }
  split.
  { now intros ->. }
  split.
  { now intros e ->. }
  split; reflexivity.
Qed.

(** *** A successful call *)

Lemma gateway_get_result (path : jsstring) (format : value -> result jsstring)
  (net : request -> fetch_outcome) (data : value) :
  (forall req, api_result (net req) = Ok data) ->
  snd (run net (gateway (apiGet path) format))
  = match format data with
    | Ok text => Ok (textContent text)
    | Throw e => errorContent e
    end.
Proof.
  intros H. rewrite run_gateway_get. cbn [snd]. rewrite H. cbn [bind].
  destruct (format data); reflexivity.
Qed.

Lemma gateway_post_result (path : jsstring) (body : value) (sent : option jsstring)
  (format : value -> result jsstring) (net : request -> fetch_outcome) (data : value) :
  JSON_stringify body = Ok sent ->
  (forall req, api_result (net req) = Ok data) ->
  snd (run net (gateway (apiPost path body) format))
  = match format data with
    | Ok text => Ok (textContent text)
    | Throw e => errorContent e
    end.
Proof.
  intros Hsent H. rewrite (@run_gateway_post path body sent format net Hsent). cbn [snd].
  rewrite H. cbn [bind]. destruct (format data); reflexivity.
Qed.

(** *** Claiming test ETH *)

Lemma serialize_defined (gap indent : jsstring) (v : value) :
  v <> VUndefined -> exists s, serialize gap indent v = Some s.
Proof.
  destruct v as [| |[|]|n|s|items|props]; intros Hv; simpl; eauto.
  contradiction.
Qed.

Lemma get_defined (data : value) (k : jsstring) (v : value) :
  get data k = Ok v -> data <> VUndefined /\ data <> VNull.
Proof. destruct data; simpl; intros H; split; congruence. Qed.

Lemma claim_eth_format_cases (address : jsstring) (data status : value) :
  get data (lit "status") = Ok status ->
  claim_eth_format address data
  = if strict_equals_string status (lit "has_balance") then
      let! b := field data "balance" in Ok (already_funded_text b)
    else if strict_equals_string status (lit "cooldown") then
      let! m := field data "message" in Ok (cooldown_text m)
    else if strict_equals_string status (lit "claimed") then
      let! amount := field data "amount" in
      let! tx := field data "txHash" in Ok (claimed_text amount address tx)
    else
      let! json := JSON_stringify data in Ok (echo_text (string_or_undefined json)).
Proof.
  intros Hs. unfold claim_eth_format. rewrite Hs. cbn [bind].
  unfold already_funded_text, cooldown_text, claimed_text, echo_text, txt.
  destruct (strict_equals_string status (lit "has_balance")).
  { cbn [template bind]. destruct (field data "balance"); cbn [bind]; [|reflexivity].
    now rewrite app_nil_r. }
  destruct (strict_equals_string status (lit "cooldown")).
  { cbn [template bind]. destruct (field data "message"); cbn [bind]; [|reflexivity].
    now rewrite app_nil_r. }
  destruct (strict_equals_string status (lit "claimed")); [|reflexivity].
  cbn [template bind]. destruct (field data "amount"); cbn [bind]; [|reflexivity].
  destruct (field data "txHash"); cbn [bind]; [|reflexivity].
  now rewrite app_nil_r.
Qed.

Lemma strict_equals_string_true (v : value) (s : jsstring) :
  strict_equals_string v s = true <-> v = VStr s.
Proof.
  destruct v; simpl; try (split; [discriminate|congruence]).
  rewrite str_eqb_eq. split; congruence.
Qed.

Lemma strict_equals_string_false (v : value) (s : jsstring) :
  strict_equals_string v s = false <-> v <> VStr s.
Proof.
  split.
  - intros H Heq. apply strict_equals_string_true in Heq. congruence.
  - intros H. destruct (strict_equals_string v s) eqn:Heq; [|reflexivity].
    apply strict_equals_string_true in Heq. contradiction.
Qed.

Lemma claim_eth_result (address : jsstring) (data : value)
  (net : request -> fetch_outcome) :
  (forall req, api_result (net req) = Ok data) ->
  snd (run net (lucille_claim_eth address))
  = match claim_eth_format address data with
    | Ok text => Ok (textContent text)
    | Throw e => errorContent e
    end.
Proof.
  intros Hnet. unfold lucille_claim_eth.
  exact (@gateway_post_result _ _ _ _ net data (claim_eth_body_stringify address) Hnet).
Qed.

(** C5, as the code has it.  What [claim_eth] answers to a response is
    settled case by case.  A response that has a [status] to read (every
    JSON value but [null]) gives one of four messages, chosen by the
    status: already funded with the balance, cooldown with the server's
    message, claimed with the amount and the transaction hash, and for any
    other status the response echoed as [JSON.stringify] prints it.  When a
    field to interpolate cannot be converted to a string, or the response to
    echo is nested more deeply than [JSON.stringify] can follow, the answer
    is the classifier's text for the error thrown; so it is for the response
    [null], whose [status] cannot be read.  The four messages differ from one
    another whatever they carry. *)
Theorem claim_eth_message_shapes :
  forall (address : jsstring) (data : value) (net : request -> fetch_outcome),
    (forall req, api_result (net req) = Ok data) ->
    (forall status, get data (lit "status") = Ok status ->
       (status = VStr (lit "has_balance") ->
          (forall balance, field data "balance" = Ok balance ->
             snd (run net (lucille_claim_eth address))
             = Ok (textContent (already_funded_text balance)))
          /\ (forall e, field data "balance" = Throw e ->
                snd (run net (lucille_claim_eth address)) = errorContent e))
       /\ (status = VStr (lit "cooldown") ->
           (forall message, field data "message" = Ok message ->
              snd (run net (lucille_claim_eth address))
              = Ok (textContent (cooldown_text message)))
           /\ (forall e, field data "message" = Throw e ->
                 snd (run net (lucille_claim_eth address)) = errorContent e))
       /\ (status = VStr (lit "claimed") ->
           (forall amount txHash,
              field data "amount" = Ok amount -> field data "txHash" = Ok txHash ->
              snd (run net (lucille_claim_eth address))
              = Ok (textContent (claimed_text amount address txHash)))
           /\ (forall e, field data "amount" = Throw e ->
                 snd (run net (lucille_claim_eth address)) = errorContent e)
           /\ (forall amount e,
                 field data "amount" = Ok amount -> field data "txHash" = Throw e ->
                 snd (run net (lucille_claim_eth address)) = errorContent e))
       /\ (status <> VStr (lit "has_balance") ->
           status <> VStr (lit "cooldown") ->
           status <> VStr (lit "claimed") ->
           (nesting data <= stringify_depth ->
              exists json,
                JSON_stringify data = Ok (Some json)
                /\ snd (run net (lucille_claim_eth address))
                   = Ok (textContent (echo_text json)))
           /\ (stringify_depth < nesting data ->
                snd (run net (lucille_claim_eth address)) = errorContent RangeError)))
    /\ (data = VNull ->
          snd (run net (lucille_claim_eth address))
          = errorContent (TypeError (ReadOfNull (lit "status"))))
    /\ (data = VUndefined ->
          snd (run net (lucille_claim_eth address))
          = errorContent (TypeError (ReadOfUndefined (lit "status"))))
    /\ (forall b m a ad tx j,
          already_funded_text b <> cooldown_text m
          /\ already_funded_text b <> claimed_text a ad tx
          /\ already_funded_text b <> echo_text j
          /\ cooldown_text m <> claimed_text a ad tx
          /\ cooldown_text m <> echo_text j
          /\ claimed_text a ad tx <> echo_text j).
Proof.
  intros address data net Hnet.
  rewrite (claim_eth_result address net Hnet).
  split; [|split; [|split]].
  - intros status Hstatus.
    rewrite (claim_eth_format_cases address data Hstatus).
    split; [|split; [|split]].
    + intros ->. split.
      * intros balance Hb. rewrite Hb. reflexivity.
      * intros e Hb. rewrite Hb. reflexivity.
    + intros ->. split.
      * intros message Hm. rewrite Hm. reflexivity.
      * intros e Hm. rewrite Hm. reflexivity.
    + intros ->. split; [|split].
      * intros amount tx Ha Ht. rewrite Ha, Ht. reflexivity.
      * intros e Ha. rewrite Ha. reflexivity.
      * intros amount e Ha Ht. rewrite Ha, Ht. reflexivity.
    + intros H1 H2 H3.
      apply strict_equals_string_false in H1, H2, H3.
      rewrite H1, H2, H3. unfold JSON_stringify, stringify. split.
      * intros Hdepth. apply Nat.leb_le in Hdepth. rewrite Hdepth. cbn [bind].
        destruct (get_defined _ _ Hstatus) as [Hundef _].
        destruct (serialize_defined [] [] Hundef) as [json Hjson].
        exists json. rewrite Hjson. split; reflexivity.
      * intros Hdepth. apply Nat.leb_gt in Hdepth. rewrite Hdepth. reflexivity.
  - intros ->. reflexivity.
  - intros ->. reflexivity.
  - intros b m a ad tx j.
    unfold already_funded_text, cooldown_text, claimed_text, echo_text.
    repeat split; intros H; apply (f_equal (firstn 3)) in H; vm_compute in H;
      discriminate H.
Qed.

(** *** The cost line of [contract_info] *)

Lemma contract_info_head_cost (cost : value) (s : jsstring) :
  to_string cost = Ok s ->
  exists pre post,
    contract_info_head cost
    = Ok (pre ++ (lit "Current cost per attempt: " ++ s ++ lit " wei") ++ post).
Proof.
  intros Hs. unfold contract_info_head, txt.
  rewrite Hs. cbn [template bind to_string print chainId].
  exists (lit "=== Lucille Protocol — Contract Info ===" ++ nl ++ nl
          ++ lit "Contract: " ++ contractAddress ++ nl
          ++ lit "Chain: Base Sepolia (" ++ num_toString (Int 84532) ++ lit ")" ++ nl
          ++ lit "RPC: " ++ rpcUrl ++ nl), (nl ++ nl).
  rewrite app_nil_r. rewrite <- !app_assoc. reflexivity.
Qed.

Lemma contract_info_cost (data cost : value) (s : jsstring)
  (net : request -> fetch_outcome) :
  (forall req, api_result (net req) = Ok data) ->
  contract_currentCost data = Ok cost ->
  to_string cost = Ok s ->
  includes (result_text (snd (run net lucille_contract_info)))
    (lit "Current cost per attempt: " ++ s ++ lit " wei") = true.
Proof.
  intros Hnet Hcost Hs.
  unfold lucille_contract_info. rewrite (gateway_get_result _ _ net Hnet).
  rewrite contract_info_format_guide. rewrite Hcost. cbn [bind].
  destruct (contract_info_head_cost cost Hs) as (pre & post & ->).
  cbn [bind result_text textContent content map item_text concat].
  rewrite app_nil_r, <- !app_assoc.
  rewrite (app_assoc (lit "Current cost per attempt: ")), (app_assoc _ (lit " wei")).
  rewrite <- (app_assoc (lit "Current cost per attempt: ")).
  apply includes_app.
Qed.

Lemma contract_info_unprintable (data cost : value) (e : thrown)
  (net : request -> fetch_outcome) :
  (forall req, api_result (net req) = Ok data) ->
  contract_currentCost data = Ok cost ->
  to_string cost = Throw e ->
  snd (run net lucille_contract_info) = errorContent e.
Proof.
  intros Hnet Hcost Hs.
  unfold lucille_contract_info. rewrite (gateway_get_result _ _ net Hnet).
  rewrite contract_info_format_guide. rewrite Hcost. cbn [bind].
  unfold contract_info_head, txt. rewrite Hs. cbn [template bind to_string print chainId].
  reflexivity.
Qed.

Lemma contract_info_unreadable (data : value) (e : thrown)
  (net : request -> fetch_outcome) :
  (forall req, api_result (net req) = Ok data) ->
  get data (lit "baseCost") = Throw e ->
  snd (run net lucille_contract_info) = errorContent e.
Proof.
  intros Hnet Hbase.
  unfold lucille_contract_info. rewrite (gateway_get_result _ _ net Hnet).
  rewrite contract_info_format_guide.
  unfold contract_currentCost, contract_baseCost. rewrite Hbase. reflexivity.
Qed.

(** C8, as the code has it.  The cost line shows [currentCost] when it is
    truthy; otherwise [baseCost] when that is truthy; otherwise the
    placeholder 1.  An absent field reads as [undefined], which is falsy;
    so are 0, the empty string, [null] and [false] when present.  The cost
    shown is the field converted to a string; when it cannot be converted,
    and when the response is [null], of which no field can be read, the
    tool answers with the classifier's text for the error instead. *)
Theorem contract_info_cost_line :
  forall (data : value) (net : request -> fetch_outcome),
    (forall req, api_result (net req) = Ok data) ->
    (forall base current,
        get data (lit "baseCost") = Ok base ->
        get data (lit "currentCost") = Ok current ->
        (truthy current = false -> truthy base = false ->
           includes (result_text (snd (run net lucille_contract_info)))
             (lit "Current cost per attempt: 1 wei") = true)
        /\ (truthy current = false -> truthy base = true ->
            (forall s, to_string base = Ok s ->
               includes (result_text (snd (run net lucille_contract_info)))
                 (lit "Current cost per attempt: " ++ s ++ lit " wei") = true)
            /\ (forall e, to_string base = Throw e ->
                  snd (run net lucille_contract_info) = errorContent e))
        /\ (truthy current = true ->
            (forall s, to_string current = Ok s ->
               includes (result_text (snd (run net lucille_contract_info)))
                 (lit "Current cost per attempt: " ++ s ++ lit " wei") = true)
            /\ (forall e, to_string current = Throw e ->
                  snd (run net lucille_contract_info) = errorContent e)))
    /\ (forall props,
          data = VObj props ->
          own_property props (lit "baseCost") = None ->
          own_property props (lit "currentCost") = None ->
          includes (result_text (snd (run net lucille_contract_info)))
            (lit "Current cost per attempt: 1 wei") = true)
    /\ (forall props base s,
          data = VObj props ->
          own_property props (lit "currentCost") = None ->
          own_property props (lit "baseCost") = Some base ->
          truthy base = true -> to_string base = Ok s ->
          includes (result_text (snd (run net lucille_contract_info)))
            (lit "Current cost per attempt: " ++ s ++ lit " wei") = true)
    /\ (data = VNull ->
          snd (run net lucille_contract_info)
          = errorContent (TypeError (ReadOfNull (lit "baseCost"))))
    /\ (data = VUndefined ->
          snd (run net lucille_contract_info)
          = errorContent (TypeError (ReadOfUndefined (lit "baseCost")))).
Proof.
  intros data net Hnet.
  assert (Hcases : forall base current,
             get data (lit "baseCost") = Ok base ->
             get data (lit "currentCost") = Ok current ->
             contract_currentCost data
             = Ok (if truthy current then current
                   else if truthy base then base else VStr (lit "1"))).
  { intros base current Hbase Hcur.
    unfold contract_currentCost, contract_baseCost. now rewrite Hbase, Hcur. }
  split; [|split; [|split; [|split]]].
  - intros base current Hbase Hcur.
    specialize (Hcases base current Hbase Hcur).
    split; [|split].
    + intros Hc Hb. rewrite Hc, Hb in Hcases.
      exact (contract_info_cost net Hnet Hcases eq_refl).
    + intros Hc Hb. rewrite Hc, Hb in Hcases. split.
      * intros s Hs. exact (contract_info_cost net Hnet Hcases Hs).
      * intros e Hs. exact (contract_info_unprintable net Hnet Hcases Hs).
    + intros Hc. rewrite Hc in Hcases. split.
      * intros s Hs. exact (contract_info_cost net Hnet Hcases Hs).
      * intros e Hs. exact (contract_info_unprintable net Hnet Hcases Hs).
  - intros props -> Hbase Hcur.
    assert (Hcost : contract_currentCost (VObj props) = Ok (VStr (lit "1"))).
    { rewrite (Hcases VUndefined VUndefined); [reflexivity| |]; cbn [get].
      - now rewrite Hbase.
      - now rewrite Hcur. }
    exact (contract_info_cost net Hnet Hcost eq_refl).
  - intros props base s -> Hcur Hbase Hb Hs.
    assert (Hcost : contract_currentCost (VObj props) = Ok base).
    { rewrite (Hcases base VUndefined); cbn [get truthy].
      - now rewrite Hb.
      - now rewrite Hbase.
      - now rewrite Hcur. }
    exact (contract_info_cost net Hnet Hcost Hs).
  - intros ->. eapply contract_info_unreadable; [exact Hnet|reflexivity].
  - intros ->. eapply contract_info_unreadable; [exact Hnet|reflexivity].
Qed.

(** *** Truncation in [history] and [leaderboard] *)

Lemma slice_prefix (A : Type) (s : list A) (n : nat) :
  slice s 0 (Some (Z.of_nat n)) = firstn n s.
Proof.
  unfold slice, relative_index.
  replace (0 <? 0)%Z with false by reflexivity.
  replace (Z.of_nat n <? 0)%Z with false by (symmetry; apply Z.ltb_ge; lia).
  rewrite (Z.min_l 0) by lia.
  destruct (Z.min (Z.of_nat n) (Z.of_nat (length s)) <=? 0)%Z eqn:Hle.
  - apply Z.leb_le in Hle.
    destruct n; [reflexivity|]. destruct s; [reflexivity|]. simpl length in Hle. lia.
  - apply Z.leb_gt in Hle. rewrite Z.sub_0_r. cbn [Z.to_nat skipn].
    destruct (Nat.le_ge_cases n (length s)) as [Hn|Hn].
    + rewrite Z.min_l by lia. now rewrite Nat2Z.id.
    + rewrite Z.min_r by lia. rewrite Nat2Z.id.
      now rewrite !firstn_all2 by lia.
Qed.

Lemma slice_suffix (A : Type) (s : list A) (n : nat) :
  0 < n -> slice s (- Z.of_nat n) None = skipn (length s - n) s.
Proof.
  intros Hn. unfold slice, relative_index.
  replace (- Z.of_nat n <? 0)%Z with true by (symmetry; apply Z.ltb_lt; lia).
  assert (Hfrom : Z.to_nat (Z.max (Z.of_nat (length s) + - Z.of_nat n) 0) = length s - n)
    by lia.
  destruct (Z.of_nat (length s) <=? Z.max (Z.of_nat (length s) + - Z.of_nat n) 0)%Z eqn:Hle.
  - apply Z.leb_le in Hle.
    destruct s; [reflexivity|]. simpl length in Hle. lia.
  - rewrite Hfrom. apply firstn_all2. rewrite length_skipn. lia.
Qed.

Lemma history_addr_string (a : value) (p : jsstring) :
  get a (lit "player") = Ok (VStr p) -> p <> [] ->
  history_addr a = Ok (firstn 6 p ++ lit "..." ++ skipn (length p - 4) p).
Proof.
  intros Hp Hne. unfold history_addr. rewrite Hp. cbn [bind truthy].
  destruct p as [|c p]; [contradiction|].
  unfold txt. cbn [call_slice bind to_string print template].
  change 6%Z with (Z.of_nat 6). change (-4)%Z with (- Z.of_nat 4)%Z.
  rewrite slice_prefix, slice_suffix by lia.
  now rewrite app_nil_r.
Qed.

Lemma history_excerpt_string (a : value) (k : string) (m : jsstring) :
  get a (lit k) = Ok (VStr m) -> history_excerpt a k = Ok (firstn 200 m).
Proof.
  intros Hm. unfold history_excerpt. rewrite Hm. cbn [bind].
  replace (js_or (VStr m) (VStr [])) with (VStr m) by (destruct m; reflexivity).
  cbn [call_slice bind to_string print].
  change 200%Z with (Z.of_nat 200). now rewrite slice_prefix.
Qed.

(** Literals with a double quote, taken apart. *)
Lemma litq_quote : litq "`" = dquote.
Proof. vm_compute. reflexivity. Qed.

Lemma litq_message : litq "   Message: `" = lit "   Message: " ++ dquote.
Proof. vm_compute. reflexivity. Qed.

Lemma litq_lucille : litq "   Lucille: `" = lit "   Lucille: " ++ dquote.
Proof. vm_compute. reflexivity. Qed.

Lemma litq_colon_quote : litq ": `" = lit ": " ++ dquote.
Proof. vm_compute. reflexivity. Qed.

Lemma litq_quote_space : litq "` " = dquote ++ lit " ".
Proof. vm_compute. reflexivity. Qed.

(** The lines of one entry. *)
Lemma history_item_lines (i : nat) (a : value) (text : jsstring) :
  history_item i a = Ok text ->
  exists badge source addr message response,
    history_badge a = Ok badge
    /\ history_source a = Ok source
    /\ history_addr a = Ok addr
    /\ history_excerpt a "message" = Ok message
    /\ history_excerpt a "response" = Ok response
    /\ text = (num_toString (Int (Z.of_nat i + 1)) ++ lit ". [" ++ badge ++ lit "] "
               ++ addr ++ source ++ nl)
              ++ lit "   Message: " ++ dquote ++ message ++ dquote ++ nl
              ++ lit "   Lucille: " ++ dquote ++ response ++ dquote ++ nl ++ nl.
Proof.
  unfold history_item.
  destruct (history_badge a) as [badge|]; cbn [bind]; [|discriminate].
  destruct (history_source a) as [source|]; cbn [bind]; [|discriminate].
  destruct (history_addr a) as [addr|]; cbn [bind]; [|discriminate].
  unfold txt, txtq. cbn [template bind].
  destruct (history_excerpt a "message") as [message|]; cbn [bind]; [|discriminate].
  destruct (history_excerpt a "response") as [response|]; cbn [bind]; [|discriminate].
  intros H; apply Ok_inj in H; subst text.
  exists badge, source, addr, message, response.
  repeat (split; [reflexivity|]).
  rewrite litq_message, litq_lucille, litq_quote.
  rewrite ?app_nil_r, <- ?app_assoc. reflexivity.
Qed.

Lemma leaderboard_winner_string (victory : value) (w : jsstring) :
  get victory (lit "winner") = Ok (VStr w) ->
  leaderboard_winner victory = Ok (firstn 10 w).
Proof.
  intros Hw. unfold leaderboard_winner. rewrite Hw. cbn [bind call_slice to_string print].
  change 10%Z with (Z.of_nat 10). now rewrite slice_prefix.
Qed.

Lemma leaderboard_line_won (i : nat) (h victory : value) (w line : jsstring) :
  get h (lit "victory") = Ok victory -> truthy victory = true ->
  get victory (lit "winner") = Ok (VStr w) ->
  leaderboard_line i h = Ok line ->
  exists round name emoji score jackpot,
    line = won_round_line round name emoji (firstn 10 w) score jackpot.
Proof.
  intros Hv Htruthy Hw.
  unfold leaderboard_line. rewrite Hv. cbn [bind]. rewrite Htruthy.
  unfold txt, txtq, field. rewrite (leaderboard_winner_string _ Hw).
  cbn [template bind].
  destruct (get victory (lit "score")) as [sc|]; cbn [bind]; [|discriminate].
  destruct (to_string sc) as [score|]; cbn [bind]; [|discriminate].
  destruct (get victory (lit "jackpot")) as [jp|]; cbn [bind]; [|discriminate].
  destruct (to_string jp) as [jackpot|]; cbn [bind]; [|discriminate].
  destruct (get h (lit "round")) as [rd|]; cbn [bind]; [|discriminate].
  destruct (to_string (js_or rd _)) as [round|]; cbn [bind]; [|discriminate].
  destruct (get h (lit "name")) as [nm|]; cbn [bind]; [|discriminate].
  destruct (to_string nm) as [name|]; cbn [bind]; [|discriminate].
  destruct (get h (lit "emoji")) as [em|]; cbn [bind]; [|discriminate].
  destruct (to_string (js_or em _)) as [emoji|]; cbn [bind]; [|discriminate].
  intros H; apply Ok_inj in H; subst line.
  exists round, name, emoji, score, jackpot. unfold won_round_line.
  rewrite litq_colon_quote, litq_quote_space.
  replace (lit " — 🏆 Won by ") with (lit " — " ++ lit "🏆 Won by ")
    by (vm_compute; reflexivity).
  rewrite ?app_nil_r, <- ?app_assoc. reflexivity.
Qed.

(** *** Filters that are falsy *)

Lemma run_history_ext (a a' : history_args) (net : request -> fetch_outcome) :
  history_query a = history_query a' ->
  (forall count, history_header a count = history_header a' count) ->
  run net (lucille_history a) = run net (lucille_history a').
Proof.
  intros Hq Hh. unfold lucille_history. rewrite !run_gateway_get. cbv zeta.
  rewrite Hq. f_equal. f_equal.
  destruct (api_result _) as [data|e]; [|reflexivity]. cbn [bind].
  unfold history_format.
  destruct (history_attempts data) as [attempts|]; [|reflexivity]. cbn [bind].
  destruct (get attempts _) as [len|]; [|reflexivity]. cbn [bind].
  destruct (strict_equals_zero len); [reflexivity|].
  destruct (array_items _ _ attempts) as [items|]; [|reflexivity]. cbn [bind].
  destruct (group_attempts items []) as [grouped|]; [|reflexivity]. cbn [bind].
  destruct (history_groups _) as [body|]; [|reflexivity]. cbn [bind].
  now rewrite Hh.
Qed.

(** C10. A round of 0, or any round that is falsy, and a player that is the
    empty string are treated as no filter at all: the request and the
    result are those of the call without that argument; with both, the
    query has neither parameter and the header is the one of the plain
    recent feed. *)
Theorem history_falsy_filters :
  forall (limit : jsnumber) (round : option jsnumber) (player : option jsstring)
    (net : request -> fetch_outcome),
    run net (lucille_history
               {| history_limit := limit; history_round := Some (Int 0);
                  history_player := player |})
    = run net (lucille_history
                 {| history_limit := limit; history_round := None;
                    history_player := player |})
    /\ run net (lucille_history
                  {| history_limit := limit; history_round := round;
                     history_player := Some [] |})
       = run net (lucille_history
                    {| history_limit := limit; history_round := round;
                       history_player := None |})
    /\ history_query {| history_limit := limit; history_round := Some (Int 0);
                        history_player := Some [] |}
       = lit "/api/history?limit=" ++ num_toString limit
    /\ (forall count,
          history_header {| history_limit := limit; history_round := Some (Int 0);
                            history_player := Some [] |} count
          = lit "=== Recent " ++ num_toString (Int (Z.of_nat count))
            ++ lit " Attempts ===" ++ nl ++ nl)
    /\ (forall r, num_truthy r = false ->
          run net (lucille_history
                     {| history_limit := limit; history_round := Some r;
                        history_player := player |})
          = run net (lucille_history
                       {| history_limit := limit; history_round := None;
                          history_player := player |})).
Proof.
  intros limit round player net.
  split; [apply run_history_ext; reflexivity|].
  split; [apply run_history_ext; reflexivity|].
  split.
  { unfold history_query, round_given, player_given; simpl. now rewrite !app_nil_r. }
  split; [reflexivity|].
  intros r Hr. apply run_history_ext.
  - unfold history_query, round_given; simpl. now rewrite Hr.
  - intros count. unfold history_header, round_given; simpl. now rewrite Hr.
Qed.

(** *** Grouping in [history] *)

Lemma str_eqb_sym (a b : jsstring) : str_eqb a b = str_eqb b a.
Proof.
  destruct (str_eqb a b) eqn:Hab; symmetry.
  - apply str_eqb_eq in Hab; subst. apply str_eqb_refl.
  - apply str_eqb_neq in Hab. apply str_eqb_neq. congruence.
Qed.

Lemma seen_In (k : jsstring) (ks : list jsstring) : seen k ks = true <-> In k ks.
Proof.
  unfold seen. rewrite existsb_exists. split.
  - intros (x & Hin & Heq). apply str_eqb_eq in Heq. now subst.
  - intros Hin. exists k. split; [exact Hin|apply str_eqb_refl].
Qed.

Lemma seen_false (k : jsstring) (ks : list jsstring) : seen k ks = false <-> ~ In k ks.
Proof.
  rewrite <- seen_In. destruct (seen k ks); split; congruence.
Qed.

Lemma first_seen_snoc (ks : list jsstring) (k : jsstring) :
  first_seen (ks ++ [k])
  = if seen k (first_seen ks) then first_seen ks else first_seen ks ++ [k].
Proof. unfold first_seen. now rewrite fold_left_app. Qed.

Lemma In_first_seen (k : jsstring) (ks : list jsstring) :
  In k (first_seen ks) <-> In k ks.
Proof.
  revert k. induction ks as [|x ks IH] using rev_ind; intros k; [reflexivity|].
  rewrite first_seen_snoc, in_app_iff. simpl.
  destruct (seen x (first_seen ks)) eqn:Hx.
  - apply seen_In in Hx. apply IH in Hx. rewrite IH. split; [tauto|].
    intros [H|[H|[]]]; [exact H|now subst].
  - rewrite in_app_iff, IH. simpl. tauto.
Qed.

Lemma seen_first_seen (k : jsstring) (ks : list jsstring) :
  seen k (first_seen ks) = seen k ks.
Proof.
  destruct (seen k ks) eqn:Hk.
  - apply seen_In. apply In_first_seen. now apply seen_In.
  - apply seen_false. rewrite In_first_seen. now apply seen_false.
Qed.

Lemma NoDup_first_seen (ks : list jsstring) : NoDup (first_seen ks).
Proof.
  induction ks as [|x ks IH] using rev_ind; [constructor|].
  rewrite first_seen_snoc.
  destruct (seen x (first_seen ks)) eqn:Hx; [exact IH|].
  apply seen_false in Hx.
  apply NoDup_rev in IH. rewrite <- (rev_involutive (first_seen ks ++ [x])).
  apply NoDup_rev. rewrite rev_app_distr. simpl.
  constructor; [|exact IH]. now rewrite <- in_rev.
Qed.

Lemma own_property_map (A : Type) (f : jsstring -> A) (l : list jsstring) (k : jsstring) :
  own_property (map (fun k' => (k', f k')) l) k = if seen k l then Some (f k) else None.
Proof.
  induction l as [|x l IH]; [reflexivity|]. simpl.
  rewrite (str_eqb_sym k x).
  destruct (str_eqb x k) eqn:Hx; simpl; [|exact IH].
  apply str_eqb_eq in Hx. now subst.
Qed.

Lemma own_property_set_property (A : Type) (g : list (jsstring * A)) (k : jsstring) (v : A) :
  own_property (set_property g k v) k = Some v.
Proof.
  induction g as [|[k' v'] g IH]; simpl.
  - now rewrite str_eqb_refl.
  - destruct (str_eqb k' k) eqn:Hk; simpl; rewrite Hk; [reflexivity|exact IH].
Qed.

Lemma set_property_twice (A : Type) (g : list (jsstring * A)) (k : jsstring) (v w : A) :
  set_property (set_property g k v) k w = set_property g k w.
Proof.
  induction g as [|[k' v'] g IH]; simpl.
  - now rewrite str_eqb_refl.
  - destruct (str_eqb k' k) eqn:Hk; simpl; rewrite Hk; [reflexivity|now rewrite IH].
Qed.

Lemma set_property_map_absent (A : Type) (f : jsstring -> A) (l : list jsstring)
  (k : jsstring) (v : A) :
  seen k l = false ->
  set_property (map (fun k' => (k', f k')) l) k v
  = map (fun k' => (k', f k')) l ++ [(k, v)].
Proof.
  induction l as [|x l IH]; intros Hk; [reflexivity|]. simpl in *.
  apply orb_false_iff in Hk as [Hx Hl].
  rewrite str_eqb_sym in Hx. rewrite Hx. now rewrite IH.
Qed.

Lemma set_property_map_present (A : Type) (f : jsstring -> A) (l : list jsstring)
  (k : jsstring) (v : A) :
  NoDup l -> seen k l = true ->
  set_property (map (fun k' => (k', f k')) l) k v
  = map (fun k' => (k', if str_eqb k' k then v else f k')) l.
Proof.
  induction l as [|x l IH]; intros Hnd Hk; [discriminate|]. simpl in *.
  inversion Hnd as [|? ? Hx Hnd']; subst.
  destruct (str_eqb x k) eqn:Hxk.
  - apply str_eqb_eq in Hxk; subst x. f_equal.
    apply map_ext_in. intros k' Hin.
    destruct (str_eqb k' k) eqn:Hk'; [|reflexivity].
    apply str_eqb_eq in Hk'; subst. contradiction.
  - f_equal. apply IH; [exact Hnd'|].
    rewrite str_eqb_sym, Hxk in Hk. exact Hk.
Qed.

Lemma members_snoc (pre : list (jsstring * value)) (k k' : jsstring) (a : value) :
  members (pre ++ [(k, a)]) k' = members pre k' ++ (if str_eqb k k' then [a] else []).
Proof.
  unfold members. rewrite filter_app, map_app. simpl.
  destruct (str_eqb k k'); reflexivity.
Qed.

Lemma members_absent (pre : list (jsstring * value)) (k : jsstring) :
  seen k (map fst pre) = false -> members pre k = [].
Proof.
  unfold members. induction pre as [|[k' a] pre IH]; intros Hk; [reflexivity|].
  simpl in *. apply orb_false_iff in Hk as [Hx Hl].
  rewrite str_eqb_sym in Hx. rewrite Hx. now apply IH.
Qed.

(** One step of the loop adds the attempt to the group of its key. *)
Lemma group_attempt_spec (pre : list (jsstring * value)) (a : value) (k : jsstring) :
  history_key a = Ok k ->
  group_attempt (grouped_by_key pre) a = Ok (grouped_by_key (pre ++ [(k, a)])).
Proof.
  intros Hk. unfold group_attempt. rewrite Hk. cbn [bind].
  assert (Hold : match own_property (grouped_by_key pre) k with
                 | Some items => items
                 | None => []
                 end = members pre k).
  { unfold grouped_by_key. rewrite own_property_map, seen_first_seen.
    destruct (seen k (map fst pre)) eqn:Hs; [reflexivity|].
    now rewrite members_absent. }
  assert (Hstep : match own_property
                          match own_property (grouped_by_key pre) k with
                          | Some _ => grouped_by_key pre
                          | None => set_property (grouped_by_key pre) k []
                          end k with
                  | Some items =>
                    Ok (set_property
                          match own_property (grouped_by_key pre) k with
                          | Some _ => grouped_by_key pre
                          | None => set_property (grouped_by_key pre) k []
                          end k (items ++ [a]))
                  | None =>
                    Ok match own_property (grouped_by_key pre) k with
                       | Some _ => grouped_by_key pre
                       | None => set_property (grouped_by_key pre) k []
                       end
                  end
                  = Ok (set_property (grouped_by_key pre) k (members pre k ++ [a]))).
  { destruct (own_property (grouped_by_key pre) k) as [items|] eqn:Hown.
    - rewrite Hown. now subst items.
    - rewrite own_property_set_property, set_property_twice. now rewrite <- Hold. }
  cbv zeta. rewrite Hstep. f_equal.
  unfold grouped_by_key. rewrite map_app. simpl map at 3.
  rewrite first_seen_snoc.
  destruct (seen k (first_seen (map fst pre))) eqn:Hs.
  - rewrite set_property_map_present by (auto using NoDup_first_seen).
    apply map_ext. intros k'. rewrite members_snoc, (str_eqb_sym k k').
    destruct (str_eqb k' k) eqn:Hk'.
    + apply str_eqb_eq in Hk'. now subst.
    + now rewrite app_nil_r.
  - rewrite set_property_map_absent by exact Hs.
    rewrite map_app. simpl. rewrite members_snoc, str_eqb_refl. f_equal.
    apply map_ext_in. intros k' Hin. rewrite members_snoc.
    destruct (str_eqb k k') eqn:Hk'; [|now rewrite app_nil_r].
    apply str_eqb_eq in Hk'; subst k'. apply seen_false in Hs. contradiction.
Qed.

Lemma group_attempts_spec (items : list value) (keys : list jsstring)
  (pre : list (jsstring * value)) :
  Forall2 (fun a k => history_key a = Ok k) items keys ->
  group_attempts items (grouped_by_key pre)
  = Ok (grouped_by_key (pre ++ combine keys items)).
Proof.
  intros H. revert pre. induction H as [|a k items keys Hk _ IH]; intros pre.
  - simpl. now rewrite app_nil_r.
  - simpl. rewrite (group_attempt_spec pre a Hk). cbn [bind].
    rewrite IH, <- app_assoc. reflexivity.
Qed.

(** A key ends with a closing parenthesis, so it is no array index and
    [Object.entries] lists the groups in creation order. *)
Lemma history_key_not_index (a : value) (k : jsstring) :
  history_key a = Ok k -> array_index k = None.
Proof.
  unfold history_key, txt. cbn [template bind].
  destruct (get a (lit "personality")) as [p|]; cbn [bind]; [|discriminate].
  destruct (to_string (js_or p _)) as [sp|]; cbn [bind]; [|discriminate].
  destruct (get a (lit "round")) as [r|]; cbn [bind]; [|discriminate].
  destruct (to_string (js_or r _)) as [sr|]; cbn [bind]; [|discriminate].
  intros H; apply Ok_inj in H; subst k.
  assert (Hd : forallb is_digit (sp ++ lit " (Round " ++ sr ++ lit ")" ++ []) = false).
  { rewrite !forallb_app.
    replace (forallb is_digit (lit " (Round ")) with false by (vm_compute; reflexivity).
    cbn [andb]. apply andb_false_r. }
  destruct (sp ++ lit " (Round " ++ sr ++ lit ")" ++ []) as [|c rest]; [reflexivity|].
  unfold array_index. now rewrite Hd.
Qed.

(** A key contains the text [ (Round ], so it is none of the names a fresh
    object inherits ([constructor], [toString], [__proto__] and the like):
    [grouped[key]] reads an own property of [grouped] or nothing. *)
Lemma history_key_includes_round (a : value) (k : jsstring) :
  history_key a = Ok k -> includes k (lit " (Round ") = true.
Proof.
  unfold history_key, txt. cbn [template bind].
  destruct (get a (lit "personality")) as [p|]; cbn [bind]; [|discriminate].
  destruct (to_string (js_or p _)) as [sp|]; cbn [bind]; [|discriminate].
  destruct (get a (lit "round")) as [r|]; cbn [bind]; [|discriminate].
  destruct (to_string (js_or r _)) as [sr|]; cbn [bind]; [|discriminate].
  intros H; apply Ok_inj in H; subst k.
  apply includes_app.
Qed.

Lemma entries_no_index (A : Type) (g : list (jsstring * A)) :
  (forall k v, In (k, v) g -> array_index k = None) -> entries g = g.
Proof.
  unfold entries. intros H.
  assert (Hsplit : split_index_keys g = ([], g)).
  { induction g as [|[k v] g IH]; [reflexivity|]. simpl.
    rewrite IH by (intros k' v' Hin; apply (H k' v'); now right).
    now rewrite (H k v) by now left. }
  now rewrite Hsplit.
Qed.

Lemma grouped_keys (keyed : list (jsstring * value)) (k : jsstring) (items : list value) :
  In (k, items) (grouped_by_key keyed) -> In k (map fst keyed).
Proof.
  unfold grouped_by_key. rewrite in_map_iff. intros (k' & Heq & Hin).
  injection Heq as -> _. now apply In_first_seen.
Qed.

Lemma history_keys_not_index (items : list value) (keys : list jsstring) (k : jsstring) :
  Forall2 (fun a k => history_key a = Ok k) items keys ->
  In k keys -> array_index k = None.
Proof.
  induction 1 as [|a k0 items' keys' Hk0 _ IH]; intros Hin; [contradiction|].
  destruct Hin as [->|Hin]; [now apply (history_key_not_index a)|now apply IH].
Qed.

Lemma history_format_groups (args : history_args) (data : value)
  (items : list value) (keys : list jsstring) :
  history_attempts data = Ok (VArr items) ->
  items <> [] ->
  Forall2 (fun a k => history_key a = Ok k) items keys ->
  history_format args data
  = let! body := history_groups (grouped_by_key (combine keys items)) in
    Ok (trim (history_header args (length items) ++ body)).
Proof.
  intros Hdata Hne Hkeys. unfold history_format. rewrite Hdata. cbn [bind get].
  replace (str_eqb (lit "length") (lit "length")) with true
    by (symmetry; apply str_eqb_refl).
  cbn [bind strict_equals_zero num_is_zero].
  replace (Z.of_nat (length items) =? 0)%Z with false
    by (symmetry; apply Z.eqb_neq; destruct items; [contradiction|simpl length; lia]).
  cbn [array_items bind].
  change (@nil (jsstring * list value)) with (grouped_by_key []).
  rewrite (group_attempts_spec [] Hkeys). cbn [bind app].
  rewrite entries_no_index; [reflexivity|].
  intros k v Hin. apply grouped_keys in Hin.
  assert (Hk : In k keys).
  { apply in_map_iff in Hin as ([k' a] & Heq & Hin). simpl in Heq; subst k'.
    now apply in_combine_l in Hin. }
  eapply history_keys_not_index; eassumption.
Qed.

Lemma index_label (i : nat) :
  num_toString (Int (Z.of_nat i + 1)) = decimal_of_nat (S i).
Proof.
  unfold num_toString, decimal_of_Z, decimal_of_nat.
  replace (Z.of_nat i + 1 <? 0)%Z with false by (symmetry; apply Z.ltb_ge; lia).
  f_equal. lia.
Qed.

Lemma history_key_format (a p r : value) (sp sr : jsstring) :
  get a (lit "personality") = Ok p ->
  get a (lit "round") = Ok r ->
  (truthy p = true -> to_string p = Ok sp) ->
  (truthy r = true -> to_string r = Ok sr) ->
  history_key a
  = Ok ((if truthy p then sp else lit "Unknown") ++ lit " (Round "
        ++ (if truthy r then sr else lit "?") ++ lit ")").
Proof.
  intros Hp Hr Hsp Hsr. unfold history_key, txt, js_or. cbn [template bind].
  rewrite Hp, Hr. cbn [bind].
  destruct (truthy p); [rewrite (Hsp eq_refl)|]; cbn [to_string print bind];
    (destruct (truthy r); [rewrite (Hsr eq_refl)|]; cbn [to_string print bind];
     now rewrite app_nil_r).
Qed.

Lemma get_length_array (items : list value) :
  get (VArr items) (lit "length") = Ok (VNum (Int (Z.of_nat (length items)))).
Proof. cbn [get]. now rewrite str_eqb_refl. Qed.

(** With attempts to show, the handler runs its two loops. *)
Lemma history_format_loops (args : history_args) (data : value) (items : list value) :
  history_attempts data = Ok (VArr items) ->
  items <> [] ->
  history_format args data
  = let! grouped := group_attempts items [] in
    let! body := history_groups (entries grouped) in
    Ok (trim (history_header args (length items) ++ body)).
Proof.
  intros Hdata Hne. unfold history_format. rewrite Hdata. cbn [bind].
  rewrite get_length_array. cbn [bind strict_equals_zero num_is_zero].
  replace (Z.of_nat (length items) =? 0)%Z with false
    by (symmetry; apply Z.eqb_neq; destruct items; [contradiction|simpl length; lia]).
  reflexivity.
Qed.

Lemma group_attempts_app (l1 l2 : list value) (g : list (jsstring * list value)) :
  group_attempts (l1 ++ l2) g
  = let! g' := group_attempts l1 g in group_attempts l2 g'.
Proof.
  revert g. induction l1 as [|a l1 IH]; intros g; cbn [app group_attempts bind];
    [reflexivity|].
  destruct (group_attempt g a); cbn [bind]; [apply IH|reflexivity].
Qed.

(** The first attempt whose key cannot be computed ends the grouping. *)
Lemma group_attempts_key_fails (before after : list value) (a : value)
  (keys : list jsstring) (e : thrown) :
  Forall2 (fun a k => history_key a = Ok k) before keys ->
  history_key a = Throw e ->
  group_attempts (before ++ a :: after) [] = Throw e.
Proof.
  intros Hkeys Hk. rewrite group_attempts_app.
  change (@nil (jsstring * list value)) with (grouped_by_key []).
  rewrite (group_attempts_spec [] Hkeys). cbn [bind group_attempts].
  unfold group_attempt. rewrite Hk. reflexivity.
Qed.

Lemma group_attempts_keys (items : list value) (g g' : list (jsstring * list value)) :
  group_attempts items g = Ok g' ->
  exists keys, Forall2 (fun a k => history_key a = Ok k) items keys.
Proof.
  revert g. induction items as [|a items IH]; intros g; cbn [group_attempts].
  - intros _. exists []. constructor.
  - destruct (group_attempt g a) as [g1|] eqn:Hstep; cbn [bind]; [|discriminate].
    intros Hrest. destruct (IH g1 Hrest) as [keys Hkeys].
    unfold group_attempt in Hstep.
    destruct (history_key a) as [k|] eqn:Hk; [|discriminate].
    exists (k :: keys). now constructor.
Qed.

Lemma history_keys_or_failure (items : list value) :
  (exists keys, Forall2 (fun a k => history_key a = Ok k) items keys)
  \/ (exists before a after keys e,
        items = before ++ a :: after
        /\ Forall2 (fun a k => history_key a = Ok k) before keys
        /\ history_key a = Throw e).
Proof.
  induction items as [|a items IH].
  - left. exists []. constructor.
  - destruct (history_key a) as [k|e] eqn:Hk.
    + destruct IH as [[keys Hkeys]|(before & a' & after & keys & e & -> & Hkeys & He)].
      * left. exists (k :: keys). now constructor.
      * right. exists (a :: before), a', after, (k :: keys), e.
        repeat split; [now constructor|exact He].
    + right. exists [], a, items, [], e. repeat split; [constructor|exact Hk].
Qed.

(** The text of a group is its entries one after the other, numbered from
    the position given. *)
Lemma history_items_entries (items : list value) (i : nat) (text : jsstring) :
  history_items i items = Ok text ->
  exists entries,
    Forall2 (fun ia entry => history_item (fst ia) (snd ia) = Ok entry)
      (combine (seq i (length items)) items) entries
    /\ text = concat entries.
Proof.
  revert i text. induction items as [|a items IH]; intros i text; cbn [history_items].
  - intros H; apply Ok_inj in H; subst text. exists []. split; [constructor|reflexivity].
  - destruct (history_item i a) as [t|] eqn:Ha; cbn [bind]; [|discriminate].
    destruct (history_items (S i) items) as [ts|] eqn:Hrest; cbn [bind]; [|discriminate].
    intros H; apply Ok_inj in H; subst text.
    destruct (IH (S i) ts Hrest) as (entries & Hall & ->).
    exists (t :: entries). split; [|reflexivity].
    cbn [length seq combine]. constructor; [exact Ha|exact Hall].
Qed.

Lemma history_groups_blocks (groups : list (jsstring * list value)) (body : jsstring) :
  history_groups groups = Ok body ->
  exists blocks,
    Forall2
      (fun group block =>
         exists entries,
           Forall2 (fun ia entry => history_item (fst ia) (snd ia) = Ok entry)
             (combine (seq 0 (length (snd group))) (snd group)) entries
           /\ block = lit "--- " ++ fst group ++ lit " ---" ++ nl ++ concat entries)
      groups blocks
    /\ body = concat blocks.
Proof.
  revert body. induction groups as [|[k its] groups IH]; intros body; cbn [history_groups].
  - intros H; apply Ok_inj in H; subst body. exists []. split; [constructor|reflexivity].
  - destruct (history_items 0 its) as [t|] eqn:Hits; cbn [bind]; [|discriminate].
    destruct (history_groups groups) as [more|] eqn:Hmore; cbn [bind]; [|discriminate].
    intros H; apply Ok_inj in H; subst body.
    destruct (IH more eq_refl) as (blocks & Hall & ->).
    destruct (history_items_entries _ _ Hits) as (entries & Hentries & ->).
    exists ((lit "--- " ++ k ++ lit " ---" ++ nl ++ concat entries) :: blocks).
    split.
    + constructor; [|exact Hall]. exists entries. split; [exact Hentries|reflexivity].
    + cbn [concat]. now rewrite <- !app_assoc.
Qed.

(** C4, as the code has it.  A non-empty list of attempts, every one with a
    key that can be computed and an entry that can be rendered, is grouped
    by the key "personality (Round round)", in which a missing or falsy
    personality reads [Unknown] and a missing or falsy round reads [?]; the
    groups come in the order in which their keys are first seen, each one
    as a header line and then its attempts in their original order,
    numbered from 1.  An attempt whose key cannot be computed (the attempt
    [null], a personality that cannot be printed) or whose entry cannot be
    rendered (a player that is a number) replaces the whole feed by the
    classifier's text for the error; nothing else can happen.  The example
    of the specification gives two groups, A before B, the first with two
    entries. *)
Theorem history_groups_in_first_seen_order :
  forall (args : history_args) (data : value) (items : list value)
    (net : request -> fetch_outcome),
    (forall req, api_result (net req) = Ok data) ->
    history_attempts data = Ok (VArr items) ->
    items <> [] ->
    (forall (keys : list jsstring) (body : jsstring),
        Forall2 (fun a k => history_key a = Ok k) items keys ->
        history_groups (grouped_by_key (combine keys items)) = Ok body ->
        snd (run net (lucille_history args))
        = Ok (textContent (trim (history_header args (length items) ++ body)))
        /\ exists blocks,
             Forall2
               (fun group block =>
                  exists entries,
                    Forall2 (fun ia entry => history_item (fst ia) (snd ia) = Ok entry)
                      (combine (seq 0 (length (snd group))) (snd group)) entries
                    /\ block = lit "--- " ++ fst group ++ lit " ---" ++ nl ++ concat entries)
               (grouped_by_key (combine keys items)) blocks
             /\ body = concat blocks)
    /\ (forall (i : nat) (a : value) (text : jsstring),
          history_item i a = Ok text ->
          exists rest, text = decimal_of_nat (S i) ++ lit ". [" ++ rest)
    /\ (forall (a p r : value) (sp sr : jsstring),
          get a (lit "personality") = Ok p ->
          get a (lit "round") = Ok r ->
          (truthy p = true -> to_string p = Ok sp) ->
          (truthy r = true -> to_string r = Ok sr) ->
          history_key a
          = Ok ((if truthy p then sp else lit "Unknown") ++ lit " (Round "
                ++ (if truthy r then sr else lit "?") ++ lit ")"))
    /\ (forall (before after : list value) (a : value) (keys : list jsstring)
          (e : thrown),
          items = before ++ a :: after ->
          Forall2 (fun a k => history_key a = Ok k) before keys ->
          history_key a = Throw e ->
          snd (run net (lucille_history args)) = errorContent e)
    /\ (forall (keys : list jsstring) (e : thrown),
          Forall2 (fun a k => history_key a = Ok k) items keys ->
          history_groups (grouped_by_key (combine keys items)) = Throw e ->
          snd (run net (lucille_history args)) = errorContent e)
    /\ ((exists keys, Forall2 (fun a k => history_key a = Ok k) items keys)
        \/ (exists before a after keys e,
              items = before ++ a :: after
              /\ Forall2 (fun a k => history_key a = Ok k) before keys
              /\ history_key a = Throw e))
    /\ group_attempts example_attempts []
       = Ok [(lit "A (Round 1)", [attempt_of "A" 1; attempt_of "A" 1]);
             (lit "B (Round 2)", [attempt_of "B" 2])]
    /\ (forall feed : request -> fetch_outcome,
          (forall req, api_result (feed req) = Ok (VArr example_attempts)) ->
          snd (run feed (lucille_history recent_feed))
          = Ok (textContent (litq "=== Recent 3 Attempts ===

--- A (Round 1) ---
1. [Score: undefined] ???
   Message: ``
   Lucille: ``

2. [Score: undefined] ???
   Message: ``
   Lucille: ``

--- B (Round 2) ---
1. [Score: undefined] ???
   Message: ``
   Lucille: ``"))).
Proof.
  intros args data items net Hnet Hdata Hne.
  unfold lucille_history. rewrite (gateway_get_result _ _ net Hnet).
  split.
  { intros keys body Hkeys Hbody. split.
    - rewrite (history_format_groups args data Hdata Hne Hkeys), Hbody. reflexivity.
    - exact (history_groups_blocks _ Hbody). }
  split.
  { intros i a text Hitem.
    destruct (history_item_lines _ _ Hitem)
      as (badge & source & addr & m & r & _ & _ & _ & _ & _ & ->).
    rewrite index_label. eexists. rewrite <- !app_assoc. reflexivity. }
  split; [exact history_key_format|].
  split.
  { intros before after a keys e Hitems Hkeys Hk.
    rewrite (history_format_loops args data Hdata Hne), Hitems.
    rewrite (@group_attempts_key_fails before after a keys e Hkeys Hk). reflexivity. }
  split.
  { intros keys e Hkeys Hbody.
    rewrite (history_format_groups args data Hdata Hne Hkeys), Hbody. reflexivity. }
  split; [apply history_keys_or_failure|].
  split; [vm_compute; reflexivity|].
  intros feed Hfeed. rewrite (gateway_get_result _ _ feed Hfeed).
  vm_compute. reflexivity.
Qed.

(** *** Failures of the upstream call, tool by tool *)

Lemma handler_failed_response (t : http_tool) (net : request -> fetch_outcome)
  (status : Z) (body : result jsstring) :
  (forall req, net req = Resolved {| res_status := status; res_body := body |}) ->
  res_ok {| res_status := status; res_body := body |} = false ->
  snd (run net (handler t))
  = errorContent (ThrownApiError status (match body with Ok b => b | Throw _ => [] end)).
Proof.
  intros Hnet Hok. destruct (run_handler t net) as (req & format & ->).
  cbn [snd]. rewrite Hnet. unfold api_result. rewrite Hok. reflexivity.
Qed.

Lemma handler_rejected (t : http_tool) (e : thrown) :
  snd (run (fun _ => Rejected e) (handler t)) = errorContent e.
Proof.
  destruct (run_handler t (fun _ => Rejected e)) as (req & format & ->). reflexivity.
Qed.

Lemma handler_response (t : http_tool) (net : request -> fetch_outcome) (data : value) :
  (forall req, api_result (net req) = Ok data) ->
  snd (run net (handler t))
  = match handler_format t data with
    | Ok text => Ok (textContent text)
    | Throw e => errorContent e
    end.
Proof.
  intros Hnet.
  destruct t; cbn [handler handler_format];
    unfold lucille_play, lucille_claim_eth.
    all: try (apply gateway_get_result; exact Hnet).
    - exact (@gateway_post_result _ _ _ _ net data (play_body_stringify _) Hnet).
    - exact (@gateway_post_result _ _ _ _ net data (claim_eth_body_stringify _) Hnet).
Qed.

(** X1.  Status 400: the body of the response is shown as the hint, and a fixed
    hint stands in for a body that is empty or could not be read. *)
Theorem bad_request_shows_upstream_hint :
  forall (t : http_tool) (body : jsstring) (e : thrown),
    snd (run (upstream 400 body) (handler t))
    = Ok (textContent
            (lit "❌ Bad request: "
             ++ match body with
                | [] => lit "Check your parameters."
                | _ :: _ => body
                end
             ++ nl
             ++ lit "Double-check wallet address format (0x... 42 chars) and message length (1-500 chars)."))
    /\ snd (run (fun _ => Resolved {| res_status := 400; res_body := Throw e |}) (handler t))
       = Ok (textContent
               (lit "❌ Bad request: Check your parameters." ++ nl
                ++ lit "Double-check wallet address format (0x... 42 chars) and message length (1-500 chars).")).
Proof.
  intros t body e. split.
  - unfold upstream. rewrite (@handler_failed_response t _ 400%Z (Ok body));
      [|reflexivity|reflexivity].
    destruct body; reflexivity.
  - rewrite (@handler_failed_response t _ 400%Z (Throw e)); [|reflexivity|reflexivity].
    vm_compute. reflexivity.
Qed.

(** X2.  Status 503: the maintenance text, whatever the response carries. *)
Theorem maintenance_text_hides_body :
  forall (t : http_tool) (body : result jsstring),
    snd (run (fun _ => Resolved {| res_status := 503; res_body := body |}) (handler t))
    = Ok (textContent
            (lit "🔧 Lucille is sleeping (maintenance). Try again in a few minutes.")).
Proof.
  intros t body.
  rewrite (@handler_failed_response t _ 503%Z body); reflexivity.
Qed.

(** X3.  Any other status outside 200..299: the status in decimal and the body,
    or [Unknown error] for an empty body. *)
Theorem unexpected_status_reported :
  forall (t : http_tool) (status : Z) (body : jsstring),
    (status < 200 \/ 299 < status)%Z ->
    status <> 429%Z -> status <> 400%Z -> status <> 503%Z ->
    snd (run (upstream status body) (handler t))
    = Ok (textContent
            (lit "❌ API error (" ++ decimal_of_Z status ++ lit "): "
             ++ match body with
                | [] => lit "Unknown error"
                | _ :: _ => body
                end
             ++ nl
             ++ lit "If this persists, the game may be temporarily unavailable.")).
Proof.
  intros t status body Hrange H429 H400 H503.
  unfold upstream. rewrite (@handler_failed_response t _ status (Ok body));
    [|reflexivity|].
  - unfold errorContent.
    apply Z.eqb_neq in H429, H400, H503. rewrite H429, H400, H503.
    destruct body; reflexivity.
  - unfold res_ok. cbn [res_status].
    destruct (Z.leb_spec 200 status); destruct (Z.leb_spec status 299);
      try reflexivity; lia.
Qed.

(** X4.  A rejected [fetch]: an Error that mentions [fetch failed] or
    [ECONNREFUSED] gives the connectivity text, which names the default
    endpoint and not the message; any other Error shows its message; a
    thrown value that is no Error gives the general text. *)
Theorem transport_failures_classified :
  forall t : http_tool,
    (forall message,
        includes message (lit "fetch failed") || includes message (lit "ECONNREFUSED") = true ->
        snd (run (fun _ => Rejected (ThrownError message)) (handler t))
        = Ok (textContent
                (lit "🔌 Cannot reach Lucille API. The server may be down or the URL may be wrong." ++ nl
                 ++ lit "Default: https://lucille.world/api/brain")))
    /\ (forall message,
          includes message (lit "fetch failed") || includes message (lit "ECONNREFUSED") = false ->
          snd (run (fun _ => Rejected (ThrownError message)) (handler t))
          = Ok (textContent (lit "❌ Error: " ++ message)))
    /\ (forall v,
          snd (run (fun _ => Rejected (ThrownValue v)) (handler t))
          = Ok (textContent (lit "❌ An unexpected error occurred. Try again."))).
Proof.
  intros t. repeat split.
  - intros message H. rewrite handler_rejected. unfold errorContent. now rewrite H.
  - intros message H. rewrite handler_rejected. unfold errorContent. now rewrite H.
  - intros v. now rewrite handler_rejected.
Qed.

(** *** The requests *)

Lemma starts_with_app_r (p s rest : jsstring) :
  starts_with p s = true -> starts_with p (s ++ rest) = true.
Proof.
  revert s; induction p as [|c p IH]; intros [|d s]; simpl; try discriminate; auto.
  intros H; apply andb_true_iff in H as [Hc Hp]. now rewrite Hc, IH.
Qed.

Lemma starts_with_common (base p s : jsstring) :
  starts_with (base ++ p) (base ++ s) = starts_with p s.
Proof.
  induction base as [|c base IH]; [reflexivity|].
  simpl. now rewrite N.eqb_refl, IH.
Qed.

Lemma api_path (path rest : jsstring) :
  starts_with (lit "/api/") path = true ->
  starts_with (API_URL ++ lit "/api/") (API_URL ++ path ++ rest) = true.
Proof.
  intros H. rewrite starts_with_common. now apply starts_with_app_r.
Qed.

Lemma requests_under (t : http_tool) (net : request -> fetch_outcome) :
  Forall (fun req => starts_with (API_URL ++ lit "/api/") (req_url req) = true)
    (fst (run net (handler t))).
Proof.
  destruct t; cbn [handler];
    unfold lucille_status, lucille_personality, lucille_play, lucille_history,
      lucille_leaderboard, lucille_my_stats, lucille_round_strategy,
      lucille_claim_eth, lucille_contract_info;
    first [ rewrite run_gateway_get
          | rewrite (@run_gateway_post _ _ _ _ _ (play_body_stringify _))
          | rewrite (@run_gateway_post _ _ _ _ _ (claim_eth_body_stringify _)) ];
    cbv zeta; cbn [fst]; (constructor; [|constructor]); cbn [req_url].
  - rewrite <- (app_nil_r (lit "/api/game-state")). apply api_path. vm_compute. reflexivity.
  - rewrite <- (app_nil_r (lit "/api/personality")). apply api_path. vm_compute. reflexivity.
  - rewrite <- (app_nil_r (lit "/api/agent/play")). apply api_path. vm_compute. reflexivity.
  - unfold history_query. apply api_path. vm_compute. reflexivity.
  - rewrite <- (app_nil_r (lit "/api/personality-history")). apply api_path. vm_compute. reflexivity.
  - apply api_path. vm_compute. reflexivity.
  - rewrite <- (app_nil_r (lit "/api/agent/strategy")). apply api_path. vm_compute. reflexivity.
  - rewrite <- (app_nil_r (lit "/api/drip")). apply api_path. vm_compute. reflexivity.
  - rewrite <- (app_nil_r (lit "/api/game-state")). apply api_path. vm_compute. reflexivity.
Qed.

(** X5.  Every handler sends its one request below [API_URL/api/].  Only [play]
    and [claim_eth] post: with the JSON content type and a body.  The other
    tools send a GET without headers and without a body. *)
Theorem requests_stay_under_api_url :
  forall (t : http_tool) (net : request -> fetch_outcome),
    Forall
      (fun req =>
         starts_with (API_URL ++ lit "/api/") (req_url req) = true
         /\ match t with
            | Play _ | ClaimEth _ =>
              req_method req = POST
              /\ req_headers req = [(lit "Content-Type", lit "application/json")]
              /\ req_body req <> None
            | _ =>
              req_method req = GET /\ req_headers req = [] /\ req_body req = None
            end)
      (fst (run net (handler t))).
Proof.
  intros t net.
  destruct t; cbn [handler];
    unfold lucille_status, lucille_personality, lucille_play, lucille_history,
      lucille_leaderboard, lucille_my_stats, lucille_round_strategy,
      lucille_claim_eth, lucille_contract_info;
    first [ rewrite run_gateway_get
          | rewrite (@run_gateway_post _ _ _ _ _ (play_body_stringify _))
          | rewrite (@run_gateway_post _ _ _ _ _ (claim_eth_body_stringify _)) ];
    cbv zeta; cbn [fst]; (constructor; [|constructor]);
    cbn [req_url req_method req_headers req_body];
    (split; [|repeat split; discriminate]).
  - rewrite <- (app_nil_r (lit "/api/game-state")). apply api_path. vm_compute. reflexivity.
  - rewrite <- (app_nil_r (lit "/api/personality")). apply api_path. vm_compute. reflexivity.
  - rewrite <- (app_nil_r (lit "/api/agent/play")). apply api_path. vm_compute. reflexivity.
  - unfold history_query. apply api_path. vm_compute. reflexivity.
  - rewrite <- (app_nil_r (lit "/api/personality-history")). apply api_path. vm_compute. reflexivity.
  - apply api_path. vm_compute. reflexivity.
  - rewrite <- (app_nil_r (lit "/api/agent/strategy")). apply api_path. vm_compute. reflexivity.
  - rewrite <- (app_nil_r (lit "/api/drip")). apply api_path. vm_compute. reflexivity.
  - rewrite <- (app_nil_r (lit "/api/game-state")). apply api_path. vm_compute. reflexivity.
Qed.

(** X6.  The endpoint is the default one when [LUCILLE_API_URL] is not set or
    is empty; a value that is set is used as it stands, a final slash
    included. *)
Theorem endpoint_configuration :
  forall (t : http_tool) (net : request -> fetch_outcome),
    (LUCILLE_API_URL = None \/ LUCILLE_API_URL = Some [] ->
       Forall (fun req => starts_with (lit "https://lucille.world/api/brain/api/") (req_url req) = true)
         (fst (run net (handler t))))
    /\ (forall url, url <> [] -> LUCILLE_API_URL = Some url ->
          Forall (fun req => starts_with (url ++ lit "/api/") (req_url req) = true)
            (fst (run net (handler t)))).
Proof.
  intros t net. split.
  - intros H.
    assert (Hurl : API_URL = lit "https://lucille.world/api/brain")
      by (unfold API_URL; destruct H as [-> | ->]; reflexivity).
    pose proof (requests_under t net) as Hreq. rewrite Hurl in Hreq.
    replace (lit "https://lucille.world/api/brain/api/")
      with (lit "https://lucille.world/api/brain" ++ lit "/api/")
      by (vm_compute; reflexivity).
    exact Hreq.
  - intros url Hne H.
    assert (Hurl : API_URL = url)
      by (unfold API_URL; rewrite H; destruct url; [contradiction|reflexivity]).
    pose proof (requests_under t net) as Hreq. now rewrite Hurl in Hreq.
Qed.

(** *** A response that is [null] *)

Lemma upstream_json (body : jsstring) (data : value) :
  JSON_parse body = Ok data ->
  forall req, api_result (upstream 200 body req) = Ok data.
Proof. intros H req. unfold upstream, api_result. cbn. exact H. Qed.

(** X7.  The JSON text [null] is a valid response that has no field to read:
    each handler answers with the classifier's text for the TypeError of
    its first read. *)
Theorem null_response_reported :
  forall t : http_tool,
    snd (run (upstream 200 (lit "null")) (handler t))
    = errorContent
        (TypeError
           (ReadOfNull
              (lit match t with
                   | Status => "round"
                   | Personality => "name"
                   | Play _ => "score"
                   | History _ => "attempts"
                   | Leaderboard => "history"
                   | MyStats _ => "total_attempts"
                   | RoundStrategy => "round"
                   | ClaimEth _ => "status"
                   | ContractInfo => "baseCost"
                   end))).
Proof.
  intros t.
  rewrite (@handler_response t (upstream 200 (lit "null")) VNull)
    by (apply upstream_json; vm_compute; reflexivity).
  destruct t; reflexivity.
Qed.

(** *** What [JSON.parse] reads back from [JSON.stringify] *)

Lemma hex_value_hex_digit (n : N) : (n < 16)%N -> hex_value (hex_digit n) = Some n.
Proof.
  intros H. unfold hex_value, hex_digit, is_digit.
  destruct (N.ltb_spec n 10);
    repeat match goal with
           | |- context [N.leb ?a ?b] => destruct (N.leb_spec a b); try lia
           end;
    cbn [andb]; f_equal; lia.
Qed.

Lemma hex4_digits (c : N) :
  (c < 65536)%N ->
  hex4 (hex_digit (c / 4096)) (hex_digit ((c / 256) mod 16))
    (hex_digit ((c / 16) mod 16)) (hex_digit (c mod 16)) = Some c.
Proof.
  intros H. unfold hex4.
  rewrite !hex_value_hex_digit;
    try (apply N.mod_lt; discriminate);
    try (apply N.Div0.div_lt_upper_bound; lia).
  f_equal. zify. Z.to_euclidean_division_equations. lia.
Qed.

Lemma parse_plain_char (c : char16) (rest acc : jsstring) :
  N.eqb c 34 = false -> N.eqb c 92 = false -> (c <? 32)%N = false ->
  parse_string_chars (c :: rest) acc = parse_string_chars rest (c :: acc).
Proof. intros H34 H92 H32. cbn [parse_string_chars]. now rewrite H34, H92, H32. Qed.

Lemma parse_short_escape (e x : char16) (rest acc : jsstring) :
  N.eqb e 117 = false -> escape_char e = Some x ->
  parse_string_chars (92%N :: e :: rest) acc = parse_string_chars rest (x :: acc).
Proof.
  intros H117 Hesc. cbn [parse_string_chars].
  change (N.eqb 92 34) with false. change (N.eqb 92 92) with true. cbv iota.
  now rewrite H117, Hesc.
Qed.

Lemma parse_unicode_escape (c : char16) (rest acc : jsstring) :
  (c < 65536)%N ->
  parse_string_chars (unicode_escape c ++ rest) acc = parse_string_chars rest (c :: acc).
Proof.
  intros H. unfold unicode_escape. cbn [app parse_string_chars].
  change (N.eqb 92 34) with false. change (N.eqb 92 92) with true.
  change (N.eqb 117 117) with true. cbv iota.
  now rewrite hex4_digits.
Qed.

(** A quoted string reads back as the string it was, whatever it holds:
    quotes, backslashes, control characters, lone surrogates. *)
Lemma parse_quote_chars (n : nat) :
  forall (s rest acc : jsstring),
    length s <= n ->
    parse_string_chars (quote_chars s ++ 34%N :: rest) acc = Some (rev acc ++ s, rest).
Proof.
  induction n as [|n IH]; intros s rest acc Hlen.
  - destruct s; [|simpl in Hlen; lia].
    cbn [quote_chars app parse_string_chars]. change (N.eqb 34 34) with true.
    cbv iota. now rewrite app_nil_r.
  - destruct s as [|c r].
    { cbn [quote_chars app parse_string_chars]. change (N.eqb 34 34) with true.
      cbv iota. now rewrite app_nil_r. }
    simpl in Hlen.
    assert (Hnext : forall x, parse_string_chars (quote_chars r ++ 34%N :: rest) (x :: acc)
                               = Some (rev acc ++ x :: r, rest)).
    { intros x. rewrite IH by lia. cbn [rev]. now rewrite <- app_assoc. }
    cbn [quote_chars].
    destruct (N.eqb c 8) eqn:H8.
    { apply N.eqb_eq in H8; subst c. change (lit "\b") with [92; 98]%N.
      cbn [app]. rewrite (@parse_short_escape 98%N 8%N _ _) by reflexivity. apply Hnext. }
    destruct (N.eqb c 9) eqn:H9.
    { apply N.eqb_eq in H9; subst c. change (lit "\t") with [92; 116]%N.
      cbn [app]. rewrite (@parse_short_escape 116%N 9%N _ _) by reflexivity. apply Hnext. }
    destruct (N.eqb c 10) eqn:H10.
    { apply N.eqb_eq in H10; subst c. change (lit "\n") with [92; 110]%N.
      cbn [app]. rewrite (@parse_short_escape 110%N 10%N _ _) by reflexivity. apply Hnext. }
    destruct (N.eqb c 12) eqn:H12.
    { apply N.eqb_eq in H12; subst c. change (lit "\f") with [92; 102]%N.
      cbn [app]. rewrite (@parse_short_escape 102%N 12%N _ _) by reflexivity. apply Hnext. }
    destruct (N.eqb c 13) eqn:H13.
    { apply N.eqb_eq in H13; subst c. change (lit "\r") with [92; 114]%N.
      cbn [app]. rewrite (@parse_short_escape 114%N 13%N _ _) by reflexivity. apply Hnext. }
    destruct (N.eqb c 34) eqn:H34.
    { apply N.eqb_eq in H34; subst c.
      cbn [app]. rewrite (@parse_short_escape 34%N 34%N _ _) by reflexivity. apply Hnext. }
    destruct (N.eqb c 92) eqn:H92.
    { apply N.eqb_eq in H92; subst c.
      cbn [app]. rewrite (@parse_short_escape 92%N 92%N _ _) by reflexivity. apply Hnext. }
    destruct (c <? 32)%N eqn:H32.
    { rewrite <- app_assoc, parse_unicode_escape by (apply N.ltb_lt in H32; lia).
      apply Hnext. }
    destruct (is_high_surrogate c) eqn:Hhi.
    { unfold is_high_surrogate in Hhi. apply andb_true_iff in Hhi as [Hlo Hup].
      apply N.leb_le in Hlo, Hup.
      destruct r as [|d r'].
      - rewrite parse_unicode_escape by lia.
        cbn [parse_string_chars]. change (N.eqb 34 34) with true. cbv iota.
        reflexivity.
      - destruct (is_low_surrogate d) eqn:Hd.
        + unfold is_low_surrogate in Hd. apply andb_true_iff in Hd as [Hdl Hdu].
          apply N.leb_le in Hdl, Hdu.
          cbn [app]. rewrite parse_plain_char by assumption.
          rewrite parse_plain_char
            by first [apply N.eqb_neq; lia | apply N.ltb_ge; lia].
          simpl in Hlen. rewrite IH by lia.
          cbn [rev]. now rewrite <- !app_assoc.
        + rewrite <- app_assoc, parse_unicode_escape by lia. apply Hnext. }
    destruct (is_low_surrogate c) eqn:Hlow.
    { unfold is_low_surrogate in Hlow. apply andb_true_iff in Hlow as [Hlo Hup].
      apply N.leb_le in Hlo, Hup.
      rewrite <- app_assoc, parse_unicode_escape by lia. apply Hnext. }
    cbn [app]. rewrite parse_plain_char by assumption. apply Hnext.
Qed.

Lemma parse_quoted (s rest acc : jsstring) :
  parse_string_chars (quote_chars s ++ 34%N :: rest) acc = Some (rev acc ++ s, rest).
Proof. apply (@parse_quote_chars (length s)). apply le_n. Qed.

Lemma skip_ws_char (c : char16) (r : jsstring) :
  is_json_ws c = false -> skip_ws (c :: r) = c :: r.
Proof. intros H. cbn [skip_ws]. now rewrite H. Qed.

Lemma skip_ws_app (w x : jsstring) :
  forallb is_json_ws w = true -> skip_ws (w ++ x) = skip_ws x.
Proof.
  induction w as [|c w IH]; [reflexivity|].
  cbn [forallb app skip_ws]. intros H. apply andb_true_iff in H as [Hc Hw].
  rewrite Hc. now apply IH.
Qed.

Lemma of_uint_acc_fold (d : Decimal.uint) :
  forall acc : positive,
    N.pos (Pos.of_uint_acc d acc)
    = fold_left (fun a x => a * 10 + x)%N
        (map (fun c => c - 48)%N (chars_of_uint d)) (N.pos acc).
Proof.
  induction d; intros acc; cbn [Pos.of_uint_acc chars_of_uint map fold_left];
    [reflexivity|rewrite IHd; f_equal; lia ..].
Qed.

Lemma of_uint_fold (d : Decimal.uint) :
  N.of_uint d
  = fold_left (fun a x => a * 10 + x)%N (map (fun c => c - 48)%N (chars_of_uint d)) 0%N.
Proof.
  unfold N.of_uint.
  induction d; cbn [Pos.of_uint chars_of_uint map fold_left];
    [reflexivity|exact IHd|rewrite of_uint_acc_fold; f_equal ..].
Qed.

Lemma take_digits_uint (d : Decimal.uint) (rest : jsstring) :
  match rest with c :: _ => is_digit c = false | [] => True end ->
  take_digits (chars_of_uint d ++ rest)
  = (map (fun c => c - 48)%N (chars_of_uint d), rest).
Proof.
  intros Hrest.
  induction d; cbn [chars_of_uint map app take_digits];
    [|change (is_digit _) with true; cbv iota; now rewrite IHd ..].
  destruct rest as [|c rest]; [reflexivity|]. cbn [take_digits]. now rewrite Hrest.
Qed.

Lemma to_uint_leading (n : N) (l : Decimal.uint) :
  N.to_uint n = Decimal.D0 l -> l = Decimal.Nil.
Proof.
  intros H.
  pose proof (DecimalN.Unsigned.to_of (N.to_uint n)) as Hnorm.
  rewrite DecimalN.Unsigned.of_to, H in Hnorm.
  change (Decimal.unorm (Decimal.D0 l)) with (Decimal.unorm l) in Hnorm.
  destruct (Decimal.uint_eq_dec l Decimal.Nil) as [Hnil|Hnil]; [exact Hnil|].
  pose proof (DecimalFacts.nb_digits_unorm l Hnil) as Hlen.
  rewrite <- Hnorm in Hlen. cbn [Decimal.nb_digits] in Hlen. lia.
Qed.

Lemma decimal_head (n : N) :
  exists c tail, decimal_of_N n = c :: tail /\ is_digit c = true.
Proof.
  unfold decimal_of_N.
  destruct (N.to_uint n) eqn:H; cbn [chars_of_uint]; eauto.
  destruct n; [discriminate|].
  now apply DecimalPos.Unsigned.to_uint_nonnil in H.
Qed.

Lemma digit_is_plain (c : char16) :
  is_digit c = true ->
  is_json_ws c = false /\ N.eqb c 45 = false /\ N.eqb c 34 = false
  /\ N.eqb c 91 = false /\ N.eqb c 123 = false
  /\ N.eqb 110 c = false /\ N.eqb 116 c = false /\ N.eqb 102 c = false.
Proof.
  unfold is_digit, is_json_ws. intros H. apply andb_true_iff in H as [Hlo Hhi].
  apply N.leb_le in Hlo, Hhi. cbn [existsb].
  repeat match goal with
         | |- context [N.eqb ?a ?b] =>
           let Hne := fresh in
           destruct (N.eqb_spec a b) as [Hne|Hne]; [exfalso; lia|]
         end.
  repeat split; reflexivity.
Qed.

Lemma digits_value_decimal (n : N) :
  digits_to_Z (map (fun c => c - 48)%N (decimal_of_N n)) = Z.of_N n.
Proof.
  unfold digits_to_Z, decimal_of_N.
  now rewrite <- of_uint_fold, DecimalN.Unsigned.of_to.
Qed.

Lemma parse_number_decimal (neg : bool) (n : N) (rest : jsstring) :
  delimited rest = true ->
  parse_number (((if neg then [45%N] else []) : jsstring) ++ decimal_of_N n ++ rest)
  = Some ({| numeral_neg := neg;
             numeral_int := map (fun c => c - 48)%N (decimal_of_N n);
             numeral_frac := []; numeral_exp := 0 |}, rest).
Proof.
  intros Hrest.
  destruct (decimal_head n) as (c & tail & Hd & Hc).
  destruct (digit_is_plain _ Hc) as (_ & H45 & _).
  assert (Hnodigit : match rest with c :: _ => is_digit c = false | [] => True end).
  { destruct rest as [|x rest]; [exact I|]. cbn [delimited] in Hrest.
    apply negb_true_iff in Hrest. now destruct (is_digit x). }
  assert (Hlead : match map (fun c => c - 48)%N (decimal_of_N n) with
                  | [] => False
                  | d :: more =>
                    N.eqb d 0 && negb (match more with [] => true | _ => false end) = false
                  end).
  { unfold decimal_of_N.
    destruct (N.to_uint n) as [|l|l|l|l|l|l|l|l|l|l] eqn:Hu; cbn [chars_of_uint map];
      try reflexivity.
    - destruct n; [discriminate|].
      now apply DecimalPos.Unsigned.to_uint_nonnil in Hu.
    - rewrite (to_uint_leading _ Hu). reflexivity. }
  assert (Hafter : match rest with
                   | [] => True
                   | x :: _ => N.eqb x 46 = false /\ N.eqb x 101 || N.eqb x 69 = false
                   end).
  { destruct rest as [|x rest]; [exact I|].
    cbn [delimited] in Hrest. apply negb_true_iff in Hrest.
    apply orb_false_iff in Hrest as [Hrest H69].
    apply orb_false_iff in Hrest as [Hrest H101].
    apply orb_false_iff in Hrest as [_ H46].
    now rewrite H46, H101, H69. }
  unfold parse_number. destruct neg; cbn [app];
    [ change (N.eqb 45 45) with true; cbv beta iota
    | rewrite Hd; cbn [app]; rewrite H45; cbv beta iota;
      change (c :: tail ++ rest) with ((c :: tail) ++ rest); rewrite <- Hd ].
  all: unfold decimal_of_N at 1; rewrite take_digits_uint by exact Hnodigit;
    fold (decimal_of_N n);
    destruct (map (fun c => c - 48)%N (decimal_of_N n)) as [|d more]; [contradiction|];
    rewrite Hlead;
    destruct rest as [|x rest]; [reflexivity|];
    destruct Hafter as [H46 Hexp]; now rewrite H46, Hexp.
Qed.

Lemma parse_integer (f : nat) (z : Z) (rest : jsstring) :
  delimited rest = true ->
  (length (decimal_of_N (Z.abs_N z)) <=? 15)%nat = true ->
  parse_value (S f) (decimal_of_Z z ++ rest) = Some (VNum (Int z), rest).
Proof.
  intros Hrest Hlen.
  assert (Htext : decimal_of_Z z
                  = ((if (z <? 0)%Z then [45%N] else []) : jsstring) ++ decimal_of_N (Z.abs_N z)).
  { unfold decimal_of_Z. destruct z; reflexivity. }
  assert (Hnum : num_of_literal
                   {| numeral_neg := (z <? 0)%Z;
                      numeral_int := map (fun c => c - 48)%N (decimal_of_N (Z.abs_N z));
                      numeral_frac := []; numeral_exp := 0 |} = Int z).
  { unfold num_of_literal. cbn [numeral_frac numeral_exp numeral_int numeral_neg].
    assert (Hlen' : (length (map (fun c => c - 48)%N (decimal_of_N (Z.abs_N z))) <=? 15)%nat
                    = true) by (rewrite length_map; exact Hlen).
    rewrite Hlen'. cbn [Z.eqb andb]. rewrite digits_value_decimal.
    f_equal. destruct z; reflexivity. }
  rewrite Htext, <- app_assoc.
  pose proof (parse_number_decimal (z <? 0)%Z (Z.abs_N z) rest Hrest) as Hparse.
  destruct (decimal_head (Z.abs_N z)) as (c & tail & Hd & Hc).
  destruct (digit_is_plain _ Hc) as (Hws & H45 & H34 & H91 & H123 & Hn & Ht & Hf).
  remember (((if (z <? 0)%Z then [45%N] else []) : jsstring) ++ decimal_of_N (Z.abs_N z) ++ rest)
    as text eqn:Hdef.
  assert (Hfirst : exists x r,
             text = x :: r /\ is_json_ws x = false /\ N.eqb x 34 = false
             /\ N.eqb x 91 = false /\ N.eqb x 123 = false
             /\ N.eqb 110 x = false /\ N.eqb 116 x = false /\ N.eqb 102 x = false).
  { rewrite Hdef. clear Hdef Hparse Hnum Htext. destruct (z <? 0)%Z; cbn [app].
    - exists 45%N, (decimal_of_N (Z.abs_N z) ++ rest). repeat split; reflexivity.
    - rewrite Hd. cbn [app]. exists c, (tail ++ rest). repeat split; assumption. }
  destruct Hfirst as (x & r & Hx & Hxws & Hx34 & Hx91 & Hx123 & Hxn & Hxt & Hxf).
  cbn [parse_value]. rewrite Hx, skip_ws_char by exact Hxws.
  rewrite Hx34, Hx91, Hx123.
  change (lit "null") with (110%N :: lit "ull").
  change (lit "true") with (116%N :: lit "rue").
  change (lit "false") with (102%N :: lit "alse").
  cbn [starts_with]. rewrite Hxn, Hxt, Hxf. cbn [andb].
  rewrite <- Hx, Hparse, Hnum. reflexivity.
Qed.

Lemma parse_value_ws (f : nat) (w s : jsstring) :
  forallb is_json_ws w = true -> parse_value (S f) (w ++ s) = parse_value (S f) s.
Proof. intros H. cbn [parse_value]. now rewrite skip_ws_app. Qed.

Lemma parse_members_ws (f : nat) (w s : jsstring) (acc : list (jsstring * value)) :
  forallb is_json_ws w = true ->
  parse_members (S f) (w ++ s) acc = parse_members (S f) s acc.
Proof. intros H. cbn [parse_members]. now rewrite skip_ws_app. Qed.

Lemma parse_string_value (f : nat) (s rest : jsstring) :
  parse_value (S f) (quote s ++ rest) = Some (VStr s, rest).
Proof.
  unfold quote, dquote. rewrite <- !app_assoc. cbn [app parse_value].
  rewrite skip_ws_char by reflexivity.
  change (N.eqb 34 34) with true. cbv iota. now rewrite parse_quoted.
Qed.

Lemma parse_keyword (f : nat) (word : string) (v : value) (rest : jsstring) :
  (word, v) = ("null"%string, VNull) \/ (word, v) = ("true"%string, VBool true)
  \/ (word, v) = ("false"%string, VBool false) ->
  parse_value (S f) (lit word ++ rest) = Some (v, rest).
Proof.
  intros [H | [H | H]]; injection H as -> ->.
  - change (lit "null") with [110; 117; 108; 108]%N. reflexivity.
  - change (lit "true") with [116; 114; 117; 101]%N. reflexivity.
  - change (lit "false") with [102; 97; 108; 115; 101]%N. reflexivity.
Qed.

(** A scalar reads back as itself from the text [JSON.stringify] gives it. *)
Lemma parse_scalar (f : nat) (v : value) (rest : jsstring) :
  scalar v = true -> delimited rest = true ->
  parse_value (S f) (scalar_text v ++ rest) = Some (v, rest).
Proof.
  intros Hv Hrest. destruct v as [| |[|]|[z|x]|s| |]; try discriminate; cbn [scalar_text].
  - apply parse_keyword. auto.
  - apply parse_keyword. auto.
  - apply parse_keyword. auto.
  - now apply parse_integer.
  - apply parse_string_value.
Qed.

Lemma delimited_ws (w rest : jsstring) :
  forallb is_json_ws w = true -> delimited (w ++ 125%N :: rest) = true.
Proof.
  destruct w as [|c w]; [reflexivity|].
  cbn [forallb app delimited]. intros H. apply andb_true_iff in H as [Hc _].
  unfold is_json_ws in Hc. cbn [existsb] in Hc. unfold is_digit.
  repeat match type of Hc with
         | (N.eqb ?a ?b || _) = true =>
           destruct (N.eqb_spec a b) as [->|_]; [reflexivity|cbn [orb] in Hc]
         end.
  discriminate.
Qed.

Lemma scalar_member_app (ws2 : jsstring) (kv : jsstring * value) (rest : jsstring) :
  scalar_member (58%N :: ws2) kv ++ rest
  = 34%N :: quote_chars (fst kv) ++ 34%N :: 58%N :: ws2 ++ scalar_text (snd kv) ++ rest.
Proof.
  unfold scalar_member, quote, dquote.
  repeat first [rewrite <- app_assoc | progress cbn [app]]. reflexivity.
Qed.

Lemma parse_scalar_member (f : nat) (k ws2 rest : jsstring) (v : value)
  (acc : list (jsstring * value)) :
  scalar v = true -> delimited rest = true -> forallb is_json_ws ws2 = true ->
  parse_members (S (S f))
    (34%N :: quote_chars k ++ 34%N :: 58%N :: ws2 ++ scalar_text v ++ rest) acc
  = match skip_ws rest with
    | c :: r' =>
      if N.eqb c 44 then parse_members (S f) r' (set_property acc k v)
      else if N.eqb c 125 then Some (VObj (set_property acc k v), r')
      else None
    | [] => None
    end.
Proof.
  intros Hv Hrest Hws. cbn [parse_members]. rewrite skip_ws_char by reflexivity.
  change (N.eqb 34 34) with true. cbv iota.
  rewrite parse_quoted. cbn [rev app]. rewrite skip_ws_char by reflexivity.
  change (N.eqb 58 58) with true. cbv iota.
  rewrite parse_value_ws by exact Hws.
  rewrite parse_scalar by assumption. reflexivity.
Qed.

Lemma parse_scalar_members (ws1 ws2 ws3 : jsstring) (kvs : list (jsstring * value)) :
  forallb is_json_ws ws1 = true -> forallb is_json_ws ws2 = true ->
  forallb is_json_ws ws3 = true ->
  forall (f : nat) (rest : jsstring) (acc : list (jsstring * value)),
    kvs <> [] -> length kvs <= f -> forallb (fun kv => scalar (snd kv)) kvs = true ->
    parse_members (S f)
      (ws1 ++ join_with (44%N :: ws1) (map (scalar_member (58%N :: ws2)) kvs)
           ++ ws3 ++ 125%N :: rest) acc
    = Some (VObj (members_from kvs acc), rest).
Proof.
  intros Hws1 Hws2 Hws3.
  induction kvs as [|kv more IH]; intros f rest acc Hne Hlen Hall; [contradiction|].
  destruct f as [|f]; [simpl in Hlen; lia|].
  cbn [forallb] in Hall. apply andb_true_iff in Hall as [Hkv Hmore].
  rewrite parse_members_ws by exact Hws1.
  destruct more as [|kv2 more].
  - cbn [map join_with]. rewrite scalar_member_app, parse_scalar_member;
      [|exact Hkv|now apply delimited_ws|exact Hws2].
    rewrite skip_ws_app by exact Hws3. rewrite skip_ws_char by reflexivity.
    change (N.eqb 125 44) with false. change (N.eqb 125 125) with true. reflexivity.
  - change (join_with (44%N :: ws1) (map (scalar_member (58%N :: ws2)) (kv :: kv2 :: more)))
      with (scalar_member (58%N :: ws2) kv ++ (44%N :: ws1)
            ++ join_with (44%N :: ws1) (map (scalar_member (58%N :: ws2)) (kv2 :: more))).
    rewrite <- !app_assoc. cbn [app].
    rewrite scalar_member_app, parse_scalar_member;
      [|exact Hkv|reflexivity|exact Hws2].
    rewrite skip_ws_char by reflexivity.
    change (N.eqb 44 44) with true. cbv iota.
    rewrite IH by (try discriminate; try assumption; simpl in Hlen |- *; lia).
    reflexivity.
Qed.

(** An object of scalars, printed by [JSON.stringify] compactly or with
    indentation, reads back as the object with these members. *)
Lemma JSON_parse_scalar_object (ws1 ws2 ws3 : jsstring) (kvs : list (jsstring * value)) :
  forallb is_json_ws ws1 = true -> forallb is_json_ws ws2 = true ->
  forallb is_json_ws ws3 = true ->
  kvs <> [] -> forallb (fun kv => scalar (snd kv)) kvs = true ->
  JSON_parse (scalar_object ws1 ws2 ws3 kvs) = Ok (VObj (members_from kvs [])).
Proof.
  intros Hws1 Hws2 Hws3 Hne Hall. unfold JSON_parse.
  set (text := scalar_object ws1 ws2 ws3 kvs).
  rewrite <- (@JSON_parse_fuel text (S (S (length kvs + (2 * length text + 2))))) by lia.
  subst text. unfold scalar_object.
  cbn [parse_value]. rewrite skip_ws_char by reflexivity.
  change (N.eqb 123 34) with false. change (N.eqb 123 91) with false.
  change (N.eqb 123 123) with true. cbv iota.
  rewrite skip_ws_app by exact Hws1.
  destruct kvs as [|kv more]; [contradiction|].
  assert (Hhead : exists tail,
             join_with (44%N :: ws1) (map (scalar_member (58%N :: ws2)) (kv :: more))
               ++ ws3 ++ [125%N]
             = 34%N :: tail).
  { destruct more as [|kv2 more].
    - cbn [map join_with]. rewrite scalar_member_app. eauto.
    - change (join_with (44%N :: ws1) (map (scalar_member (58%N :: ws2)) (kv :: kv2 :: more)))
        with (scalar_member (58%N :: ws2) kv ++ (44%N :: ws1)
              ++ join_with (44%N :: ws1) (map (scalar_member (58%N :: ws2)) (kv2 :: more))).
      rewrite <- app_assoc, scalar_member_app. eauto. }
  destruct Hhead as [tail Hhead].
  rewrite Hhead at 1. rewrite skip_ws_char by reflexivity.
  change (N.eqb 34 125) with false. cbv iota.
  rewrite parse_scalar_members by (try discriminate; try assumption; lia).
  reflexivity.
Qed.

(** X8.  The body [claim_eth] posts is JSON that reads back as an object with
    the one member [address], holding the address exactly as it was given,
    whatever characters it is made of. *)
Theorem claim_eth_body_reads_back :
  forall (address : jsstring) (net : request -> fetch_outcome),
    exists body,
      map req_body (fst (run net (lucille_claim_eth address))) = [Some body]
      /\ JSON_parse body = Ok (VObj [(lit "address", VStr address)]).
Proof.
  intros address net. unfold lucille_claim_eth.
  rewrite (@run_gateway_post _ _ _ _ _ (claim_eth_body_stringify _)).
  cbv zeta. cbn [fst map req_body].
  exists (scalar_object [] [] [] [(lit "address", VStr address)]).
  split.
  - reflexivity.
  - rewrite JSON_parse_scalar_object by (reflexivity || discriminate). reflexivity.
Qed.

(** X9.  The body [play] posts reads back as the message and the player as
    given, followed by [tx_hash] and [agent_name] when they were given: an
    argument that is absent is no member of the object. *)
Theorem play_body_reads_back :
  forall (a : play_args) (net : request -> fetch_outcome),
    exists body,
      map req_body (fst (run net (lucille_play a))) = [Some body]
      /\ JSON_parse body
         = Ok (VObj
                 ([(lit "message", VStr (play_message a));
                   (lit "player", VStr (play_player a))]
                  ++ match play_tx_hash a with
                     | Some h => [(lit "tx_hash", VStr h)]
                     | None => []
                     end
                  ++ match play_agent_name a with
                     | Some n => [(lit "agent_name", VStr n)]
                     | None => []
                     end)).
Proof.
  intros [message player tx_hash agent_name] net. unfold lucille_play.
  rewrite (@run_gateway_post _ _ _ _ _ (play_body_stringify _)).
  cbv zeta. cbn [fst map req_body play_message play_player
                                            play_tx_hash play_agent_name].
  exists (scalar_object [] [] []
            ([(lit "message", VStr message); (lit "player", VStr player)]
             ++ match tx_hash with Some h => [(lit "tx_hash", VStr h)] | None => [] end
             ++ match agent_name with Some n => [(lit "agent_name", VStr n)] | None => [] end)).
  split.
  - destruct tx_hash, agent_name; reflexivity.
  - rewrite JSON_parse_scalar_object
      by (destruct tx_hash, agent_name; reflexivity || discriminate).
    destruct tx_hash, agent_name; reflexivity.
Qed.

(** *** The history feed *)

(** X10.  No attempt to show: an empty array, or a response that is no array
    and whose [attempts] is missing, falsy or empty.  The filters play no
    part. *)
Theorem history_without_attempts :
  forall (args : history_args) (data : value) (net : request -> fetch_outcome),
    (forall req, api_result (net req) = Ok data) ->
    (data = VArr []
     \/ (isArray data = false
         /\ exists x, get data (lit "attempts") = Ok x
                      /\ (truthy x = false \/ x = VArr []))) ->
    snd (run net (lucille_history args))
    = Ok (textContent (lit "No attempts found for the given filters.")).
Proof.
  intros args data net Hnet Hdata. unfold lucille_history.
  rewrite (gateway_get_result _ _ net Hnet).
  assert (Hatt : history_attempts data = Ok (VArr [])).
  { unfold history_attempts.
    destruct Hdata as [-> | (Harr & x & Hget & Hx)]; [reflexivity|].
    rewrite Harr, Hget. cbn [bind]. unfold js_or.
    destruct Hx as [-> | ->]; reflexivity. }
  unfold history_format. rewrite Hatt. cbn [bind].
  rewrite get_length_array. reflexivity.
Qed.

Lemma trim_start_head (s : jsstring) (c : char16) (r : jsstring) :
  trim_start s = c :: r -> is_js_whitespace c = false.
Proof.
  induction s as [|a s IH]; cbn [trim_start]; [discriminate|].
  destruct (is_js_whitespace a) eqn:Ha; [exact IH|].
  intros H; injection H as <- _. exact Ha.
Qed.

Lemma trim_start_suffix (s : jsstring) : exists pre, s = pre ++ trim_start s.
Proof.
  induction s as [|a s [pre IH]]; [now exists []|].
  cbn [trim_start]. destruct (is_js_whitespace a).
  - exists (a :: pre). cbn [app]. now rewrite <- IH.
  - now exists [].
Qed.

Lemma trim_start_app (l m : jsstring) (c : char16) :
  is_js_whitespace c = false -> trim_start (l ++ c :: m) = trim_start l ++ c :: m.
Proof.
  intros Hc. induction l as [|a l IH]; cbn [app trim_start].
  - now rewrite Hc.
  - destruct (is_js_whitespace a); [exact IH|reflexivity].
Qed.


Lemma trim_first (s : jsstring) (c : char16) (r : jsstring) :
  trim s = c :: r -> is_js_whitespace c = false.
Proof.
  unfold trim. intros H.
  destruct (trim_start_suffix (rev (trim_start s))) as [pre Hpre].
  apply (f_equal (@rev char16)) in Hpre. rewrite rev_involutive, rev_app_distr, H in Hpre.
  cbn [app] in Hpre. exact (trim_start_head _ Hpre).
Qed.

Lemma trim_last (s p : jsstring) (c : char16) :
  trim s = p ++ [c] -> is_js_whitespace c = false.
Proof.
  unfold trim. intros H.
  apply (f_equal (@rev char16)) in H. rewrite rev_involutive, rev_app_distr in H.
  cbn [rev app] in H. exact (trim_start_head _ H).
Qed.

Lemma history_format_trimmed (args : history_args) (data : value) (text : jsstring) :
  history_format args data = Ok text -> exists s, text = trim s.
Proof.
  unfold history_format.
  destruct (history_attempts data) as [attempts|]; cbn [bind]; [|discriminate].
  destruct (get attempts (lit "length")) as [len|]; cbn [bind]; [|discriminate].
  destruct (strict_equals_zero len).
  - intros H; apply Ok_inj in H; subst text.
    exists (lit "No attempts found for the given filters."). vm_compute. reflexivity.
  - destruct (array_items _ _ attempts) as [items|]; cbn [bind]; [|discriminate].
    destruct (group_attempts items []) as [grouped|]; cbn [bind]; [|discriminate].
    destruct (history_groups (entries grouped)) as [body|]; cbn [bind]; [|discriminate].
    intros H; apply Ok_inj in H; subst text. eauto.
Qed.

(** X11.  The text of [history] neither starts nor ends with white space: every
    entry ends with an empty line, and the last one is cut off. *)
Theorem history_text_is_trimmed :
  forall (args : history_args) (data : value) (text : jsstring),
    history_format args data = Ok text ->
    (forall c rest, text = c :: rest -> is_js_whitespace c = false)
    /\ (forall start c, text = start ++ [c] -> is_js_whitespace c = false).
Proof.
  intros args data text H. destruct (history_format_trimmed _ _ H) as [s ->].
  split.
  - intros c rest Hs. exact (@trim_first s c rest Hs).
  - intros start c Hs. exact (@trim_last s start c Hs).
Qed.




(** *** Grouping keeps every attempt *)

Lemma own_property_absent (A : Type) (g : list (jsstring * A)) (k : jsstring) :
  own_property g k = None -> ~ In k (map fst g) /\ forall v, set_property g k v = g ++ [(k, v)].
Proof.
  induction g as [|[k' v'] g IH]; cbn [own_property set_property map fst In app].
  - intros _. split; [tauto|reflexivity].
  - destruct (str_eqb k' k) eqn:Hk; [discriminate|].
    intros H. destruct (IH H) as [Hin Hset]. split.
    + intros [Heq | Hin']; [|contradiction].
      apply str_eqb_neq in Hk. contradiction.
    + intros v. now rewrite Hset.
Qed.

Lemma own_property_present (A : Type) (g : list (jsstring * A)) (k : jsstring) (v : A) :
  own_property g k = Some v ->
  exists before after,
    g = before ++ (k, v) :: after
    /\ forall w, set_property g k w = before ++ (k, w) :: after.
Proof.
  induction g as [|[k' v'] g IH]; cbn [own_property set_property]; [discriminate|].
  destruct (str_eqb k' k) eqn:Hk.
  - intros H; injection H as ->. apply str_eqb_eq in Hk; subst k'.
    exists [], g. split; reflexivity.
  - intros H. destruct (IH H) as (before & after & -> & Hset).
    exists ((k', v') :: before), after. split; [reflexivity|].
    intros w. cbn [app]. now rewrite Hset.
Qed.

Lemma group_attempt_keeps (g g' : list (jsstring * list value)) (a : value) :
  group_attempt g a = Ok g' ->
  Permutation (concat (map snd g')) (concat (map snd g) ++ [a])
  /\ (NoDup (map fst g) -> NoDup (map fst g'))
  /\ (Forall (fun group => snd group <> []) g -> Forall (fun group => snd group <> []) g').
Proof.
  unfold group_attempt.
  destruct (history_key a) as [k|]; cbn [bind]; [|discriminate].
  destruct (own_property g k) as [items|] eqn:Hown.
  - rewrite Hown. intros H; apply Ok_inj in H; subst g'.
    destruct (@own_property_present _ g k items Hown) as (before & after & -> & Hset).
    rewrite Hset. rewrite !map_app, !concat_app. cbn [map snd fst concat].
    repeat split.
    + rewrite <- !app_assoc. apply Permutation_app_head.
      apply Permutation_app_head. apply Permutation_app_comm.
    + auto.
    + intros Hall. apply Forall_app in Hall as [Hb Ha]. apply Forall_app. split; [exact Hb|].
      inversion Ha; subst. constructor; [|assumption].
      cbn [snd]. destruct items; discriminate.
  - destruct (@own_property_absent _ g k Hown) as [Hin Hset].
    rewrite own_property_set_property, set_property_twice, Hset.
    intros H; apply Ok_inj in H; subst g'.
    rewrite !map_app, !concat_app. cbn [map snd fst concat app].
    repeat split.
    + reflexivity.
    + intros Hnd. apply NoDup_app_remove_l with (l := []). cbn [app].
      apply (Permutation_NoDup (l := k :: map fst g));
        [apply Permutation_cons_append|now constructor].
    + intros Hall. apply Forall_app. split; [exact Hall|].
      constructor; [discriminate|constructor].
Qed.

(** X13.  Grouping loses nothing and repeats nothing: the groups taken together
    hold the attempts that came in, each as often as it came; no key heads
    two groups, and no group is empty. *)
Theorem grouping_keeps_every_attempt :
  forall (items : list value) (grouped : list (jsstring * list value)),
    group_attempts items [] = Ok grouped ->
    Permutation (concat (map snd grouped)) items
    /\ NoDup (map fst grouped)
    /\ Forall (fun group => snd group <> []) grouped.
Proof.
  intros items grouped H.
  assert (Hgen : forall items g g',
             group_attempts items g = Ok g' ->
             Permutation (concat (map snd g')) (concat (map snd g) ++ items)
             /\ (NoDup (map fst g) -> NoDup (map fst g'))
             /\ (Forall (fun group => snd group <> []) g ->
                 Forall (fun group => snd group <> []) g')).
  { clear. induction items as [|a items IH]; intros g g'; cbn [group_attempts].
    - intros H; apply Ok_inj in H; subst g'. rewrite app_nil_r. auto.
    - destruct (group_attempt g a) as [g1|] eqn:Hstep; cbn [bind]; [|discriminate].
      intros Hrest.
      destruct (@group_attempt_keeps g g1 a Hstep) as (Hp1 & Hn1 & Hf1).
      destruct (IH g1 g' Hrest) as (Hp & Hn & Hf).
      repeat split; auto.
      rewrite Hp. change (a :: items) with ([a] ++ items). rewrite app_assoc.
      now apply Permutation_app_tail. }
  destruct (Hgen items [] grouped H) as (Hp & Hn & Hf).
  repeat split; [exact Hp|apply Hn; constructor|apply Hf; constructor].
Qed.

(** *** One attempt that cannot be read *)

Lemma group_attempts_null (before after : list value) :
  Forall (fun a => exists k, history_key a = Ok k) before ->
  forall g,
    group_attempts (before ++ VNull :: after) g
    = Throw (TypeError (ReadOfNull (lit "personality"))).
Proof.
  induction 1 as [|a before [k Hk] _ IH]; intros g.
  - reflexivity.
  - cbn [app group_attempts]. unfold group_attempt at 1. rewrite Hk. cbn [bind].
    destruct (own_property g k) as [items|] eqn:Hown.
    + rewrite Hown. cbn [bind]. apply IH.
    + rewrite own_property_set_property. cbn [bind]. apply IH.
Qed.

(** X14.  A [null] among the attempts: the attempts before it are grouped, then
    reading its [personality] throws, and the whole feed is replaced by the
    classifier's text for that error, whatever comes after. *)
Theorem history_null_attempt_fails_feed :
  forall (args : history_args) (before after : list value)
    (net : request -> fetch_outcome),
    Forall (fun a => exists k, history_key a = Ok k) before ->
    (forall req, api_result (net req) = Ok (VArr (before ++ VNull :: after))) ->
    snd (run net (lucille_history args))
    = errorContent (TypeError (ReadOfNull (lit "personality"))).
Proof.
  intros args before after net Hkeys Hnet. unfold lucille_history.
  rewrite (gateway_get_result _ _ net Hnet).
  unfold history_format. cbn [history_attempts isArray bind].
  rewrite get_length_array. cbn [bind strict_equals_zero num_is_zero].
  destruct (Z.eqb_spec (Z.of_nat (length (before ++ VNull :: after))) 0) as [Hzero|_].
  { rewrite length_app in Hzero. simpl in Hzero. lia. }
  cbn [array_items bind]. now rewrite group_attempts_null.
Qed.

(** *** What the feed shows of each attempt *)

Lemma digit_not_whitespace (c : char16) :
  is_digit c = true -> is_js_whitespace c = false.
Proof.
  unfold is_digit, is_js_whitespace. intros H. apply andb_true_iff in H as [Hlo Hhi].
  apply N.leb_le in Hlo, Hhi. cbn [existsb].
  repeat match goal with
         | |- context [N.eqb ?a ?b] =>
           let Hne := fresh in
           destruct (N.eqb_spec a b) as [Hne|Hne]; [exfalso; lia|]
         end.
  destruct (N.leb_spec 8192 c); [exfalso; lia|reflexivity].
Qed.

(** [trim] keeps every stretch of the text that starts and ends with a
    character that is no white space. *)
Lemma trim_keeps (before after p : jsstring) (a c : char16) :
  is_js_whitespace a = false -> is_js_whitespace c = false ->
  exists before' after',
    trim (before ++ (a :: p ++ [c]) ++ after) = before' ++ (a :: p ++ [c]) ++ after'.
Proof.
  intros Ha Hc. exists (trim_start before), (rev (trim_start (rev after))).
  unfold trim. cbn [app]. rewrite trim_start_app by exact Ha.
  replace (trim_start before ++ a :: (p ++ [c]) ++ after)
    with ((trim_start before ++ a :: p) ++ c :: after)
    by (rewrite <- !app_assoc; reflexivity).
  rewrite rev_app_distr. cbn [rev]. rewrite <- app_assoc. cbn [app].
  rewrite trim_start_app by exact Hc.
  rewrite rev_app_distr. cbn [rev]. rewrite rev_involutive.
  rewrite <- !app_assoc. reflexivity.
Qed.

Lemma history_item_entry (i : nat) (a : value) (text : jsstring) :
  history_item i a = Ok text ->
  exists badge source addr message response,
    history_badge a = Ok badge
    /\ history_source a = Ok source
    /\ history_addr a = Ok addr
    /\ history_excerpt a "message" = Ok message
    /\ history_excerpt a "response" = Ok response
    /\ text = entry_lines (decimal_of_nat (S i)) badge addr source message response
              ++ nl ++ nl.
Proof.
  intros H.
  destruct (history_item_lines _ _ H)
    as (badge & source & addr & m & r & Hb & Hs & Ha & Hm & Hr & ->).
  exists badge, source, addr, m, r. repeat (split; [assumption|]).
  rewrite index_label. unfold entry_lines. rewrite <- !app_assoc. reflexivity.
Qed.

(** An entry starts with a digit and ends with a quote. *)
Lemma entry_lines_ends (i : nat) (badge addr source message response : jsstring) :
  exists c p,
    entry_lines (decimal_of_nat (S i)) badge addr source message response
    = c :: p ++ [34%N]
    /\ is_js_whitespace c = false.
Proof.
  destruct (decimal_head (N.of_nat (S i))) as (c & tail & Hdec & Hdigit).
  exists c.
  exists (tail ++ lit ". [" ++ badge ++ lit "] " ++ addr ++ source ++ nl
          ++ lit "   Message: " ++ dquote ++ message ++ dquote ++ nl
          ++ lit "   Lucille: " ++ dquote ++ response).
  split; [|now apply digit_not_whitespace].
  unfold entry_lines, decimal_of_nat. rewrite Hdec.
  cbn [app]. f_equal. rewrite <- !app_assoc. reflexivity.
Qed.

Lemma history_items_nth (items : list value) (i n : nat) (text : jsstring) (a : value) :
  history_items i items = Ok text -> nth_error items n = Some a ->
  exists entry before after,
    history_item (i + n) a = Ok entry /\ text = before ++ entry ++ after.
Proof.
  revert i n text. induction items as [|x items IH]; intros i n text; cbn [history_items].
  - intros _ Hn. destruct n; discriminate.
  - destruct (history_item i x) as [t|] eqn:Hx; cbn [bind]; [|discriminate].
    destruct (history_items (S i) items) as [ts|] eqn:Hrest; cbn [bind]; [|discriminate].
    intros H; apply Ok_inj in H; subst text.
    destruct n as [|n]; cbn [nth_error].
    + intros Hn; injection Hn as <-. exists t, [], ts.
      rewrite Nat.add_0_r. split; [exact Hx|reflexivity].
    + intros Hn. destruct (IH (S i) n ts Hrest Hn) as (entry & before & after & He & ->).
      exists entry, (t ++ before), after.
      rewrite Nat.add_succ_r. split; [exact He|]. now rewrite <- app_assoc.
Qed.

Lemma history_groups_shows (groups : list (jsstring * list value)) (body : jsstring)
  (k : jsstring) (its : list value) :
  history_groups groups = Ok body -> In (k, its) groups ->
  exists entries before after,
    history_items 0 its = Ok entries /\ body = before ++ entries ++ after.
Proof.
  revert body. induction groups as [|[k' its'] groups IH]; intros body; cbn [history_groups].
  - intros _ [].
  - destruct (history_items 0 its') as [t|] eqn:Hits; cbn [bind]; [|discriminate].
    destruct (history_groups groups) as [more|] eqn:Hmore; cbn [bind]; [|discriminate].
    intros H; apply Ok_inj in H; subst body.
    intros [Heq|Hin].
    + injection Heq as -> ->.
      exists t, (lit "--- " ++ k ++ lit " ---" ++ nl), more.
      split; [exact Hits|]. now rewrite <- !app_assoc.
    + destruct (IH more eq_refl Hin) as (entries & before & after & He & ->).
      exists entries, (lit "--- " ++ k' ++ lit " ---" ++ nl ++ t ++ before), after.
      split; [exact He|]. now rewrite <- !app_assoc.
Qed.

Lemma grouped_member (keyed : list (jsstring * value)) (k : jsstring) (a : value) :
  In (k, a) keyed ->
  In (k, members keyed k) (grouped_by_key keyed) /\ In a (members keyed k).
Proof.
  intros Hin. split.
  - unfold grouped_by_key. apply in_map_iff. exists k. split; [reflexivity|].
    apply In_first_seen. apply in_map_iff. exists (k, a). now split.
  - unfold members. apply in_map_iff. exists (k, a). split; [reflexivity|].
    apply filter_In. split; [exact Hin|]. apply str_eqb_refl.
Qed.

Lemma keyed_member (items : list value) (keys : list jsstring) (a : value) :
  Forall2 (fun a k => history_key a = Ok k) items keys -> In a items ->
  exists k, In (k, a) (combine keys items).
Proof.
  induction 1 as [|x k items keys _ _ IH]; intros Hin; [contradiction|].
  destruct Hin as [->|Hin].
  - exists k. now left.
  - destruct (IH Hin) as [k' Hk']. exists k'. now right.
Qed.

(** A feed that was rendered: its keys and its body. *)
Lemma history_format_rendered (args : history_args) (data : value)
  (items : list value) (text : jsstring) :
  history_attempts data = Ok (VArr items) ->
  items <> [] ->
  history_format args data = Ok text ->
  exists keys body,
    Forall2 (fun a k => history_key a = Ok k) items keys
    /\ history_groups (grouped_by_key (combine keys items)) = Ok body
    /\ text = trim (history_header args (length items) ++ body).
Proof.
  intros Hdata Hne Hfmt.
  assert (Hkeys : exists keys, Forall2 (fun a k => history_key a = Ok k) items keys).
  { rewrite (history_format_loops args data Hdata Hne) in Hfmt.
    destruct (group_attempts items []) as [grouped|] eqn:Hgrouped; [|discriminate].
    exact (@group_attempts_keys _ _ _ Hgrouped). }
  destruct Hkeys as [keys Hkeys]. exists keys.
  rewrite (history_format_groups args data Hdata Hne Hkeys) in Hfmt.
  destruct (history_groups (grouped_by_key (combine keys items))) as [body|];
    cbn [bind] in Hfmt; [|discriminate].
  apply Ok_inj in Hfmt. exists body. auto.
Qed.

(** Every attempt of a feed that was rendered is shown in it, as an entry
    made of its own fields. *)
Lemma history_shows_attempt (args : history_args) (data : value)
  (items : list value) (text : jsstring) (a : value) :
  history_attempts data = Ok (VArr items) ->
  history_format args data = Ok text ->
  In a items ->
  exists i badge source addr message response before after,
    history_badge a = Ok badge
    /\ history_source a = Ok source
    /\ history_addr a = Ok addr
    /\ history_excerpt a "message" = Ok message
    /\ history_excerpt a "response" = Ok response
    /\ text = before
              ++ entry_lines (decimal_of_nat (S i)) badge addr source message response
              ++ after.
Proof.
  intros Hdata Hfmt Hin.
  assert (Hne : items <> []) by (intros ->; contradiction).
  destruct (@history_format_rendered args data items text Hdata Hne Hfmt)
    as (keys & body & Hkeys & Hbody & ->).
  destruct (@keyed_member items keys a Hkeys Hin) as [k Hk].
  destruct (@grouped_member _ _ _ Hk) as [Hgroup Hmember].
  destruct (@history_groups_shows _ _ _ _ Hbody Hgroup) as (entries & b1 & a1 & Hentries & ->).
  apply In_nth_error in Hmember as [n Hn].
  destruct (@history_items_nth _ _ _ _ _ Hentries Hn) as (entry & b2 & a2 & Hentry & ->).
  destruct (@history_item_entry _ _ _ Hentry)
    as (badge & source & addr & m & r & Hb & Hs & Ha & Hm & Hr & ->).
  exists (0 + n), badge, source, addr, m, r.
  destruct (entry_lines_ends (0 + n) badge addr source m r) as (c & p & Hends & Hc).
  rewrite Hends.
  destruct (@trim_keeps (history_header args (length items) ++ b1 ++ b2)
              (nl ++ nl ++ a2 ++ a1) p c 34%N Hc eq_refl)
    as (before & after & Htrim).
  exists before, after. repeat (split; [assumption|]).
  refine (eq_trans _ Htrim). f_equal. rewrite <- !app_assoc. reflexivity.
Qed.

Lemma history_format_failed (args : history_args) (data : value) (e : thrown)
  (net : request -> fetch_outcome) :
  (forall req, api_result (net req) = Ok data) ->
  history_format args data = Throw e ->
  snd (run net (lucille_history args)) = errorContent e.
Proof.
  intros Hnet Hfmt. unfold lucille_history.
  now rewrite (gateway_get_result _ _ net Hnet), Hfmt.
Qed.

Lemma history_format_shown (args : history_args) (data : value) (text : jsstring)
  (net : request -> fetch_outcome) :
  (forall req, api_result (net req) = Ok data) ->
  history_format args data = Ok text ->
  snd (run net (lucille_history args)) = Ok (textContent text).
Proof.
  intros Hnet Hfmt. unfold lucille_history.
  now rewrite (gateway_get_result _ _ net Hnet), Hfmt.
Qed.

(** *** When the feed is rendered *)

Lemma history_item_of_parts (i : nat) (a : value)
  (badge source addr message response : jsstring) :
  history_badge a = Ok badge ->
  history_source a = Ok source ->
  history_addr a = Ok addr ->
  history_excerpt a "message" = Ok message ->
  history_excerpt a "response" = Ok response ->
  history_item i a
  = Ok (entry_lines (decimal_of_nat (S i)) badge addr source message response ++ nl ++ nl).
Proof.
  intros Hb Hs Ha Hm Hr. unfold history_item. rewrite Hb, Hs, Ha. cbn [bind].
  unfold txt, txtq. cbn [template bind]. rewrite Hm, Hr. cbn [bind].
  rewrite index_label, litq_message, litq_lucille, litq_quote.
  unfold entry_lines. rewrite ?app_nil_r, <- ?app_assoc. reflexivity.
Qed.

(** Whether an entry can be rendered does not depend on its number. *)
Lemma history_item_any_index (i j : nat) (a : value) (text : jsstring) :
  history_item i a = Ok text -> exists text', history_item j a = Ok text'.
Proof.
  intros H.
  destruct (@history_item_entry _ _ _ H)
    as (badge & source & addr & m & r & Hb & Hs & Ha & Hm & Hr & _).
  eexists. exact (history_item_of_parts j a Hb Hs Ha Hm Hr).
Qed.

Lemma history_items_rendered (items : list value) (i : nat) :
  Forall (fun a => exists t, history_item 0 a = Ok t) items ->
  exists text, history_items i items = Ok text.
Proof.
  intros H. revert i. induction H as [|a items [t Ht] _ IH]; intros i; cbn [history_items].
  - eauto.
  - destruct (@history_item_any_index 0 i a t Ht) as [t' Ht']. rewrite Ht'. cbn [bind].
    destruct (IH (S i)) as [ts Hts]. rewrite Hts. cbn [bind]. eauto.
Qed.

Lemma history_groups_rendered (groups : list (jsstring * list value)) :
  Forall (fun group => Forall (fun a => exists t, history_item 0 a = Ok t) (snd group))
    groups ->
  exists body, history_groups groups = Ok body.
Proof.
  induction 1 as [|[k its] groups Hits _ [more Hmore]]; cbn [history_groups].
  - eauto.
  - destruct (history_items_rendered 0 Hits) as [t Ht].
    cbn [snd] in Ht. rewrite Ht, Hmore. cbn [bind]. eauto.
Qed.

Lemma members_of_items (keys : list jsstring) (items : list value) (k : jsstring)
  (a : value) :
  In a (members (combine keys items) k) -> In a items.
Proof.
  unfold members. rewrite in_map_iff. intros ([k' a'] & Heq & Hin).
  cbn [snd] in Heq. subst a'. apply filter_In in Hin as [Hin _].
  exact (in_combine_r _ _ _ _ Hin).
Qed.

Lemma keys_of_items (items : list value) :
  Forall (fun a => exists k, history_key a = Ok k) items ->
  exists keys, Forall2 (fun a k => history_key a = Ok k) items keys.
Proof.
  induction 1 as [|a items [k Hk] _ [keys Hkeys]].
  - exists []. constructor.
  - exists (k :: keys). now constructor.
Qed.

Lemma key_of_item (items : list value) (keys : list jsstring) (a : value) :
  Forall2 (fun a k => history_key a = Ok k) items keys -> In a items ->
  exists k, history_key a = Ok k.
Proof.
  induction 1 as [|x k items keys Hk _ IH]; intros Hin; [contradiction|].
  destruct Hin as [->|Hin]; [eauto|now apply IH].
Qed.

Lemma attempt_readable_spec (a : value) :
  attempt_readable a = true
  <-> (exists k, history_key a = Ok k) /\ (exists t, history_item 0 a = Ok t).
Proof.
  unfold attempt_readable.
  destruct (history_key a) as [k|e], (history_item 0 a) as [t|e'];
    split; try discriminate; eauto.
  - intros [_ [t Ht]]. discriminate.
  - intros [[k Hk] _]. discriminate.
  - intros [[k Hk] _]. discriminate.
Qed.

(** The feed is rendered exactly when every attempt of it is readable. *)
Lemma history_rendered_iff (args : history_args) (data : value) (items : list value) :
  history_attempts data = Ok (VArr items) ->
  items <> [] ->
  (forallb attempt_readable items = true
   <-> exists text, history_format args data = Ok text).
Proof.
  intros Hdata Hne. split.
  - intros Hall. rewrite forallb_forall in Hall.
    assert (Hkeys : exists keys, Forall2 (fun a k => history_key a = Ok k) items keys).
    { apply keys_of_items. apply Forall_forall. intros a Hin.
      apply Hall, attempt_readable_spec in Hin. tauto. }
    destruct Hkeys as [keys Hkeys].
    rewrite (history_format_groups args data Hdata Hne Hkeys).
    destruct (@history_groups_rendered (grouped_by_key (combine keys items)))
      as [body Hbody].
    { apply Forall_forall. intros [k its] Hin. cbn [snd].
      unfold grouped_by_key in Hin. apply in_map_iff in Hin as (k' & Heq & _).
      injection Heq as <- <-.
      apply Forall_forall. intros a Ha. apply members_of_items in Ha.
      apply Hall, attempt_readable_spec in Ha. tauto. }
    rewrite Hbody. cbn [bind]. eauto.
  - intros [text Hfmt]. apply forallb_forall. intros a Hin.
    apply attempt_readable_spec. split.
    + destruct (@history_format_rendered args data items text Hdata Hne Hfmt)
        as (keys & _ & Hkeys & _).
      exact (@key_of_item items keys a Hkeys Hin).
    + destruct (@history_shows_attempt args data items text a Hdata Hfmt Hin)
        as (i & badge & source & addr & m & r & _ & _ & Hb & Hs & Ha & Hm & Hr & _).
      eexists. exact (history_item_of_parts 0 a Hb Hs Ha Hm Hr).
Qed.

(** *** The list of rounds, line by line *)

Lemma leaderboard_lines_nth (rounds : list value) (k : nat) (lines : list jsstring) :
  leaderboard_lines k rounds = Ok lines ->
  length lines = length rounds
  /\ forall i h,
       nth_error rounds i = Some h ->
       exists line, leaderboard_line (k + i) h = Ok line /\ nth_error lines i = Some line.
Proof.
  revert k lines. induction rounds as [|x rounds IH]; intros k lines;
    cbn [leaderboard_lines].
  - intros H; apply Ok_inj in H; subst lines. split; [reflexivity|].
    intros i h Hi. destruct i; discriminate.
  - destruct (leaderboard_line k x) as [l|] eqn:Hx; cbn [bind]; [|discriminate].
    destruct (leaderboard_lines (S k) rounds) as [ls|] eqn:Hrest; cbn [bind]; [|discriminate].
    intros H; apply Ok_inj in H; subst lines.
    destruct (IH (S k) ls Hrest) as [Hlen Hnth].
    split; [cbn [length]; now rewrite Hlen|].
    intros i h Hi. destruct i as [|i]; cbn [nth_error] in *.
    + injection Hi as <-. exists l. rewrite Nat.add_0_r. now split.
    + destruct (Hnth i h Hi) as (line & Hline & Hsome).
      exists line. rewrite Nat.add_succ_r. now split.
Qed.

Lemma leaderboard_format_lines (data : value) (rounds : list value) :
  leaderboard_history data = Ok (VArr rounds) ->
  leaderboard_format data
  = let! lines := leaderboard_lines 0 rounds in
    Ok (lit "Past rounds:" ++ nl ++ join_with nl lines).
Proof. intros H. unfold leaderboard_format. rewrite H. reflexivity. Qed.

(** Whether a line can be rendered does not depend on its position. *)
Lemma leaderboard_line_any_index (i j : nat) (h : value) (line : jsstring) :
  leaderboard_line i h = Ok line -> exists line', leaderboard_line j h = Ok line'.
Proof.
  unfold leaderboard_line.
  destruct (get h (lit "victory")) as [victory|]; cbn [bind]; [|discriminate].
  match goal with
  | |- context [bind ?w _] => destruct w as [winner|]
  end; cbn [bind]; [|discriminate].
  unfold txt, txtq. cbn [template bind].
  destruct (get h (lit "round")) as [rd|]; cbn [bind]; [|discriminate].
  unfold js_or at 1 3. destruct (truthy rd).
  - destruct (to_string rd) as [round|]; cbn [bind]; [|discriminate].
    destruct (field h "name") as [name|]; cbn [bind]; [|discriminate].
    destruct (get h (lit "emoji")) as [em|]; cbn [bind]; [|discriminate].
    destruct (to_string (js_or em (VStr []))) as [emoji|]; cbn [bind]; [|discriminate].
    eauto.
  - cbn [to_string print bind].
    destruct (field h "name") as [name|]; cbn [bind]; [|discriminate].
    destruct (get h (lit "emoji")) as [em|]; cbn [bind]; [|discriminate].
    destruct (to_string (js_or em (VStr []))) as [emoji|]; cbn [bind]; [|discriminate].
    eauto.
Qed.

Lemma leaderboard_lines_rendered (rounds : list value) (i : nat) :
  Forall (fun h => exists l, leaderboard_line 0 h = Ok l) rounds ->
  exists lines, leaderboard_lines i rounds = Ok lines.
Proof.
  intros H. revert i.
  induction H as [|h rounds [l Hl] _ IH]; intros i; cbn [leaderboard_lines].
  - eauto.
  - destruct (@leaderboard_line_any_index 0 i h l Hl) as [l' Hl']. rewrite Hl'. cbn [bind].
    destruct (IH (S i)) as [ls Hls]. rewrite Hls. cbn [bind]. eauto.
Qed.

(** The list is rendered exactly when every round of it is readable. *)
Lemma leaderboard_rendered_iff (data : value) (rounds : list value) :
  leaderboard_history data = Ok (VArr rounds) ->
  (forallb round_readable rounds = true
   <-> exists text, leaderboard_format data = Ok text).
Proof.
  intros Hdata. rewrite (leaderboard_format_lines _ Hdata). split.
  - intros Hall. rewrite forallb_forall in Hall.
    destruct (@leaderboard_lines_rendered rounds 0) as [lines Hlines].
    { apply Forall_forall. intros h Hin. specialize (Hall h Hin).
      unfold round_readable in Hall.
      destruct (leaderboard_line 0 h) as [l|]; [eauto|discriminate]. }
    rewrite Hlines. cbn [bind]. eauto.
  - intros [text Hfmt].
    destruct (leaderboard_lines 0 rounds) as [lines|] eqn:Hlines;
      cbn [bind] in Hfmt; [|discriminate].
    destruct (leaderboard_lines_nth _ _ Hlines) as [_ Hnth].
    apply forallb_forall. intros h Hin.
    apply In_nth_error in Hin as [i Hi].
    destruct (Hnth i h Hi) as (line & Hline & _).
    destruct (@leaderboard_line_any_index (0 + i) 0 h line Hline) as [l Hl].
    unfold round_readable. now rewrite Hl.
Qed.

(** *** Truncation in the feed and in the list of rounds *)

Lemma history_addr_falsy (a player : value) :
  get a (lit "player") = Ok player -> truthy player = false ->
  history_addr a = Ok (lit "???").
Proof.
  intros Hp Hfalsy. unfold history_addr. rewrite Hp. cbn [bind]. now rewrite Hfalsy.
Qed.

(** C6, as the code has it.  When [history] renders the feed, the text the
    tool answers with holds an entry for every attempt of the list, made of
    that attempt's own fields; the address in it is the first six
    characters of the player, three dots and its last four, when the player
    is a string that is not empty (so the address of the specification's
    example reads [0x1234...5678]), and three question marks when the
    player is missing or falsy.  When [leaderboard] renders the list, its
    text is the heading and one line for each round, in their order; the
    line of a round whose victory names a winner string shows the first ten
    characters of it and no more.  The feed is rendered exactly when every
    attempt of it is readable, the list exactly when every round is; when
    they are not, the tool answers with the classifier's text for the
    error instead. *)
Theorem address_truncation :
  (forall (args : history_args) (data : value) (items : list value) (a : value)
      (text : jsstring) (net : request -> fetch_outcome),
      (forall req, api_result (net req) = Ok data) ->
      history_attempts data = Ok (VArr items) ->
      In a items ->
      history_format args data = Ok text ->
      snd (run net (lucille_history args)) = Ok (textContent text)
      /\ exists i badge addr source message response,
           includes text
             (entry_lines (decimal_of_nat (S i)) badge addr source message response)
           = true
           /\ history_badge a = Ok badge
           /\ history_source a = Ok source
           /\ history_excerpt a "message" = Ok message
           /\ history_excerpt a "response" = Ok response
           /\ (forall p, get a (lit "player") = Ok (VStr p) -> p <> [] ->
                 addr = firstn 6 p ++ lit "..." ++ skipn (length p - 4) p)
           /\ (get a (lit "player")
               = Ok (VStr (lit "0x1234567890abcdef1234567890abcdef12345678")) ->
               addr = lit "0x1234...5678")
           /\ (forall player, get a (lit "player") = Ok player -> truthy player = false ->
                 addr = lit "???"))
  /\ (forall (args : history_args) (data : value) (e : thrown)
        (net : request -> fetch_outcome),
        (forall req, api_result (net req) = Ok data) ->
        history_format args data = Throw e ->
        snd (run net (lucille_history args)) = errorContent e)
  /\ (forall (data : value) (rounds : list value) (text : jsstring)
        (net : request -> fetch_outcome),
        (forall req, api_result (net req) = Ok data) ->
        leaderboard_history data = Ok (VArr rounds) ->
        leaderboard_format data = Ok text ->
        snd (run net lucille_leaderboard) = Ok (textContent text)
        /\ exists lines,
             text = lit "Past rounds:" ++ nl ++ join_with nl lines
             /\ length lines = length rounds
             /\ forall (i : nat) (h victory : value) (w : jsstring),
                  nth_error rounds i = Some h ->
                  get h (lit "victory") = Ok victory -> truthy victory = true ->
                  get victory (lit "winner") = Ok (VStr w) ->
                  exists round name emoji score jackpot,
                    nth_error lines i
                    = Some (won_round_line round name emoji (firstn 10 w) score jackpot))
  /\ (forall (data : value) (e : thrown) (net : request -> fetch_outcome),
        (forall req, api_result (net req) = Ok data) ->
        leaderboard_format data = Throw e ->
        snd (run net lucille_leaderboard) = errorContent e)
  /\ (forall (args : history_args) (data : value) (items : list value),
        history_attempts data = Ok (VArr items) ->
        items <> [] ->
        (forallb attempt_readable items = true
         <-> exists text, history_format args data = Ok text))
  /\ (forall (data : value) (rounds : list value),
        leaderboard_history data = Ok (VArr rounds) ->
        (forallb round_readable rounds = true
         <-> exists text, leaderboard_format data = Ok text)).
Proof.
  split; [|split; [|split; [|split; [|split]]]];
    [| | | |exact history_rendered_iff|exact leaderboard_rendered_iff].
  - intros args data items a text net Hnet Hdata Hin Hfmt.
    split; [exact (history_format_shown args net Hnet Hfmt)|].
    destruct (@history_shows_attempt args data items text a Hdata Hfmt Hin)
      as (i & badge & source & addr & m & r & before & after
          & Hb & Hs & Ha & Hm & Hr & ->).
    exists i, badge, addr, source, m, r.
    split; [apply includes_app|].
    repeat (split; [assumption|]).
    split; [|split].
    + intros p Hp Hne. rewrite (history_addr_string _ Hp Hne) in Ha.
      now apply Ok_inj in Ha.
    + intros Hp. rewrite (history_addr_string _ Hp) in Ha by (vm_compute; discriminate).
      apply Ok_inj in Ha. subst addr. vm_compute. reflexivity.
    + intros player Hp Hfalsy. rewrite (history_addr_falsy _ Hp Hfalsy) in Ha.
      now apply Ok_inj in Ha.
  - intros args data e net Hnet Hfmt. exact (history_format_failed args net Hnet Hfmt).
  - intros data rounds text net Hnet Hdata Hfmt.
    split.
    { unfold lucille_leaderboard. now rewrite (gateway_get_result _ _ net Hnet), Hfmt. }
    rewrite (leaderboard_format_lines _ Hdata) in Hfmt.
    destruct (leaderboard_lines 0 rounds) as [lines|] eqn:Hlines;
      cbn [bind] in Hfmt; [|discriminate].
    apply Ok_inj in Hfmt. subst text.
    destruct (leaderboard_lines_nth _ _ Hlines) as [Hlen Hnth].
    exists lines. split; [reflexivity|]. split; [exact Hlen|].
    intros i h victory w Hi Hv Htruthy Hw.
    destruct (Hnth i h Hi) as (line & Hline & Hsome).
    destruct (@leaderboard_line_won _ h victory w line Hv Htruthy Hw Hline)
      as (round & name & emoji & score & jackpot & ->).
    exists round, name, emoji, score, jackpot. exact Hsome.
  - intros data e net Hnet Hfmt.
    unfold lucille_leaderboard. now rewrite (gateway_get_result _ _ net Hnet), Hfmt.
Qed.

Lemma history_excerpt_falsy (a : value) (k : string) (m : value) :
  get a (lit k) = Ok m -> truthy m = false -> history_excerpt a k = Ok [].
Proof.
  intros Hm Hfalsy. unfold history_excerpt, js_or. rewrite Hm. cbn [bind].
  rewrite Hfalsy. reflexivity.
Qed.

Lemma excerpt_cases (m : jsstring) :
  (length m <= 200 -> firstn 200 m = m)
  /\ (200 < length m ->
      length (firstn 200 m) = 200
      /\ exists rest, rest <> [] /\ m = firstn 200 m ++ rest).
Proof.
  split.
  - intros H. now apply firstn_all2.
  - intros H. split; [rewrite length_firstn; lia|].
    exists (skipn 200 m). split; [|now rewrite firstn_skipn].
    intros Hnil. apply (f_equal (@length _)) in Hnil.
    rewrite length_skipn in Hnil. simpl in Hnil. lia.
Qed.

(** C7, as the code has it.  When [history] renders the feed, the text the
    tool answers with holds an entry for every attempt of the list, made of
    that attempt's own fields.  Between the quotes of its message line
    stands the message when it is a string of at most 200 characters, and
    exactly the first 200 characters of a longer one, the closing quote
    following at once; a message that is missing or falsy leaves the quotes
    empty.  The same holds of the response, whatever the message is.  The
    feed is rendered exactly when every attempt of it is readable; when it
    is not, the tool answers with the classifier's text for the error
    instead. *)
Theorem message_truncation :
  (forall (args : history_args) (data : value) (items : list value) (a : value)
      (text : jsstring) (net : request -> fetch_outcome),
      (forall req, api_result (net req) = Ok data) ->
      history_attempts data = Ok (VArr items) ->
      In a items ->
      history_format args data = Ok text ->
      snd (run net (lucille_history args)) = Ok (textContent text)
      /\ exists i badge addr source message response,
           includes text
             (entry_lines (decimal_of_nat (S i)) badge addr source message response)
           = true
           /\ history_badge a = Ok badge
           /\ history_source a = Ok source
           /\ history_addr a = Ok addr
           /\ (forall m, get a (lit "message") = Ok (VStr m) ->
                 message = firstn 200 m
                 /\ (length m <= 200 -> message = m)
                 /\ (200 < length m ->
                     length message = 200
                     /\ exists rest, rest <> [] /\ m = message ++ rest))
           /\ (forall r, get a (lit "response") = Ok (VStr r) ->
                 response = firstn 200 r
                 /\ (length r <= 200 -> response = r)
                 /\ (200 < length r ->
                     length response = 200
                     /\ exists rest, rest <> [] /\ r = response ++ rest))
           /\ (forall m, get a (lit "message") = Ok m -> truthy m = false -> message = [])
           /\ (forall r, get a (lit "response") = Ok r -> truthy r = false ->
                 response = []))
  /\ (forall (args : history_args) (data : value) (e : thrown)
        (net : request -> fetch_outcome),
        (forall req, api_result (net req) = Ok data) ->
        history_format args data = Throw e ->
        snd (run net (lucille_history args)) = errorContent e)
  /\ (forall (args : history_args) (data : value) (items : list value),
        history_attempts data = Ok (VArr items) ->
        items <> [] ->
        (forallb attempt_readable items = true
         <-> exists text, history_format args data = Ok text)).
Proof.
  split; [|split; [|exact history_rendered_iff]].
  - intros args data items a text net Hnet Hdata Hin Hfmt.
    split; [exact (history_format_shown args net Hnet Hfmt)|].
    destruct (@history_shows_attempt args data items text a Hdata Hfmt Hin)
      as (i & badge & source & addr & message & response & before & after
          & Hb & Hs & Ha & Hm & Hr & ->).
    exists i, badge, addr, source, message, response.
    split; [apply includes_app|].
    repeat (split; [assumption|]).
    split; [|split; [|split]].
    + intros m Hget. rewrite (history_excerpt_string a "message" Hget) in Hm.
      apply Ok_inj in Hm. subst message.
      split; [reflexivity|]. destruct (excerpt_cases m) as [Hshort Hlong].
      split; [exact Hshort|exact Hlong].
    + intros r Hget. rewrite (history_excerpt_string a "response" Hget) in Hr.
      apply Ok_inj in Hr. subst response.
      split; [reflexivity|]. destruct (excerpt_cases r) as [Hshort Hlong].
      split; [exact Hshort|exact Hlong].
    + intros m Hget Hfalsy. rewrite (history_excerpt_falsy a "message" Hget Hfalsy) in Hm.
      now apply Ok_inj in Hm.
    + intros r Hget Hfalsy. rewrite (history_excerpt_falsy a "response" Hget Hfalsy) in Hr.
      now apply Ok_inj in Hr.
  - intros args data e net Hnet Hfmt. exact (history_format_failed args net Hnet Hfmt).
Qed.

(** *** The other formatters *)

Lemma litq_lucille_says : litq "Lucille says: `" = lit "Lucille says: " ++ dquote.
Proof. vm_compute. reflexivity. Qed.


(** X16.  A play that won: the six lines, the second of which reports the
    win, then an empty line and the victory block.  Its prize is
    [prize_eth], or the jackpot when [prize_eth] is missing or falsy, and
    its recipient is the player the tool was called with; the lines of the
    NFT and of OpenSea follow when their fields are truthy, and the text
    ends with the message to the agent, if there is one. *)
Theorem play_victory_prize :
  forall (player : jsstring) (data won prize pot id url note : value)
    (score threshold response personality emoji round turn phase jackpot : jsstring)
    (amount token link message : jsstring),
    field data "score" = Ok score ->
    field data "threshold" = Ok threshold ->
    get data (lit "won") = Ok won -> truthy won = true ->
    field data "response" = Ok response ->
    field data "personality" = Ok personality ->
    field data "personality_emoji" = Ok emoji ->
    field data "round" = Ok round ->
    field data "turn" = Ok turn ->
    field data "phase" = Ok phase ->
    get data (lit "jackpot") = Ok pot -> to_string pot = Ok jackpot ->
    get data (lit "prize_eth") = Ok prize ->
    to_string (if truthy prize then prize else pot) = Ok amount ->
    get data (lit "nft_token_id") = Ok id ->
    (truthy id = true -> to_string id = Ok token) ->
    get data (lit "nft_opensea_url") = Ok url ->
    (truthy url = true -> to_string url = Ok link) ->
    get data (lit "message_to_agent") = Ok note ->
    to_string (if truthy note then note else VStr []) = Ok message ->
    play_format player data
    = Ok (lit "Score: " ++ score ++ lit "/" ++ threshold
          ++ lit " (need " ++ threshold ++ lit "% to win)" ++ nl
          ++ lit "Won: 🎉 YES!" ++ nl
          ++ lit "Lucille says: " ++ dquote ++ response ++ dquote ++ nl
          ++ lit "Personality: " ++ personality ++ lit " " ++ emoji ++ nl
          ++ lit "Round " ++ round ++ lit ", Turn " ++ turn ++ lit " (" ++ phase ++ lit ")" ++ nl
          ++ lit "Jackpot: " ++ jackpot ++ lit " ETH" ++ nl
          ++ nl
          ++ lit "🏆 VICTORY!" ++ nl
          ++ lit "Prize: " ++ amount ++ lit " ETH → sent to " ++ player ++ nl
          ++ (if truthy id then lit "NFT: Token #" ++ token ++ nl else [])
          ++ (if truthy url then lit "OpenSea: " ++ link ++ nl else [])
          ++ message).
Proof.
  intros player data won prize pot id url note
    score threshold response personality emoji round turn phase jackpot
    amount token link message
    Hscore Hthreshold Hwon Htruthy Hresponse Hpersonality Hemoji Hround Hturn Hphase
    Hpot Hjackpot Hprize Hamount Hid Htoken Hurl Hlink Hnote Hmessage.
  assert (Hfield : field data "jackpot" = Ok jackpot).
  { unfold field. rewrite Hpot. exact Hjackpot. }
  assert (Hnft : (let! id := get data (lit "nft_token_id") in
                  when (truthy id)
                    (template [txt "NFT: Token #"; field data "nft_token_id"; Ok nl]))
                 = Ok (if truthy id then lit "NFT: Token #" ++ token ++ nl else [])).
  { rewrite Hid. cbn [bind]. destruct (truthy id); [|reflexivity].
    unfold when, txt, field. rewrite Hid. cbn [template bind].
    rewrite (Htoken eq_refl). cbn [bind]. now rewrite app_nil_r. }
  assert (Hsea : (let! url := get data (lit "nft_opensea_url") in
                  when (truthy url)
                    (template [txt "OpenSea: "; field data "nft_opensea_url"; Ok nl]))
                 = Ok (if truthy url then lit "OpenSea: " ++ link ++ nl else [])).
  { rewrite Hurl. cbn [bind]. destruct (truthy url); [|reflexivity].
    unfold when, txt, field. rewrite Hurl. cbn [template bind].
    rewrite (Hlink eq_refl). cbn [bind]. now rewrite app_nil_r. }
  unfold play_format. rewrite Hnft, Hsea.
  unfold txt, txtq.
  rewrite Hscore, Hthreshold, Hwon, Hresponse, Hpersonality, Hemoji, Hround, Hturn,
    Hphase, Hfield, Hpot, Hprize, Hnote.
  cbn [template bind]. rewrite Htruthy. cbn [template bind when txt].
  unfold js_or. rewrite Hamount, Hmessage. cbn [template bind].
  rewrite litq_lucille_says, litq_quote.
  replace (lit "Won: 🎉 YES!") with (lit "Won: " ++ lit "🎉 YES!")
    by (vm_compute; reflexivity).
  flatten_text. reflexivity.
Qed.

(** *** Leaderboard *)

(** X17.  No round to list: the heading alone, followed by an empty line of
    rounds. *)
Theorem leaderboard_without_rounds :
  forall (data : value) (net : request -> fetch_outcome),
    (forall req, api_result (net req) = Ok data) ->
    (data = VArr []
     \/ (isArray data = false
         /\ exists x, get data (lit "history") = Ok x
                      /\ (truthy x = false \/ x = VArr []))) ->
    snd (run net lucille_leaderboard) = Ok (textContent (lit "Past rounds:" ++ nl)).
Proof.
  intros data net Hnet Hdata. unfold lucille_leaderboard.
  rewrite (gateway_get_result _ _ net Hnet).
  assert (Hhist : leaderboard_history data = Ok (VArr [])).
  { unfold leaderboard_history.
    destruct Hdata as [-> | (Harr & x & Hget & Hx)]; [reflexivity|].
    rewrite Harr, Hget. cbn [bind]. unfold js_or.
    destruct Hx as [-> | ->]; reflexivity. }
  unfold leaderboard_format. rewrite Hhist. reflexivity.
Qed.

Lemma leaderboard_line_open (i : nat) (h round emoji victory : value) (name : jsstring) :
  get h (lit "victory") = Ok victory -> truthy victory = false ->
  get h (lit "round") = Ok round -> truthy round = false ->
  field h "name" = Ok name ->
  get h (lit "emoji") = Ok emoji -> truthy emoji = false ->
  leaderboard_line i h
  = Ok (lit "Round " ++ decimal_of_nat (S i) ++ lit ": " ++ dquote ++ name ++ dquote
        ++ lit " " ++ lit " — No winner yet").
Proof.
  intros Hvictory Hnone Hround Hfalsy Hname Hemoji Hnoemoji.
  unfold leaderboard_line, txt, txtq. rewrite Hvictory. cbn [bind]. rewrite Hnone.
  cbn [bind template]. rewrite Hround, Hname, Hemoji. cbn [bind].
  unfold js_or. rewrite Hfalsy, Hnoemoji. cbn [to_string print bind].
  rewrite index_label, litq_colon_quote, litq_quote_space.
  replace (lit " — No winner yet") with (lit " — " ++ lit "No winner yet")
    by (vm_compute; reflexivity).
  flatten_text. reflexivity.
Qed.

(** X18.  The list of rounds is the heading and one line for each round, in
    their order.  The line of the round at position [i] of the list (from
    0), when that round has no winner: a missing or falsy [round] is
    replaced by the position counted from 1, a missing or falsy [emoji] by
    nothing. *)
Theorem leaderboard_round_without_winner :
  forall (data : value) (rounds : list value) (lines : list jsstring)
    (net : request -> fetch_outcome),
    (forall req, api_result (net req) = Ok data) ->
    leaderboard_history data = Ok (VArr rounds) ->
    leaderboard_lines 0 rounds = Ok lines ->
    snd (run net lucille_leaderboard)
    = Ok (textContent (lit "Past rounds:" ++ nl ++ join_with nl lines))
    /\ length lines = length rounds
    /\ forall (i : nat) (h round emoji victory : value) (name : jsstring),
         nth_error rounds i = Some h ->
         get h (lit "victory") = Ok victory -> truthy victory = false ->
         get h (lit "round") = Ok round -> truthy round = false ->
         field h "name" = Ok name ->
         get h (lit "emoji") = Ok emoji -> truthy emoji = false ->
         nth_error lines i
         = Some (lit "Round " ++ decimal_of_nat (S i) ++ lit ": " ++ dquote ++ name
                 ++ dquote ++ lit " " ++ lit " — No winner yet").
Proof.
  intros data rounds lines net Hnet Hdata Hlines.
  destruct (leaderboard_lines_nth _ _ Hlines) as [Hlen Hnth].
  split; [|split; [exact Hlen|]].
  - unfold lucille_leaderboard. rewrite (gateway_get_result _ _ net Hnet).
    now rewrite (leaderboard_format_lines _ Hdata), Hlines.
  - intros i h round emoji victory name Hi Hvictory Hnone Hround Hfalsy Hname
      Hemoji Hnoemoji.
    destruct (Hnth i h Hi) as (line & Hline & Hsome).
    cbn [Nat.add] in Hline.
    rewrite (leaderboard_line_open i h Hvictory Hnone Hround Hfalsy Hname Hemoji Hnoemoji)
      in Hline.
    apply Ok_inj in Hline. now subst line.
Qed.

(** *** Player statistics *)



(** *** Strategy *)

Lemma each_tip (tips : list jsstring) :
  each (fun tip => template [txt "  💡 "; to_string tip; Ok nl]) (map VStr tips)
  = Ok (concat (map (fun tip => lit "  💡 " ++ tip ++ nl) tips)).
Proof.
  induction tips as [|tip tips IH]; [reflexivity|].
  cbn [map each]. rewrite IH. unfold txt. cbn [template to_string print bind concat].
  flatten_text. reflexivity.
Qed.

(** X20.  The advice block: one line per tip, in order, under its heading; no
    block at all when the advice is missing, [null] or an empty list. *)
Theorem strategy_advice_block :
  forall (data advice : value),
    get data (lit "advice") = Ok advice ->
    (advice = VUndefined \/ advice = VNull \/ advice = VArr [] ->
       strategy_advice data = Ok [])
    /\ (forall tip tips, advice = VArr (map VStr (tip :: tips)) ->
          strategy_advice data
          = Ok (nl ++ lit "Advice:" ++ nl
                ++ concat (map (fun t => lit "  💡 " ++ t ++ nl) (tip :: tips)))).
Proof.
  intros data advice Hget. unfold strategy_advice. rewrite Hget. cbn [bind]. split.
  - intros [-> | [-> | ->]]; reflexivity.
  - intros tip tips ->. cbn [get_opt]. rewrite get_length_array. cbn [bind].
    change (truthy (VNum (Int (Z.of_nat (length (map VStr (tip :: tips))))))) with true.
    cbn [when array_items bind]. rewrite each_tip. reflexivity.
Qed.


(** *** Status and personality *)

(** X22.  [personality] shows the eight fields it names and nothing else of the
    response: two responses that agree on them give the same text. *)
Theorem personality_shows_listed_fields_only :
  forall d1 d2 : value,
    (forall k,
        In k ["name"; "emoji"; "mood"; "description"; "tip"; "likes"; "hates";
              "visual_prompt"]%string ->
        get d1 (lit k) = get d2 (lit k)) ->
    personality_format d1 = personality_format d2.
Proof.
  intros d1 d2 H. unfold personality_format.
  rewrite (H "name"%string), (H "emoji"%string), (H "mood"%string),
    (H "description"%string), (H "tip"%string), (H "likes"%string),
    (H "hates"%string), (H "visual_prompt"%string)
    by (cbn [In]; tauto).
  reflexivity.
Qed.




(** X24.  A game state that has none of the fields [status] reads: the jackpot
    and the threshold are printed all the same, around [undefined]; the
    other fields are left out; the network is the fixed one. *)
Theorem status_of_bare_state :
  forall props : list (jsstring * value),
    (forall k,
        In k ["round"; "turn"; "jackpot"; "threshold"; "phase"; "personality"]%string ->
        own_property props (lit k) = None) ->
    status_format (VObj props)
    = Ok (litq "{
  `jackpot`: `undefined ETH`,
  `threshold`: `undefined%`,
  `network`: `base-sepolia`
}").
Proof.
  intros props H. unfold status_format, field, txt. cbn [get].
  rewrite (H "round"%string), (H "turn"%string), (H "jackpot"%string),
    (H "threshold"%string), (H "phase"%string), (H "personality"%string)
    by (cbn [In]; tauto).
  vm_compute. reflexivity.
Qed.

(** *** Contract information *)

(** X25.  Of the whole text only the cost comes from the response: what precedes
    it and what follows it are fixed. *)
Theorem contract_info_only_cost_varies :
  forall (data : value) (text : jsstring),
    contract_info_format data = Ok text ->
    exists cost currentCost,
      contract_currentCost data = Ok currentCost
      /\ to_string currentCost = Ok cost
      /\ text
         = lit "=== Lucille Protocol — Contract Info ===" ++ nl ++ nl
           ++ lit "Contract: 0xbBaBb6ced6A179A79D34Dbc4918028a9CaFbD8F8" ++ nl
           ++ lit "Chain: Base Sepolia (84532)" ++ nl
           ++ lit "RPC: https://sepolia.base.org" ++ nl
           ++ lit "Current cost per attempt: " ++ cost ++ lit " wei" ++ nl ++ nl
           ++ contract_info_guide.
Proof.
  intros data text. rewrite contract_info_format_guide.
  destruct (contract_currentCost data) as [currentCost|]; cbn [bind]; [|discriminate].
  unfold contract_info_head, txt. cbn [template bind].
  destruct (to_string currentCost) as [cost|] eqn:Hcost; cbn [bind]; [|discriminate].
  intros H; apply Ok_inj in H; subst text.
  exists cost, currentCost. split; [reflexivity|]. split; [exact Hcost|].
  replace (lit "Contract: 0xbBaBb6ced6A179A79D34Dbc4918028a9CaFbD8F8")
    with (lit "Contract: " ++ contractAddress) by (vm_compute; reflexivity).
  replace (lit "Chain: Base Sepolia (84532)")
    with (lit "Chain: Base Sepolia (" ++ decimal_of_Z 84532 ++ lit ")")
    by (vm_compute; reflexivity).
  replace (lit "RPC: https://sepolia.base.org") with (lit "RPC: " ++ rpcUrl)
    by (vm_compute; reflexivity).
  flatten_text. reflexivity.
Qed.

(** *** The wallet address check *)

Lemma lower_hex_facts (c : char16) :
  N.eqb (lower_hex c) 48 = N.eqb c 48
  /\ N.eqb (lower_hex c) 120 = N.eqb c 120
  /\ is_hex_digit (lower_hex c) = is_hex_digit c.
Proof.
  unfold lower_hex, is_hex_digit, is_digit.
  destruct (N.leb_spec 65 c); destruct (N.leb_spec c 70); cbn [andb];
    repeat split;
    repeat match goal with
           | |- context [N.eqb ?a ?b] => destruct (N.eqb_spec a b); try lia
           | |- context [N.leb ?a ?b] => destruct (N.leb_spec a b); try lia
           end;
    reflexivity.
Qed.

Lemma is_wallet_address_lower (s : jsstring) :
  is_wallet_address (map lower_hex s) = is_wallet_address s.
Proof.
  destruct s as [|c0 [|c1 digits]]; try reflexivity.
  cbn [map is_wallet_address].
  destruct (lower_hex_facts c0) as (-> & _ & _).
  destruct (lower_hex_facts c1) as (_ & -> & _).
  rewrite length_map. f_equal.
  induction digits as [|c digits IH]; [reflexivity|].
  cbn [map forallb]. destruct (lower_hex_facts c) as (_ & _ & ->). now rewrite IH.
Qed.

(** X26.  The hexadecimal digits of an address may be written in either case:
    an address and its lower-case form get the same verdict.  The prefix may
    not: an address that starts with [0X] is invalid whatever follows. *)
Theorem verify_wallet_letter_case :
  forall address : jsstring,
    (exists verdict : jsstring -> jsstring,
        (verdict = valid_wallet_text \/ verdict = invalid_wallet_text)
        /\ lucille_verify_wallet address = Done (Ok (textContent (verdict address)))
        /\ lucille_verify_wallet (map lower_hex address)
           = Done (Ok (textContent (verdict (map lower_hex address)))))
    /\ lucille_verify_wallet (lit "0X" ++ address)
       = Done (Ok (textContent (invalid_wallet_text (lit "0X" ++ address)))).
Proof.
  intros address. unfold lucille_verify_wallet. cbv zeta.
  rewrite !wallet_regex_is_address_rule, is_wallet_address_lower.
  split.
  - destruct (is_wallet_address address).
    + exists valid_wallet_text. auto.
    + exists invalid_wallet_text. auto.
  - change (lit "0X") with [48; 88]%N. reflexivity.
Qed.

End Gateway.

Arguments VUndefined {number}.
Arguments VNull {number}.
Arguments VBool {number} b.
Arguments VStr {number} s.
Arguments Int {number} z.
Arguments ThrownApiError {number} status body.
Arguments ThrownError {number} message.
Arguments Ok {number A} a.
Arguments Throw {number A} e.

(** ** The model at work

    The statements above, applied to concrete exchanges with the executable
    engine and the default endpoint. *)

(** A 503 from upstream comes back as the maintenance text. *)
Lemma gateway_never_throws_witness :
  snd (run (upstream 503 []) (handler None Status))
  = errorContent (ThrownApiError 503 [])
  /\ errorContent (ThrownApiError 503 [])
     = Ok (textContent
             (lit "🔧 Lucille is sleeping (maintenance). Try again in a few minutes.")).
Proof.
  split; [|vm_compute; reflexivity].
  destruct (@gateway_never_throws _ Node None) as (_ & _ & H & _).
  apply (H Status (upstream 503 [])
           {| req_url := lit "https://lucille.world/api/brain/api/game-state";
              req_method := GET; req_headers := []; req_body := None |}
           (ThrownApiError 503 [])).
  - vm_compute. reflexivity.
  - vm_compute. reflexivity.
Defined.

(** A body with [retry_after_seconds] 30 asks for a wait of 30 seconds. *)
Lemma rate_limit_guidance_witness :
  errorContent (ThrownApiError 429 (litq "{`retry_after_seconds`: 30}"))
  = Ok (textContent (rate_limited_text (lit "30"))).
Proof.
  destruct (@rate_limit_guidance _ Node (litq "{`retry_after_seconds`: 30}"))
    as (_ & H & _).
  apply (H (VObj [(lit "retry_after_seconds", VNum (Int 30))]) (VNum (Int 30)) (lit "30"));
    vm_compute; reflexivity.
Defined.

(** A body with [retry_after_seconds] 0: the field is there, and the text
    asks for 60 seconds, not for 0.  So it does for a field that cannot be
    printed. *)
Lemma retry_after_zero_states_default :
  JSON_parse (litq "{`retry_after_seconds`: 0}")
  = Ok (VObj [(lit "retry_after_seconds", VNum (Int 0))])
  /\ errorContent (ThrownApiError 429 (litq "{`retry_after_seconds`: 0}"))
     = Ok (textContent
             (lit "⏳ Rate limited — wait 60 seconds and try again." ++ nl
              ++ lit "Limit: 3 plays/min per wallet, 60 reads/min."))
  /\ includes
       (result_text (errorContent (ThrownApiError 429 (litq "{`retry_after_seconds`: 0}"))))
       (lit "wait 0 seconds") = false
  /\ JSON_parse (litq "{`retry_after_seconds`: {`toString`: 1}}")
     = Ok (VObj [(lit "retry_after_seconds", VObj [(lit "toString", VNum (Int 1))])])
  /\ errorContent (ThrownApiError 429 (litq "{`retry_after_seconds`: {`toString`: 1}}"))
     = Ok (textContent
             (lit "⏳ Rate limited — wait 60 seconds and try again." ++ nl
              ++ lit "Limit: 3 plays/min per wallet, 60 reads/min.")).
Proof. repeat split; vm_compute; reflexivity. Qed.

(** The example of the specification, grouped and rendered. *)
Lemma history_groups_witness :
  snd (run (upstream 200
              (litq "[{`personality`:`A`,`round`:1},{`personality`:`B`,`round`:2},{`personality`:`A`,`round`:1}]"))
         (lucille_history None recent_feed))
  = Ok (textContent
          (trim
             (history_header recent_feed 3
              ++ litq "--- A (Round 1) ---
1. [Score: undefined] ???
   Message: ``
   Lucille: ``

2. [Score: undefined] ???
   Message: ``
   Lucille: ``

--- B (Round 2) ---
1. [Score: undefined] ???
   Message: ``
   Lucille: ``

"))).
Proof.
  destruct (@history_groups_in_first_seen_order _ Node None recent_feed
              (VArr example_attempts) example_attempts
              (upstream 200
                 (litq "[{`personality`:`A`,`round`:1},{`personality`:`B`,`round`:2},{`personality`:`A`,`round`:1}]")))
    as (H & _).
  - intros req. vm_compute. reflexivity.
  - reflexivity.
  - discriminate.
  - apply (H [lit "A (Round 1)"; lit "B (Round 2)"; lit "A (Round 1)"]).
    + repeat constructor; vm_compute; reflexivity.
    + vm_compute. reflexivity.
Defined.

(** An attempt of round 0 is filed under "Round ?".  A [null] after the
    first attempt, or a player that is a number, and no group is shown at
    all. *)
Lemma history_round_zero_key :
  snd (run (upstream 200 (litq "[{`personality`:`A`,`round`:0}]"))
         (lucille_history None recent_feed))
  = Ok (textContent (litq "=== Recent 1 Attempts ===

--- A (Round ?) ---
1. [Score: undefined] ???
   Message: ``
   Lucille: ``"))
  /\ includes
       (result_text
          (snd (run (upstream 200 (litq "[{`personality`:`A`,`round`:0}]"))
                  (lucille_history None recent_feed))))
       (lit "A (Round 0)") = false
  /\ snd (run (upstream 200 (litq "[{`personality`:`A`,`round`:1},null]"))
            (lucille_history None recent_feed))
     = Ok (textContent
             (lit "❌ Error: Cannot read properties of null (reading 'personality')"))
  /\ snd (run (upstream 200 (litq "[{`personality`:`A`,`round`:1,`player`:12345}]"))
            (lucille_history None recent_feed))
     = Ok (textContent (lit "❌ Error: a.player.slice is not a function")).
Proof. repeat split; vm_compute; reflexivity. Qed.

(** A claimed drip. *)
Lemma claim_eth_message_shapes_witness :
  snd (run (upstream 200 (litq "{`status`:`claimed`,`amount`:`0.001`,`txHash`:`0xfeed`}"))
         (lucille_claim_eth None (lit "0x00000000000000000000000000000000000000aa")))
  = Ok (textContent
          (claimed_text (lit "0.001") (lit "0x00000000000000000000000000000000000000aa")
             (lit "0xfeed"))).
Proof.
  destruct (@claim_eth_message_shapes _ Node None
              (lit "0x00000000000000000000000000000000000000aa")
              (VObj [(lit "status", VStr (lit "claimed"));
                     (lit "amount", VStr (lit "0.001"));
                     (lit "txHash", VStr (lit "0xfeed"))])
              (upstream 200 (litq "{`status`:`claimed`,`amount`:`0.001`,`txHash`:`0xfeed`}")))
    as (H & _).
  - intros req. vm_compute. reflexivity.
  - destruct (H (VStr (lit "claimed"))) as (_ & _ & Hclaimed & _).
    + vm_compute. reflexivity.
    + destruct (Hclaimed eq_refl) as (Hok & _).
      apply Hok; vm_compute; reflexivity.
Defined.

(** Responses that give none of the four messages.  The response [null]:
    reading its [status] throws.  An array nested 6000 deep: it has no
    status, and echoing it exhausts the stack.  A balance that cannot be
    printed.  Each time the result is the classifier's text for the
    error. *)
Lemma claim_eth_null_response :
  snd (run (upstream 200 (lit "null"))
         (lucille_claim_eth None (lit "0x00000000000000000000000000000000000000aa")))
  = Ok (textContent (lit "❌ Error: Cannot read properties of null (reading 'status')"))
  /\ api_result (upstream 200 (lit "null")
                   {| req_url := []; req_method := POST; req_headers := []; req_body := None |})
     = Ok VNull
  /\ snd (run (upstream 200 (repeat 91%N (N.to_nat 6000) ++ repeat 93%N (N.to_nat 6000)))
            (lucille_claim_eth None (lit "0x00000000000000000000000000000000000000aa")))
     = Ok (textContent (lit "❌ Error: Maximum call stack size exceeded"))
  /\ snd (run (upstream 200 (litq "{`status`:`has_balance`,`balance`:{`toString`:1}}"))
            (lucille_claim_eth None (lit "0x00000000000000000000000000000000000000aa")))
     = Ok (textContent (lit "❌ Error: Cannot convert object to primitive value")).
Proof. repeat split; vm_compute; reflexivity. Qed.

(** The address of the specification's example, in a feed of one attempt
    and in a list of one round. *)
Lemma address_truncation_witness :
  (exists text,
      snd (run (upstream 200
                  (litq "[{`player`:`0x1234567890abcdef1234567890abcdef12345678`}]"))
             (lucille_history None recent_feed))
      = Ok (textContent text)
      /\ exists i badge source message response,
           includes text
             (entry_lines (decimal_of_nat (S i)) badge (lit "0x1234...5678") source
                message response)
           = true)
  /\ (exists text lines round name emoji score jackpot,
        snd (run (upstream 200
                    (litq "[{`victory`:{`winner`:`0x1234567890abcdef1234567890abcdef12345678`}}]"))
               (lucille_leaderboard None))
        = Ok (textContent text)
        /\ text = lit "Past rounds:" ++ nl ++ join_with nl lines
        /\ nth_error lines 0
           = Some (won_round_line round name emoji (lit "0x12345678") score jackpot)).
Proof.
  destruct (@address_truncation _ Node None) as (Hfeed & _ & Hlist & _).
  split.
  - destruct (history_format (E:=Node) recent_feed
                (VArr [VObj [(lit "player",
                              VStr (lit "0x1234567890abcdef1234567890abcdef12345678"))]]))
      as [text|] eqn:Hfmt; [|vm_compute in Hfmt; discriminate].
    destruct (Hfeed recent_feed
                (VArr [VObj [(lit "player",
                              VStr (lit "0x1234567890abcdef1234567890abcdef12345678"))]])
                [VObj [(lit "player",
                        VStr (lit "0x1234567890abcdef1234567890abcdef12345678"))]]
                (VObj [(lit "player",
                        VStr (lit "0x1234567890abcdef1234567890abcdef12345678"))])
                text
                (upstream 200
                   (litq "[{`player`:`0x1234567890abcdef1234567890abcdef12345678`}]")))
      as (Hrun & i & badge & addr & source & message & response
          & Hin & _ & _ & _ & _ & _ & Hexample & _).
    + intros req. vm_compute. reflexivity.
    + reflexivity.
    + left. reflexivity.
    + exact Hfmt.
    + exists text. split; [exact Hrun|].
      exists i, badge, source, message, response.
      rewrite <- (Hexample eq_refl). exact Hin.
  - destruct (leaderboard_format (E:=Node)
                (VArr [VObj [(lit "victory",
                              VObj [(lit "winner",
                                     VStr (lit "0x1234567890abcdef1234567890abcdef12345678"))])]]))
      as [text|] eqn:Hfmt; [|vm_compute in Hfmt; discriminate].
    destruct (Hlist
                (VArr [VObj [(lit "victory",
                              VObj [(lit "winner",
                                     VStr (lit "0x1234567890abcdef1234567890abcdef12345678"))])]])
                [VObj [(lit "victory",
                        VObj [(lit "winner",
                               VStr (lit "0x1234567890abcdef1234567890abcdef12345678"))])]]
                text
                (upstream 200
                   (litq "[{`victory`:{`winner`:`0x1234567890abcdef1234567890abcdef12345678`}}]")))
      as (Hrun & lines & Htext & _ & Hline).
    + intros req. vm_compute. reflexivity.
    + reflexivity.
    + exact Hfmt.
    + destruct (Hline 0
                  (VObj [(lit "victory",
                          VObj [(lit "winner",
                                 VStr (lit "0x1234567890abcdef1234567890abcdef12345678"))])])
                  (VObj [(lit "winner",
                          VStr (lit "0x1234567890abcdef1234567890abcdef12345678"))])
                  (lit "0x1234567890abcdef1234567890abcdef12345678")
                  eq_refl eq_refl eq_refl eq_refl)
        as (round & name & emoji & score & jackpot & Hnth).
      exists text, lines, round, name, emoji, score, jackpot.
      split; [exact Hrun|]. split; [exact Htext|exact Hnth].
Defined.

(** An attempt with a player address, followed by an attempt that cannot be
    read: the feed is replaced by the error text, and the address is not
    shown in any form.  So it is with the winner of a round that is
    followed by a round that cannot be read. *)
Lemma address_hidden_by_unreadable_entry :
  api_result (upstream 200
                (litq "[{`player`:`0x1234567890abcdef1234567890abcdef12345678`},null]")
                {| req_url := []; req_method := GET; req_headers := []; req_body := None |})
  = Ok (VArr [VObj [(lit "player",
                     VStr (lit "0x1234567890abcdef1234567890abcdef12345678"))];
              VNull])
  /\ snd (run (upstream 200
                 (litq "[{`player`:`0x1234567890abcdef1234567890abcdef12345678`},null]"))
            (lucille_history None recent_feed))
     = Ok (textContent
             (lit "❌ Error: Cannot read properties of null (reading 'personality')"))
  /\ includes
       (result_text
          (snd (run (upstream 200
                       (litq "[{`player`:`0x1234567890abcdef1234567890abcdef12345678`},null]"))
                  (lucille_history None recent_feed))))
       (lit "0x1234") = false
  /\ snd (run (upstream 200
                 (litq "[{`victory`:{`winner`:`0x1234567890abcdef1234567890abcdef12345678`}},null]"))
            (lucille_leaderboard None))
     = Ok (textContent
             (lit "❌ Error: Cannot read properties of null (reading 'victory')"))
  /\ includes
       (result_text
          (snd (run (upstream 200
                       (litq "[{`victory`:{`winner`:`0x1234567890abcdef1234567890abcdef12345678`}},null]"))
                  (lucille_leaderboard None))))
       (lit "0x1234") = false.
Proof. repeat split; vm_compute; reflexivity. Qed.

(** A message of 201 characters, and no response: the entry shows the first
    200 characters between the quotes. *)
Lemma message_truncation_witness :
  exists text,
    snd (run (upstream 200 (litq "[{`message`:`" ++ repeat 97%N 201 ++ litq "`}]"))
           (lucille_history None recent_feed))
    = Ok (textContent text)
    /\ exists i badge addr source response,
         includes text
           (entry_lines (decimal_of_nat (S i)) badge addr source (repeat 97%N 200) response)
         = true.
Proof.
  destruct (@message_truncation _ Node None) as (Hfeed & _).
  destruct (history_format (E:=Node) recent_feed
              (VArr [VObj [(lit "message", VStr (repeat 97%N 201))]]))
    as [text|] eqn:Hfmt; [|vm_compute in Hfmt; discriminate].
  destruct (Hfeed recent_feed
              (VArr [VObj [(lit "message", VStr (repeat 97%N 201))]])
              [VObj [(lit "message", VStr (repeat 97%N 201))]]
              (VObj [(lit "message", VStr (repeat 97%N 201))])
              text
              (upstream 200 (litq "[{`message`:`" ++ repeat 97%N 201 ++ litq "`}]")))
    as (Hrun & i & badge & addr & source & message & response
        & Hin & _ & _ & _ & Hmessage & _).
  - intros req. vm_compute. reflexivity.
  - reflexivity.
  - left. reflexivity.
  - exact Hfmt.
  - exists text. split; [exact Hrun|].
    exists i, badge, addr, source, response.
    destruct (Hmessage (repeat 97%N 201) eq_refl) as (Hcut & _).
    subst message. exact Hin.
Defined.

(** A message of 201 characters in an attempt that is followed by one that
    cannot be read: the tool answers with the error text, which shows
    nothing of the message. *)
Lemma message_hidden_by_unreadable_entry :
  api_result (upstream 200 (litq "[{`message`:`" ++ repeat 97%N 201 ++ litq "`},null]")
                {| req_url := []; req_method := GET; req_headers := []; req_body := None |})
  = Ok (VArr [VObj [(lit "message", VStr (repeat 97%N 201))]; VNull])
  /\ snd (run (upstream 200 (litq "[{`message`:`" ++ repeat 97%N 201 ++ litq "`},null]"))
            (lucille_history None recent_feed))
     = Ok (textContent
             (lit "❌ Error: Cannot read properties of null (reading 'personality')"))
  /\ includes
       (result_text
          (snd (run (upstream 200
                       (litq "[{`message`:`" ++ repeat 97%N 201 ++ litq "`},null]"))
                  (lucille_history None recent_feed))))
       (lit "aaa") = false.
Proof. repeat split; vm_compute; reflexivity. Qed.

(** A game state with a base cost and no current cost. *)
Lemma contract_info_cost_line_witness :
  includes
    (result_text (snd (run (upstream 200 (litq "{`baseCost`:`1000`}"))
                         (lucille_contract_info None))))
    (lit "Current cost per attempt: 1000 wei") = true.
Proof.
  destruct (@contract_info_cost_line _ Node None
              (VObj [(lit "baseCost", VStr (lit "1000"))])
              (upstream 200 (litq "{`baseCost`:`1000`}")))
    as (H & _).
  - intros req. vm_compute. reflexivity.
  - destruct (H (VStr (lit "1000")) VUndefined) as (_ & Hbase & _).
    + vm_compute. reflexivity.
    + vm_compute. reflexivity.
    + destruct (Hbase eq_refl eq_refl) as (Hshown & _).
      apply (Hshown (lit "1000")). vm_compute. reflexivity.
Defined.

(** A base cost of 0 is present, and the line shows the placeholder.  A
    base cost that cannot be printed, or the response [null], and there is
    no cost line at all. *)
Lemma contract_info_zero_base_cost :
  api_result (upstream 200 (litq "{`baseCost`:0}")
                {| req_url := []; req_method := GET; req_headers := []; req_body := None |})
  = Ok (VObj [(lit "baseCost", VNum (Int 0))])
  /\ includes
       (result_text (snd (run (upstream 200 (litq "{`baseCost`:0}"))
                            (lucille_contract_info None))))
       (lit "Current cost per attempt: 1 wei") = true
  /\ includes
       (result_text (snd (run (upstream 200 (litq "{`baseCost`:0}"))
                            (lucille_contract_info None))))
       (lit "Current cost per attempt: 0 wei") = false
  /\ snd (run (upstream 200 (litq "{`baseCost`:{`toString`:1}}"))
            (lucille_contract_info None))
     = Ok (textContent (lit "❌ Error: Cannot convert object to primitive value"))
  /\ snd (run (upstream 200 (lit "null")) (lucille_contract_info None))
     = Ok (textContent
             (lit "❌ Error: Cannot read properties of null (reading 'baseCost')")).
Proof. repeat split; vm_compute; reflexivity. Qed.

(** A round given as [0.0] is no integer literal; it is falsy all the same. *)
Lemma history_falsy_filters_witness :
  run (upstream 200 (lit "[]"))
    (lucille_history None
       {| history_limit := Int 20;
          history_round :=
            Some (num_of_literal
                    {| numeral_neg := false; numeral_int := [0%N];
                       numeral_frac := [0%N]; numeral_exp := 0 |});
          history_player := None |})
  = run (upstream 200 (lit "[]")) (lucille_history None recent_feed).
Proof.
  destruct (@history_falsy_filters _ Node None (Int 20) None None
              (upstream 200 (lit "[]"))) as (_ & _ & _ & _ & H).
  apply H. vm_compute. reflexivity.
Defined.

(** ** More of the model at work *)

(** A 500 with a body. *)
Lemma unexpected_status_reported_witness :
  snd (run (upstream 500 (lit "boom")) (handler None Status))
  = Ok (textContent
          (lit "❌ API error (" ++ decimal_of_Z 500 ++ lit "): "
           ++ lit "boom" ++ nl
           ++ lit "If this persists, the game may be temporarily unavailable.")).
Proof.
  apply (@unexpected_status_reported _ Node None Status 500%Z (lit "boom")); lia.
Defined.

(** The message of a [fetch] that found nobody listening. *)
Lemma transport_failures_classified_witness :
  snd (run (fun _ => Rejected (ThrownError (lit "connect ECONNREFUSED 127.0.0.1:3000")))
         (handler None Leaderboard))
  = Ok (textContent
          (lit "🔌 Cannot reach Lucille API. The server may be down or the URL may be wrong." ++ nl
           ++ lit "Default: https://lucille.world/api/brain")).
Proof.
  destruct (@transport_failures_classified _ Node None Leaderboard) as (H & _).
  apply H. vm_compute. reflexivity.
Defined.

(** No endpoint configured. *)
Lemma endpoint_configuration_witness :
  Forall (fun req => starts_with (lit "https://lucille.world/api/brain/api/") (req_url req) = true)
    (fst (run (upstream 200 (lit "{}")) (handler None RoundStrategy))).
Proof.
  destruct (@endpoint_configuration _ Node None RoundStrategy (upstream 200 (lit "{}")))
    as (H & _).
  apply H. left. reflexivity.
Defined.

(** A response without [attempts], asked for round 3. *)
Lemma history_without_attempts_witness :
  snd (run (upstream 200 (lit "{}"))
         (lucille_history None
            {| history_limit := Int 20; history_round := Some (Int 3);
               history_player := None |}))
  = Ok (textContent (lit "No attempts found for the given filters.")).
Proof.
  apply (@history_without_attempts _ Node None _ (VObj [])).
  - intros req. vm_compute. reflexivity.
  - right. split; [reflexivity|]. exists VUndefined. split; [reflexivity|now left].
Defined.

(** The feed of the three example attempts, by round and by player. *)
Lemma history_text_is_trimmed_witness :
  exists text,
    history_format recent_feed (VArr example_attempts) = Ok text
    /\ (forall c rest, text = c :: rest -> is_js_whitespace c = false)
    /\ (forall start c, text = start ++ [c] -> is_js_whitespace c = false).
Proof.
  destruct (history_format (E:=Node) recent_feed (VArr example_attempts)) as [text|] eqn:Hfmt;
    [|vm_compute in Hfmt; discriminate].
  exists text. split; [reflexivity|].
  exact (@history_text_is_trimmed _ Node recent_feed (VArr example_attempts) text Hfmt).
Defined.


Lemma grouping_keeps_every_attempt_witness :
  Permutation
    (concat (map snd [(lit "A (Round 1)", [attempt_of (number:=node_number) "A" 1; attempt_of "A" 1]);
                      (lit "B (Round 2)", [attempt_of "B" 2])]))
    example_attempts
  /\ NoDup (map fst [(lit "A (Round 1)", [attempt_of (number:=node_number) "A" 1; attempt_of "A" 1]);
                     (lit "B (Round 2)", [attempt_of "B" 2])])
  /\ Forall (fun group : jsstring * list (@value node_number) => snd group <> [])
       [(lit "A (Round 1)", [attempt_of "A" 1; attempt_of "A" 1]);
        (lit "B (Round 2)", [attempt_of "B" 2])].
Proof.
  apply (@grouping_keeps_every_attempt _ Node). vm_compute. reflexivity.
Defined.

(** A null in second place. *)
Lemma history_null_attempt_fails_feed_witness :
  snd (run (upstream 200 (litq "[{`personality`:`A`,`round`:1},null]"))
         (lucille_history None recent_feed))
  = errorContent (TypeError (ReadOfNull (lit "personality"))).
Proof.
  apply (@history_null_attempt_fails_feed _ Node None recent_feed
           [attempt_of "A" 1] []).
  - constructor; [|constructor]. exists (lit "A (Round 1)"). vm_compute. reflexivity.
  - intros req. vm_compute. reflexivity.
Defined.


(** A play that won, without [prize_eth] and without an NFT. *)
Lemma play_victory_prize_witness :
  play_format (E:=Node) (lit "0x00000000000000000000000000000000000000aa")
    (VObj [(lit "score", VNum (Int 95)); (lit "threshold", VNum (Int 90));
           (lit "won", VBool true); (lit "response", VStr (lit "You win."));
           (lit "personality", VStr (lit "Vex")); (lit "personality_emoji", VStr (lit "*"));
           (lit "round", VNum (Int 3)); (lit "turn", VNum (Int 7));
           (lit "phase", VStr (lit "late")); (lit "jackpot", VStr (lit "0.5"));
           (lit "message_to_agent", VStr (lit "Well played."))])
  = Ok (lit "Score: " ++ lit "95" ++ lit "/" ++ lit "90"
        ++ lit " (need " ++ lit "90" ++ lit "% to win)" ++ nl
        ++ lit "Won: 🎉 YES!" ++ nl
        ++ lit "Lucille says: " ++ dquote ++ lit "You win." ++ dquote ++ nl
        ++ lit "Personality: " ++ lit "Vex" ++ lit " " ++ lit "*" ++ nl
        ++ lit "Round " ++ lit "3" ++ lit ", Turn " ++ lit "7" ++ lit " (" ++ lit "late"
        ++ lit ")" ++ nl
        ++ lit "Jackpot: " ++ lit "0.5" ++ lit " ETH" ++ nl
        ++ nl
        ++ lit "🏆 VICTORY!" ++ nl
        ++ lit "Prize: " ++ lit "0.5" ++ lit " ETH → sent to "
        ++ lit "0x00000000000000000000000000000000000000aa" ++ nl
        ++ [] ++ [] ++ lit "Well played.").
Proof.
  apply (@play_victory_prize _ Node _ _ (VBool true) VUndefined (VStr (lit "0.5"))
           VUndefined VUndefined (VStr (lit "Well played."))
           (lit "95") (lit "90") (lit "You win.") (lit "Vex") (lit "*")
           (lit "3") (lit "7") (lit "late") (lit "0.5") (lit "0.5") [] []
           (lit "Well played."));
    try (vm_compute; reflexivity); discriminate.
Defined.

(** An upstream without history. *)
Lemma leaderboard_without_rounds_witness :
  snd (run (upstream 200 (litq "{`history`:null}")) (lucille_leaderboard None))
  = Ok (textContent (lit "Past rounds:" ++ nl)).
Proof.
  apply (@leaderboard_without_rounds _ Node None (VObj [(lit "history", VNull)])).
  - intros req. vm_compute. reflexivity.
  - right. split; [reflexivity|]. exists VNull. split; [vm_compute; reflexivity|now left].
Defined.

(** The third round of a list, which has only a name. *)
Lemma leaderboard_round_without_winner_witness :
  exists lines,
    snd (run (upstream 200 (litq "[{`name`:`Ash`},{`name`:`Bo`},{`name`:`Vex`}]"))
           (lucille_leaderboard None))
    = Ok (textContent (lit "Past rounds:" ++ nl ++ join_with nl lines))
    /\ length lines = 3
    /\ nth_error lines 2
       = Some (lit "Round " ++ decimal_of_nat 3 ++ lit ": " ++ dquote ++ lit "Vex" ++ dquote
               ++ lit " " ++ lit " — No winner yet").
Proof.
  destruct (leaderboard_lines (E:=Node) 0
              [VObj [(lit "name", VStr (lit "Ash"))]; VObj [(lit "name", VStr (lit "Bo"))];
               VObj [(lit "name", VStr (lit "Vex"))]])
    as [lines|] eqn:Hlines; [|vm_compute in Hlines; discriminate].
  destruct (@leaderboard_round_without_winner _ Node None
              (VArr [VObj [(lit "name", VStr (lit "Ash"))];
                     VObj [(lit "name", VStr (lit "Bo"))];
                     VObj [(lit "name", VStr (lit "Vex"))]])
              [VObj [(lit "name", VStr (lit "Ash"))]; VObj [(lit "name", VStr (lit "Bo"))];
               VObj [(lit "name", VStr (lit "Vex"))]]
              lines
              (upstream 200 (litq "[{`name`:`Ash`},{`name`:`Bo`},{`name`:`Vex`}]")))
    as (Hrun & Hlen & Hline).
  - intros req. vm_compute. reflexivity.
  - reflexivity.
  - exact Hlines.
  - exists lines. split; [exact Hrun|]. split; [exact Hlen|].
    apply (Hline 2 (VObj [(lit "name", VStr (lit "Vex"))]) VUndefined VUndefined VUndefined);
      vm_compute; reflexivity.
Defined.


(** Two tips. *)
Lemma strategy_advice_block_witness :
  strategy_advice (E:=Node)
    (VObj [(lit "advice", VArr [VStr (lit "Be brief."); VStr (lit "Be kind.")])])
  = Ok (nl ++ lit "Advice:" ++ nl
        ++ concat (map (fun t => lit "  💡 " ++ t ++ nl) [lit "Be brief."; lit "Be kind."])).
Proof.
  destruct (@strategy_advice_block _ Node
              (VObj [(lit "advice", VArr [VStr (lit "Be brief."); VStr (lit "Be kind.")])])
              (VArr [VStr (lit "Be brief."); VStr (lit "Be kind.")]))
    as (_ & H).
  - vm_compute. reflexivity.
  - apply (H (lit "Be brief.") [lit "Be kind."]). reflexivity.
Defined.

(** A field the tool does not name makes no difference. *)
Lemma personality_shows_listed_fields_only_witness :
  personality_format (E:=Node)
    (VObj [(lit "name", VStr (lit "Vex")); (lit "secret", VStr (lit "x"))])
  = personality_format (VObj [(lit "name", VStr (lit "Vex"))]).
Proof.
  apply (@personality_shows_listed_fields_only _ Node).
  intros k Hk. cbn [In] in Hk.
  repeat (destruct Hk as [<- | Hk]; [vm_compute; reflexivity|]). contradiction.
Defined.

(** The empty game state. *)
Lemma status_of_bare_state_witness :
  status_format (E:=Node) (VObj [])
  = Ok (litq "{
  `jackpot`: `undefined ETH`,
  `threshold`: `undefined%`,
  `network`: `base-sepolia`
}").
Proof.
  apply (@status_of_bare_state _ Node []). intros k _. reflexivity.
Defined.

(** A game state with a current cost. *)
Lemma contract_info_only_cost_varies_witness :
  exists text cost currentCost,
    contract_info_format (E:=Node) (VObj [(lit "currentCost", VStr (lit "1000"))]) = Ok text
    /\ contract_currentCost (VObj [(lit "currentCost", VStr (lit "1000"))]) = Ok currentCost
    /\ to_string currentCost = Ok cost
    /\ text
       = lit "=== Lucille Protocol — Contract Info ===" ++ nl ++ nl
         ++ lit "Contract: 0xbBaBb6ced6A179A79D34Dbc4918028a9CaFbD8F8" ++ nl
         ++ lit "Chain: Base Sepolia (84532)" ++ nl
         ++ lit "RPC: https://sepolia.base.org" ++ nl
         ++ lit "Current cost per attempt: " ++ cost ++ lit " wei" ++ nl ++ nl
         ++ contract_info_guide.
Proof.
  destruct (contract_info_format (E:=Node) (VObj [(lit "currentCost", VStr (lit "1000"))]))
    as [text|] eqn:Hfmt; [|vm_compute in Hfmt; discriminate].
  destruct (@contract_info_only_cost_varies _ Node _ text Hfmt)
    as (cost & currentCost & H1 & H2 & H3).
  exists text, cost, currentCost. repeat split; assumption.
Defined.


